(** * Session and transaction orchestration of the Junos Ansible modules

    A shallow embedding of [JuniperJunosModule] (module_utils/juniper_junos_common.py),
    of the batched dispatch in [main] (modules/rpc.py) and of
    [parse_version_from_filename] (modules/software.py).

    The Python object is a record of its attributes; every method is a
    function in a state-and-exception monad over that record.  Everything
    outside the repository (the PyEZ device, the delegated connection broker,
    the local file system, the [AnsibleModule] base class) is reached through
    [call]: the call is appended to the trace and the answer is taken from an
    environment that sees the calls made so far.

    - [AnsibleModule.fail_json] and [exit_json] are such calls: outside of
      tests they raise [SystemExit], and the statements that follow them in
      the source follow them here.
    - Logging is left out.  The XML elements are built without lxml's check
      of tag names; a reply stands for what the code reads in it (for a
      checksum reply, what [findtext] finds).
    - [load_configuration] takes [self.config.load] and [os.path.abspath] as
      parameters.  A string is a sequence of 8-bit characters, so that the
      digits of a pattern are the ten ASCII ones. *)

From Stdlib Require Import String Ascii List ZArith Bool Lia.
From Stdlib Require Import DecimalString.
Import ListNotations.
Open Scope string_scope.

Set Implicit Arguments.
Set Warnings "-register-all".

(** ** Python strings *)

Module PyStr.

(** [sub in s] for two [str]. *)
Fixpoint str_in (sub s : string) : bool :=
  if prefix sub s then true
  else match s with
       | EmptyString => false
       | String _ rest => str_in sub rest
       end.

(** The members of [str.isspace] below 256: TAB..CR, FS..US, the blank,
    NEL and the no-break space. *)
Definition is_space (c : ascii) : bool :=
  let n := nat_of_ascii c in
  (((9 <=? n) && (n <=? 13)) || ((28 <=? n) && (n <=? 32))
   || (n =? 133) || (n =? 160))%nat.

Fixpoint lstrip (s : string) : string :=
  match s with
  | String c rest => if is_space c then lstrip rest else s
  | EmptyString => EmptyString
  end.

Fixpoint rev_string (acc s : string) : string :=
  match s with
  | EmptyString => acc
  | String c rest => rev_string (String c acc) rest
  end.

Definition rstrip (s : string) : string :=
  rev_string EmptyString (lstrip (rev_string EmptyString s)).

(** [s.strip()] *)
Definition strip (s : string) : string := rstrip (lstrip s).

(** [s.replace(a, b)] for one-character [a] and [b]. *)
Fixpoint replace_char (a b : ascii) (s : string) : string :=
  match s with
  | EmptyString => EmptyString
  | String c rest =>
      String (if Ascii.eqb c a then b else c) (replace_char a b rest)
  end.

(** [sep.join(l)] *)
Fixpoint join (sep : string) (l : list string) : string :=
  match l with
  | [] => ""
  | [x] => x
  | x :: rest => x ++ sep ++ join sep rest
  end.

Definition is_digit (c : ascii) : bool :=
  let n := nat_of_ascii c in ((48 <=? n) && (n <=? 57))%nat.









(** [str(i)] for an [int]. *)
Definition str_of_int (i : Z) : string := NilZero.string_of_int (Z.to_int i).

End PyStr.

(** ** Exceptions *)

Inductive ExcClass : Type :=
| ConnectError        (* jnpr.junos.exception.ConnectError and subclasses *)
| RpcError            (* jnpr.junos.exception.RpcError and subclasses *)
| TimeoutExpiredError (* ncclient.operations.errors *)
| SystemExit          (* raised by AnsibleModule.exit_json / fail_json *)
| RecursionError
| TypeError
| ValueError
| AttributeError
| UnboundLocalError
| IOError
| OtherException.

Record Exc : Type := mkExc { exc_class : ExcClass; exc_str : string }.

(** [except Exception]: everything but [SystemExit], which derives from
    [BaseException] only. *)
Definition is_Exception (e : Exc) : bool :=
  match exc_class e with SystemExit => false | _ => true end.

(** [except (pyez_exception.ConnectError, pyez_exception.RpcError)] *)
Definition is_pyez_error (e : Exc) : bool :=
  match exc_class e with ConnectError | RpcError => true | _ => false end.

Definition is_timeout_expired (e : Exc) : bool :=
  match exc_class e with TimeoutExpiredError => true | _ => false end.

(** ** Values *)

Inductive Value : Type :=
| VNone
| VBool (b : bool)
| VInt (i : Z)
| VStr (s : string)
| VList (l : list Value)
| VDict (d : list (Value * Value))
| VElement (tag : string) (attrib : list (string * Value))
           (text : Value) (children : list Value)
| VObject (cls : string).

(** ** Calls that leave the module *)

Inductive Call : Type :=
| DeviceOpen                                   (* Device(connect_args).open() *)
| DeviceClose                                  (* dev.close() *)
| ConfigLock                                   (* config.lock() *)
| ConfigUnlock                                 (* config.unlock() *)
| RpcOpenConfiguration (flag : string) (arg : Value) (ignore_warning : Value)
| RpcCloseConfiguration                        (* dev.rpc.close_configuration() *)
| ConfigRescueReload                           (* config.rescue(action="reload") *)
| ConfigRollback (rb_id : Z)                   (* config.rollback(rb_id=id) *)
| ConfigCommit (ignore_warning comment confirm : Value) (timeout : Z)
               (full force_sync sync : bool)
| RpcGetChecksumInformation (path : string)
| HashLocalFile (path : string)                (* _hashfile(open(path, "rb"), md5()) *)
| ScpPut (local_file remote_file : string)
| ScpGet (remote_file local_file : string)
| FtpPut (local_file remote_file : string)
| FtpGet (remote_file local_file : string)
| RpcExecute (rpc : Value) (normalize : bool)  (* dev.rpc(rpc, normalize=...) *)
| RpcGetConfig (filter_xml : Value) (options kwargs : Value)
| SaveFile (path mode : string) (text : Value)
| Broker (method : string) (args : list Value) (* self._pyez_conn.<method>(...) *)
| AnsibleExitJson (kwargs : list (string * Value))
| AnsibleFailJson (kwargs : list (string * Value)).

Inductive Reply : Type :=
| Returns (v : Value)
| Throws (e : Exc).

(** The collaborators: the answer to a call, given the calls made before it. *)
Definition Env : Type := list Call -> Call -> Reply.

(** ** The module object *)

Record Device : Type := mkDevice { dev_timeout : Z }.

Record Config : Type := mkConfig { mode : string }.

(** The options the embedded methods read from [self.params], typed as the
    argument specs declare them. *)
Record Params : Type := mkParams {
  p_timeout : Z;                          (* type int, default 30 *)
  p_rollback : option string;
  p_ignore_warning : option (list Value); (* type list *)
  p_rpcs : option (list string);          (* type list *)
  p_formats : option (list string);       (* type list *)
  p_kwargs : option string;               (* type str *)
  p_attrs : option string;                (* type str *)
  p_filter : option string;
  p_dest : option string;
  p_dest_dir : option string;
  p_diffs_file : option string;
  p_return_output : bool;
  inventory_hostname : string
}.

Record Module : Type := mkModule {
  conn_type : string;
  dev : option Device;
  config : option Config;
  destfile : option string;
  params : Params;
  trace : list Call
}.

Definition set_dev (d : option Device) (m : Module) : Module :=
  mkModule (conn_type m) d (config m) (destfile m) (params m) (trace m).

Definition set_config (c : option Config) (m : Module) : Module :=
  mkModule (conn_type m) (dev m) c (destfile m) (params m) (trace m).

Definition set_destfile (f : option string) (m : Module) : Module :=
  mkModule (conn_type m) (dev m) (config m) f (params m) (trace m).

Definition log_call (c : Call) (m : Module) : Module :=
  mkModule (conn_type m) (dev m) (config m) (destfile m) (params m)
           (trace m ++ [c]).

(** ** The monad of methods *)

Inductive Outcome (A : Type) : Type :=
| Ret (a : A)
| Raise (e : Exc).

Arguments Ret {A} a.
Arguments Raise {A} e.

Definition M (A : Type) : Type := Module -> Outcome A * Module.

Definition ret {A} (a : A) : M A := fun m => (Ret a, m).

Definition bind {A B} (c : M A) (k : A -> M B) : M B :=
  fun m => match c m with
           | (Ret a, m') => k a m'
           | (Raise e, m') => (Raise e, m')
           end.

Definition raise {A} (e : Exc) : M A := fun m => (Raise e, m).

(** [try: body  except <catches> as ex: handler ex] *)
Definition try_except {A} (body : M A) (catches : Exc -> bool)
           (handler : Exc -> M A) : M A :=
  fun m => match body m with
           | (Ret a, m') => (Ret a, m')
           | (Raise e, m') => if catches e then handler e m' else (Raise e, m')
           end.

Definition get {A} (f : Module -> A) : M A := fun m => (Ret (f m), m).

Definition modify (f : Module -> Module) : M unit := fun m => (Ret tt, f m).

Declare Scope py_scope.
Delimit Scope py_scope with py.
Notation "x <- c ;; k" := (bind c (fun x => k))
  (at level 61, c at next level, right associativity) : py_scope.
Notation "c ;; k" := (bind c (fun _ => k))
  (at level 61, right associativity) : py_scope.
Notation "'when' b 'then' c" := (if b then c else ret tt)
  (at level 60, b at level 9, c at level 60) : py_scope.
Open Scope py_scope.

Definition local (m : Module) : bool := String.eqb (conn_type m) "local".

(** Supported configuration modes *)
Definition CONFIG_MODE_CHOICES : list string :=
  ["exclusive"; "private"; "dynamic"; "batch"; "ephemeral"].

Definition str_mem (s : string) (l : list string) : bool :=
  existsb (String.eqb s) l.

Definition msg_kwargs (msg : string) : list (string * Value) :=
  [("msg", VStr msg)].

Definition is_some {A} (o : option A) : bool :=
  match o with Some _ => true | None => false end.

Definition is_none {A} (o : option A) : bool := negb (is_some o).

Section Junos.

Variable env : Env.

(** A call to a collaborator: recorded, then answered by the environment. *)
Definition call (c : Call) : M Value :=
  fun m => match env (trace m) c with
           | Returns v => (Ret v, log_call c m)
           | Throws e => (Raise e, log_call c m)
           end.

Definition call_ (c : Call) : M unit := call c ;; ret tt.

(** [JuniperJunosModule.close] *)
Definition close (raise_exceptions : bool) : M unit :=
  d <- get dev ;;
  when (is_some d) then
    try_except
      (modify (set_dev None) ;;
       call_ DeviceClose)
      is_pyez_error
      (fun ex => if raise_exceptions then raise ex else ret tt).

(** [self.dev.rpc.<...>]: an attribute of [None] cannot be taken. *)
Definition need_dev : M Device :=
  d <- get dev ;;
  match d with
  | Some d => ret d
  | None => raise (mkExc AttributeError
                         "'NoneType' object has no attribute 'rpc'")
  end.

(** [JuniperJunosModule.close_configuration], with the [fail_json] it
    calls on a teardown error as a parameter. *)
Definition close_configuration_with (fail_json : string -> M unit) : M unit :=
  is_local <- get local ;;
  if negb is_local then
    call_ (Broker "close_configuration" [])
  else
    c <- get config ;;
    match c with
    | None => ret tt
    | Some config =>
        modify (set_config None) ;;
        try_except
          (if String.eqb (mode config) "exclusive" then
             call_ ConfigUnlock
           else if str_mem (mode config)
                     ["batch"; "dynamic"; "private"; "ephemeral"] then
             need_dev ;; call_ RpcCloseConfiguration
           else ret tt)
          is_pyez_error
          (fun ex =>
             fail_json ("Unable to close the configuration: " ++ exc_str ex))
    end.

(** [JuniperJunosModule.fail_json].  It calls [close_configuration], which
    calls it back on a teardown error; [depth] is what is left of the
    interpreter's recursion limit. *)
Fixpoint fail_json_depth (depth : nat) (msg : string) : M unit :=
  match depth with
  | O => raise (mkExc RecursionError "maximum recursion depth exceeded")
  | S d =>
      close_configuration_with (fail_json_depth d) ;;
      try_except (close false) is_timeout_expired (fun _ => ret tt) ;;
      call_ (AnsibleFailJson (msg_kwargs msg))
  end.

Definition recursion_limit : nat := 1000.

Definition fail_json (msg : string) : M unit :=
  fail_json_depth recursion_limit msg.

Definition close_configuration : M unit :=
  close_configuration_with (fail_json_depth (pred recursion_limit)).

(** [JuniperJunosModule.exit_json] *)
Definition exit_json (kwargs : list (string * Value)) : M unit :=
  is_local <- get local ;;
  (when is_local then
     try_except (close false) is_timeout_expired (fun _ => ret tt)) ;;
  call_ (AnsibleExitJson kwargs).

(** [JuniperJunosModule.open] *)
Definition open : M unit :=
  try_except
    (timeout <- get (fun m => p_timeout (params m)) ;;
     modify (set_dev (Some (mkDevice 30))) ;;
     call_ DeviceOpen ;;
     modify (set_dev (Some (mkDevice timeout))))
    (fun e => match exc_class e with ConnectError => true | _ => false end)
    (fun ex => fail_json ("Unable to make a PyEZ connection: " ++ exc_str ex)).

(** Lines 1237-1246 of [open_configuration]: the filter handed on. *)
Definition builtin_warning : string :=
  "uncommitted changes will be discarded on exit".

Definition ignore_warn_of (ignore_warning : Value) : Value :=
  let ignore_warn := [VStr builtin_warning] in
  match ignore_warning with
  | VBool b => VBool b
  | VStr s => VList (ignore_warn ++ [VStr s])
  | VList l => VList (ignore_warn ++ l)
  | _ => VList ignore_warn
  end.

Definition opt_value (o : option string) : Value :=
  match o with Some s => VStr s | None => VNone end.

(** [JuniperJunosModule.open_configuration] *)
Definition open_configuration (mode : string) (ignore_warning : Value)
           (ephemeral_instance : option string) : M unit :=
  let ignore_warn := ignore_warn_of ignore_warning in
  is_local <- get local ;;
  if negb is_local then
    call_ (Broker "open_configuration" [VStr mode; ignore_warn])
  else
    c <- get config ;;
    when (is_none c) then
      ((when (negb (str_mem mode CONFIG_MODE_CHOICES)) then
          fail_json ("Invalid configuration mode: " ++ mode)) ;;
       (when (negb (String.eqb mode "ephemeral") && is_some ephemeral_instance) then
          fail_json ("Ephemeral instance is specified while the mode "
                     ++ "is not ephemeral.Specify the mode as ephemeral or "
                     ++ "do not specify the instance.")) ;;
       d <- get dev ;;
       (when (is_none d) then open) ;;
       let config := mkConfig mode in
       try_except
         (let rpc_open flag arg :=
            need_dev ;; call_ (RpcOpenConfiguration flag arg ignore_warn) in
          if String.eqb mode "exclusive" then call_ ConfigLock
          else if String.eqb mode "private" then rpc_open "private" (VBool true)
          else if String.eqb mode "dynamic" then rpc_open "dynamic" (VBool true)
          else if String.eqb mode "batch" then rpc_open "batch" (VBool true)
          else if String.eqb mode "ephemeral" then
                 match ephemeral_instance with
                 | None => rpc_open "ephemeral" (VBool true)
                 | Some inst => rpc_open "ephemeral_instance" (VStr inst)
                 end
          else ret tt)
         is_pyez_error
         (fun ex =>
            fail_json ("Unable to open the configuration in " ++ mode
                       ++ " mode: " ++ exc_str ex)) ;;
       modify (set_config (Some config))).

(** [self.config.<...>] *)
Definition need_config : M Config :=
  c <- get config ;;
  match c with
  | Some c => ret c
  | None => raise (mkExc AttributeError
                         "'NoneType' object has no attribute")
  end.


(** [id == "rescue"] *)
Definition is_rescue (id : Value) : bool :=
  match id with VStr s => String.eqb s "rescue" | _ => false end.

(** [type(v).__name__] *)
Definition class_name (v : Value) : string :=
  match v with
  | VNone => "NoneType"
  | VBool _ => "bool"
  | VInt _ => "int"
  | VStr _ => "str"
  | VList _ => "list"
  | VDict _ => "dict"
  | VElement _ _ _ _ => "lxml.etree._Element"
  | VObject cls => cls
  end.

(** The [TypeError] of [id >= 0] for an [id] that is no number. *)
Definition not_comparable (id : Value) : Exc :=
  mkExc TypeError ("'>=' not supported between instances of '"
                   ++ class_name id ++ "' and 'int'").

(** [id >= 0 and id <= 49]: the rollback number when the comparison holds,
    [inr] for the [TypeError] of comparing a non-number with [0]. *)
Definition rollback_number (id : Value) : option Z + Exc :=
  let in_range i := if (0 <=? i)%Z && (i <=? 49)%Z then Some i else None in
  match id with
  | VInt i => inl (in_range i)
  | VBool b => inl (in_range (Z.b2z b))
  | _ => inr (not_comparable id)
  end.

Definition str_of_value (v : Value) : string :=
  match v with
  | VStr s => s
  | VInt i => PyStr.str_of_int i
  | VBool true => "True"
  | VBool false => "False"
  | VNone => "None"
  | _ => "<object>"
  end.

(** [JuniperJunosModule.rollback_configuration] *)
Definition rollback_configuration (id : Value) : M unit :=
  is_local <- get local ;;
  if negb is_local then
    call_ (Broker "rollback_configuration" [id])
  else
    d <- get dev ;;
    c <- get config ;;
    (when (is_none d || is_none c) then
       fail_json "The device or configuration is not open.") ;;
    if is_rescue id then
      try_except
        (need_config ;; call_ ConfigRescueReload)
        is_pyez_error
        (fun ex =>
           fail_json ("Unable to load the rescue configuraton: " ++ exc_str ex))
    else
      match rollback_number id with
      | inr type_error => raise type_error
      | inl (Some rb_id) =>
          try_except
            (need_config ;; call_ (ConfigRollback rb_id))
            is_pyez_error
            (fun ex =>
               fail_json ("Unable to load the rollback "
                          ++ PyStr.str_of_int rb_id
                          ++ " configuraton: " ++ exc_str ex))
      | inl None =>
          fail_json ("Unrecognized rollback configuraton value: "
                     ++ str_of_value id)
      end.

(** [JuniperJunosModule.commit_configuration] *)
Definition commit_configuration (ignore_warning comment confirmed : Value)
           (timeout : Z) (full sync force_sync : bool) : M unit :=
  is_local <- get local ;;
  timeout <-
    (if is_local then
       d <- get dev ;;
       match d with
       | None => raise (mkExc AttributeError
                          "'NoneType' object has no attribute 'timeout'")
       | Some d =>
           ret (if (dev_timeout d =? 0)%Z then timeout else dev_timeout d)
       end
     else ret timeout) ;;
  if negb is_local then
    call_ (Broker "commit_configuration"
             [ignore_warning; comment; confirmed; VInt timeout;
              VBool full; VBool force_sync; VBool sync])
  else
    d <- get dev ;;
    c <- get config ;;
    (when (is_none d || is_none c) then
       fail_json "The device or configuration is not open.") ;;
    try_except
      (need_config ;;
       call_ (ConfigCommit ignore_warning comment confirmed timeout
                full force_sync sync))
      is_pyez_error
      (fun ex =>
         fail_json ("Failure committing the configuraton: " ++ exc_str ex)).

(** ** Checksum-verified transfers *)

(** [hexdigest()] is a [str]. *)
Definition hexdigest_str (v : Value) : M string :=
  match v with
  | VStr s => ret s
  | _ => raise (mkExc TypeError "hexdigest is not a str")
  end.

(** [findtext(".//checksum").strip()]: [findtext] gives a [str], or [None]
    when the reply has no checksum element. *)
Definition findtext_strip (v : Value) : M string :=
  match v with
  | VStr s => ret (PyStr.strip s)
  | _ => raise (mkExc AttributeError
                  "'NoneType' object has no attribute 'strip'")
  end.

(** [JuniperJunosModule.local_md5] *)
Definition local_md5 (package action : string) : M string :=
  try_except
    (v <- call (HashLocalFile package) ;; hexdigest_str v)
    is_Exception
    (fun err =>
       if PyStr.str_in "No such file" (exc_str err) && String.eqb action "get"
       then ret "no_file"
       else raise err).

(** [JuniperJunosModule.remote_md5].  The reply of either path is what
    [findtext(".//checksum")] finds in it. *)
Definition remote_md5 (remote_file action : string) : M string :=
  try_except
    (is_local <- get local ;;
     if is_local then
       need_dev ;;
       rpc_reply <- call (RpcGetChecksumInformation remote_file) ;;
       findtext_strip rpc_reply
     else
       rpc_reply <- call (Broker "get_checksum_information" [VStr remote_file]) ;;
       findtext_strip rpc_reply)
    is_Exception
    (fun err =>
       if PyStr.str_in "No such file or directory" (exc_str err)
          && String.eqb action "put"
       then ret "no_file"
       else raise err).

Definition transfer_failed_msg (local_checksum remote_checksum : string) : string :=
  "Transfer failed (different MD5 between local and remote) "
  ++ local_checksum ++ " | " ++ remote_checksum.

(** [with SCP(self.dev, ...) as scp1: ...] and its delegated counterpart. *)
Definition transport (direct : Call) (method : string) (a b : string) : M unit :=
  is_local <- get local ;;
  if is_local then call_ direct
  else call_ (Broker method [VStr a; VStr b]).

(** The body shared, word for word, by [scp_file_copy_put] and
    [ftp_file_copy_put]; [transfer] is the one statement that differs. *)
Definition file_copy_put (transfer : M unit) (local_file remote_file : string)
  : M (string * bool) :=
  local_checksum <- local_md5 local_file "put" ;;
  remote_checksum <- remote_md5 remote_file "put" ;;
  if String.eqb remote_checksum "no_file"
     || negb (String.eqb remote_checksum local_checksum) then
    transfer ;;
    remote_checksum <- remote_md5 remote_file "put" ;;
    if negb (String.eqb remote_checksum local_checksum) then
      let status := transfer_failed_msg local_checksum remote_checksum in
      fail_json status ;;
      ret (status, false)
    else
      ret ("File pushed OK", true)
  else
    ret ("File already present, skipping the scp", false).

(** [JuniperJunosModule.scp_file_copy_put] *)
Definition scp_file_copy_put (local_file remote_file : string) :=
  file_copy_put
    (transport (ScpPut local_file remote_file) "scp_file_copy_put"
               local_file remote_file)
    local_file remote_file.

(** [JuniperJunosModule.ftp_file_copy_put] *)
Definition ftp_file_copy_put (local_file remote_file : string) :=
  file_copy_put
    (transport (FtpPut local_file remote_file) "ftp_file_copy_put"
               local_file remote_file)
    local_file remote_file.

(** The body shared by [scp_file_copy_get] and [ftp_file_copy_get]. *)
Definition file_copy_get (transfer : M unit) (remote_file local_file : string)
  : M (string * bool) :=
  remote_checksum <- remote_md5 remote_file "get" ;;
  local_checksum <- local_md5 local_file "get" ;;
  if String.eqb local_checksum "no_file"
     || negb (String.eqb local_checksum remote_checksum) then
    transfer ;;
    local_checksum <- local_md5 local_file "get" ;;
    if negb (String.eqb remote_checksum local_checksum) then
      let status := transfer_failed_msg local_checksum remote_checksum in
      fail_json status ;;
      ret (status, false)
    else
      ret ("File pushed OK", true)
  else
    ret ("File already present, skipping the scp", false).

(** [JuniperJunosModule.scp_file_copy_get] *)
Definition scp_file_copy_get (remote_file local_file : string) :=
  file_copy_get
    (transport (ScpGet remote_file local_file) "scp_file_copy_get"
               remote_file local_file)
    remote_file local_file.

(** [JuniperJunosModule.ftp_file_copy_get] *)
Definition ftp_file_copy_get (remote_file local_file : string) :=
  file_copy_get
    (transport (FtpGet remote_file local_file) "ftp_file_copy_get"
               remote_file local_file)
    remote_file local_file.

(** ** Batched dispatch: [main] of modules/rpc.py *)

(** What the code takes from Ansible, lxml, jxmlease and the Python
    library.  [None] from [boolean] and [inr] from [check_type_dict] stand
    for their [TypeError]. *)
Record Library : Type := mkLibrary {
  boolean : Value -> option bool;
  safe_eval : string -> Value;
  check_type_dict : string -> Value + Exc;
  etree_tostring : Value -> string;
  jxmlease_parse_etree : Value -> Value;
  splitlines : Value -> Value;
  py_str : Value -> string;
  normpath : string -> string
}.

(** One element of [results]; the last three keys are set on success only. *)
Record Result : Type := mkResult {
  r_msg : string;
  r_rpc : string;
  r_format : string;
  r_kwargs : Value;
  r_attrs : Value;
  r_changed : bool;
  r_failed : bool;
  r_stdout : option Value;
  r_stdout_lines : option Value;
  r_parsed_output : option Value
}.

Definition set_msg (msg : string) (r : Result) : Result :=
  mkResult msg (r_rpc r) (r_format r) (r_kwargs r) (r_attrs r) (r_changed r)
           (r_failed r) (r_stdout r) (r_stdout_lines r) (r_parsed_output r).

Definition set_attrs (attrs : Value) (r : Result) : Result :=
  mkResult (r_msg r) (r_rpc r) (r_format r) (r_kwargs r) attrs (r_changed r)
           (r_failed r) (r_stdout r) (r_stdout_lines r) (r_parsed_output r).

Definition opt_entry (k : string) (o : option Value) : list (string * Value) :=
  match o with Some v => [(k, v)] | None => [] end.

(** The dict [result] as keyword arguments. *)
Definition result_kwargs (r : Result) : list (string * Value) :=
  ([("msg", VStr (r_msg r)); ("rpc", VStr (r_rpc r));
    ("format", VStr (r_format r)); ("kwargs", r_kwargs r);
    ("attrs", r_attrs r); ("changed", VBool (r_changed r));
    ("failed", VBool (r_failed r))]
   ++ opt_entry "stdout" (r_stdout r)
   ++ opt_entry "stdout_lines" (r_stdout_lines r)
   ++ opt_entry "parsed_output" (r_parsed_output r))%list.

Definition result_value (r : Result) : Value :=
  VDict (map (fun kv => (VStr (fst kv), snd kv)) (result_kwargs r)).

Variable lib : Library.

Definition RPC_OUTPUT_FORMAT_CHOICES : list string := ["text"; "xml"; "json"].

Definition is_str (v : Value) : bool :=
  match v with VStr _ => true | _ => false end.

Definition is_dict (v : Value) : bool :=
  match v with VDict _ => true | _ => false end.

Definition is_list (v : Value) : bool :=
  match v with VList _ => true | _ => false end.

(** [for x in l: body x] *)
Fixpoint for_each {A} (l : list A) (body : A -> M unit) : M unit :=
  match l with
  | [] => ret tt
  | x :: rest => body x ;; for_each rest body
  end.

(** [str(type(v))] *)
Definition type_name (v : Value) : string :=
  "<class '" ++ class_name v ++ "'>".

(** [str(v)]: of a string, a number, a boolean and [None] as Python writes
    them, of any other value as the library does. *)
Definition str_of (v : Value) : string :=
  match v with
  | VNone | VBool _ | VInt _ | VStr _ => str_of_value v
  | VList [] => "[]"
  | VDict [] => "{}"
  | _ => py_str lib v
  end.

Definition invalid_ignore_warning (x : Value) : string :=
  "The value of the ignore_warning option (" ++ str_of x
  ++ ") is invalid. Unexpected type (" ++ type_name x ++ ").".

Definition invalid_ignore_warning_element (l : list Value) (x : Value)
  : string :=
  "The value of the ignore_warning option (" ++ str_of (VList l)
  ++ ") is invalid. " ++ "Element (" ++ str_of x
  ++ ") has unexpected " ++ "type (" ++ type_name x ++ ").".

Definition invalid_ignore_warning_list (l : list Value) : string :=
  "The value of the ignore_warning option (" ++ str_of (VList l)
  ++ ") is invalid.".

(** [JuniperJunosModule.parse_ignore_warning_option] *)
Definition parse_ignore_warning_option : M Value :=
  ignore_warn_list <- get (fun m => p_ignore_warning (params m)) ;;
  match ignore_warn_list with
  | None => ret VNone
  | Some [x] =>
      let invalid := fail_json (invalid_ignore_warning x) ;; ret VNone in
      match boolean lib x with
      | Some bool_val => ret (VBool bool_val)
      | None => if is_str x then ret x else invalid
      end
  | Some ((x :: y :: rest) as l) =>
      for_each l (fun ignore_warn =>
        when (negb (is_str ignore_warn)) then
          fail_json (invalid_ignore_warning_element l ignore_warn)) ;;
      ret (VList l)
  | Some [] =>
      fail_json (invalid_ignore_warning_list []) ;;
      ret VNone
  end.

(** [for kwarg in kwargs] over whatever [kwargs] is by then. *)
Definition iterate (v : Value) : M (list Value) :=
  match v with
  | VList l => ret l
  | VDict d => ret (map fst d)
  | VStr s => ret (map (fun c => VStr (String c "")) (list_ascii_of_string s))
  | _ => raise (mkExc TypeError "object is not iterable")
  end.

(** [kwarg.items()], after [kwarg.pop("allow_bool_values")] when the key
    is there.  A value that is no [dict] has neither method. *)
Fixpoint pop_allow_bool_values (d : list (Value * Value))
  : option Value * list (Value * Value) :=
  match d with
  | [] => (None, [])
  | (VStr k, v) :: rest =>
      if String.eqb k "allow_bool_values" then (Some v, rest)
      else let (found, rest') := pop_allow_bool_values rest in
           (found, (VStr k, v) :: rest')
  | kv :: rest =>
      let (found, rest') := pop_allow_bool_values rest in (found, kv :: rest')
  end.

(** [return_item[k] = v] *)
Fixpoint dict_set (k : string) (v : Value) (d : list (Value * Value))
  : list (Value * Value) :=
  match d with
  | [] => [(VStr k, v)]
  | (VStr k', v') :: rest =>
      if String.eqb k k' then (VStr k', v) :: rest
      else (VStr k', v') :: dict_set k v rest
  | kv :: rest => kv :: dict_set k v rest
  end.

(** [allow_bool_values is True] *)
Definition is_True (v : Value) : bool :=
  match v with VBool true => true | _ => false end.

Definition invalid_list_of_dicts (option_name string_val : string) : string :=
  "The value of the " ++ option_name ++ " option (" ++ string_val
  ++ ") is invalid. Unable to translate into a list of dicts.".

(** The inner loop of [parse_arg_to_list_of_dicts] over [kwarg.items()].
    A key that is no [str] cannot be stored by [dict_set]; once [fail_json]
    has reported it the item is left out. *)
Fixpoint checked_items (option_name string_val : string)
         (allow_bool_values : Value) (items : list (Value * Value))
         (return_item : list (Value * Value)) : M (list (Value * Value)) :=
  match items with
  | [] => ret return_item
  | (k, v) :: rest =>
      (when (negb (is_str k)) then
         fail_json (invalid_list_of_dicts option_name string_val)) ;;
      let v :=
        if is_True allow_bool_values then
          match boolean lib v with
          | Some bool_val => VBool bool_val
          | None => v
          end
        else v in
      let return_item :=
        match k with
        | VStr k => dict_set k v return_item
        | _ => (return_item ++ [(k, v)])%list
        end in
      checked_items option_name string_val allow_bool_values rest return_item
  end.

(** The outer loop of [parse_arg_to_list_of_dicts]. *)
Fixpoint checked_dicts (option_name string_val : string)
         (allow_bool_values : Value) (kwargs : list Value)
         (return_val : list Value) : M (list Value) :=
  match kwargs with
  | [] => ret return_val
  | kwarg :: rest =>
      kwarg <-
        (match kwarg with
         | VStr text =>
             match check_type_dict lib text with
             | inl d => ret d
             | inr exc =>
                 fail_json ("The value of the " ++ option_name ++ " option ("
                            ++ string_val ++ ") is invalid. Unable to "
                            ++ "translate into a list of dicts "
                            ++ exc_str exc ++ ".") ;;
                 ret kwarg
             end
         | _ => ret kwarg
         end) ;;
      (when (negb (is_dict kwarg)) then
         fail_json ("The value of the kwargs option (" ++ option_name
                    ++ ") is " ++ string_val
                    ++ ". Unable to translate into a list of dicts.")) ;;
      match kwarg with
      | VDict d =>
          let (popped, d) := pop_allow_bool_values d in
          let allow_bool_values :=
            match popped with Some v => v | None => allow_bool_values end in
          return_item <-
            checked_items option_name string_val allow_bool_values d [] ;;
          checked_dicts option_name string_val allow_bool_values rest
                        (return_val ++ [VDict return_item])%list
      | _ => raise (mkExc AttributeError "object has no attribute 'items'")
      end
  end.

(** [JuniperJunosModule.parse_arg_to_list_of_dicts] *)
Definition parse_arg_to_list_of_dicts (option_name : string)
           (string_val : option string) (allow_bool_values : bool)
  : M (option (list Value)) :=
  match string_val with
  | None => ret None
  | Some string_val =>
      let kwargs := safe_eval lib string_val in
      kwargs <-
        (match kwargs with
         | VStr text =>
             match check_type_dict lib text with
             | inl d => ret d
             | inr exc =>
                 fail_json ("The value of the " ++ option_name ++ " option ("
                            ++ string_val ++ ") is invalid. Unable to "
                            ++ "translate into a list of dicts. "
                            ++ exc_str exc) ;;
                 ret kwargs
             end
         | _ => ret kwargs
         end) ;;
      let kwargs := if is_dict kwargs then VList [kwargs] else kwargs in
      (when (negb (is_list kwargs)) then
         fail_json (invalid_list_of_dicts option_name string_val)) ;;
      elements <- iterate kwargs ;;
      return_val <-
        checked_dicts option_name string_val (VBool allow_bool_values)
                      elements [] ;;
      ret (Some return_val)
  end.

(** [JuniperJunosModule.save_text_output] *)
Definition save_text_output (name format : string) (text : Value) : M unit :=
  p <- get params ;;
  target <-
    (if String.eqb name "diff" then
       match p_diffs_file p, p_dest_dir p with
       | Some diffs_file, _ => ret (Some (normpath lib diffs_file, "wb"))
       | None, Some dest_dir =>
           ret (Some (normpath lib
                        (dest_dir ++ "/" ++ inventory_hostname p ++ ".diff"),
                      "wb"))
       | None, None => ret None
       end
     else
       match p_dest p, p_dest_dir p with
       | Some dest, _ =>
           f <- get destfile ;;
           match f with
           | None =>
               modify (set_destfile (Some dest)) ;;
               ret (Some (normpath lib dest, "wb"))
           | Some _ => ret (Some (normpath lib dest, "ab"))
           end
       | None, Some dest_dir =>
           let name := PyStr.replace_char " " "_" name in
           let name := PyStr.replace_char "|" "_" name in
           let name := if String.eqb name "config" then "" else "_" ++ name in
           ret (Some (normpath lib
                        (dest_dir ++ "/" ++ inventory_hostname p ++ name
                         ++ "." ++ format),
                      "wb"))
       | None, None => ret None
       end) ;;
  match target with
  | Some (file_path, mode) =>
      try_except
        (call_ (SaveFile file_path mode text))
        (fun e => match exc_class e with IOError => true | _ => false end)
        (fun _ =>
           fail_json ("Unable to save output. Failed to open the "
                      ++ file_path ++ " file."))
  | None => ret tt
  end.

(** [len(rpcs)] *)
Definition len_rpcs (rpcs : option (list string)) : M nat :=
  match rpcs with
  | Some l => ret (length l)
  | None => raise (mkExc TypeError "object of type 'NoneType' has no len()")
  end.

(** Lines 426-448 of [main]: check over formats. *)
Definition check_formats (rpcs : option (list string)) : M (list string) :=
  formats <- get (fun m => p_formats (params m)) ;;
  let formats := match formats with None => ["xml"] | Some f => f end in
  let valid_formats := RPC_OUTPUT_FORMAT_CHOICES in
  for_each formats (fun format =>
    when (negb (str_mem format valid_formats)) then
      fail_json ("The value " ++ format ++ " in formats is invalid. "
                 ++ "Must be one of: " ++ PyStr.join ", " valid_formats)) ;;
  if negb (length formats =? 1)%nat then
    n <- len_rpcs rpcs ;;
    (when (negb (length formats =? n)%nat) then
       fail_json ("The formats option must have a single "
                  ++ "value, or one value per rpc. There "
                  ++ "are " ++ PyStr.str_of_int (Z.of_nat n) ++ " rpcs and "
                  ++ PyStr.str_of_int (Z.of_nat (length formats))
                  ++ " formats.")) ;;
    ret formats
  else
    n <- len_rpcs rpcs ;;
    if (1 <? n)%nat then ret (concat (repeat formats n))
    else ret formats.

(** Lines 451-465 and 468-478 of [main]: check over kwargs, and over attrs
    (whose message lacks the blank [sep]). *)
Definition check_bundle (option_name sep : string)
           (string_val : option string)
           (allow_bool_values : bool) (rpcs : option (list string))
  : M (list Value) :=
  bundle <- parse_arg_to_list_of_dicts option_name string_val allow_bool_values ;;
  match bundle with
  | Some bundle =>
      n <- len_rpcs rpcs ;;
      (when (negb (length bundle =? n)%nat) then
         fail_json ("The " ++ option_name ++ " option must have one value"
                    ++ sep ++ "per rpc. There are " ++ PyStr.str_of_int (Z.of_nat n)
                    ++ " rpcs and "
                    ++ PyStr.str_of_int (Z.of_nat (length bundle))
                    ++ " " ++ option_name ++ ".")) ;;
      ret bundle
  | None =>
      n <- len_rpcs rpcs ;;
      ret (repeat VNone n)
  end.

(** [zip(rpcs, formats, kwargs, attrs)] *)
Fixpoint zip4 (rpcs formats : list string) (kwargs attrs : list Value)
  : list (string * string * Value * Value) :=
  match rpcs, formats, kwargs, attrs with
  | r :: rpcs, f :: formats, k :: kwargs, a :: attrs =>
      (r, f, k, a) :: zip4 rpcs formats kwargs attrs
  | _, _, _, _ => []
  end.

(** [key.replace("_", "-")] on a key of a bundle. *)
Definition dashed_key (k : Value) : M string :=
  match k with
  | VStr k => ret (PyStr.replace_char "_" "-" k)
  | _ => raise (mkExc AttributeError "object has no attribute 'replace'")
  end.

(** [iteritems(kwarg)] *)
Definition iteritems (v : Value) : M (list (Value * Value)) :=
  match v with
  | VDict d => ret d
  | _ => raise (mkExc AttributeError "object has no attribute 'items'")
  end.

(** [sub_element.text = value] and [rpc.set(key, value)]: lxml takes a
    [str] (and [None] as a text). *)
Definition lxml_text (none_ok : bool) (v : Value) : M Value :=
  match v with
  | VStr _ => ret v
  | VNone => if none_ok then ret v
             else raise (mkExc TypeError "Argument must be bytes or unicode")
  | _ => raise (mkExc TypeError "Argument must be bytes or unicode")
  end.

(** The children added for [kwarg]. *)
Fixpoint sub_elements (items : list (Value * Value)) : M (list Value) :=
  match items with
  | [] => ret []
  | (key, value) :: rest =>
      key <- dashed_key key ;;
      text <- (match value with
               | VBool _ => ret VNone
               | _ => lxml_text true value
               end) ;;
      more <- sub_elements rest ;;
      ret (VElement key [] text [] :: more)
  end.

(** The attributes set for [attr]. *)
Fixpoint set_attributes (items : list (Value * Value))
         (attrib : list (string * Value)) : M (list (string * Value)) :=
  match items with
  | [] => ret attrib
  | (key, value) :: rest =>
      key <- dashed_key key ;;
      value <- lxml_text false value ;;
      set_attributes rest
        (filter (fun kv => negb (String.eqb (fst kv) key)) attrib
         ++ [(key, value)])%list
  end.

(** [attr["format"] = format] *)
Definition with_format (format : string) (attr : list (Value * Value))
  : list (Value * Value) := dict_set "format" (VStr format) attr.

(** [attr = {}] / [kwarg = {}] when [None]; the items of the dict otherwise.
    Anything else supports neither [attr["format"] = ...] nor [**kwarg]. *)
Definition dict_or_empty (v : Value) : M (list (Value * Value)) :=
  match v with
  | VNone => ret []
  | VDict d => ret d
  | _ => raise (mkExc TypeError "argument must be a mapping")
  end.

(** The element sent for an RPC other than get-config: [format] and the
    entries of [attr] as attributes, one child per entry of [kwarg]. *)
Definition build_rpc (rpc_string format : string) (kwarg attr : Value)
  : M Value :=
  children <- (match kwarg with
               | VNone => ret []
               | _ => items <- iteritems kwarg ;; sub_elements items
               end) ;;
  attrib <- (match attr with
             | VNone => ret [("format", VStr format)]
             | _ => items <- iteritems attr ;;
                    set_attributes items [("format", VStr format)]
             end) ;;
  ret (VElement rpc_string attrib VNone children).

(** What the [try] statement of the loop body leaves: the result appended
    by the [except] clause before [continue], or the variables [resp] and
    [result] for the rest of the body. *)
Inductive Tried : Type :=
| Failed (result : Result)
| Executed (resp : option Value) (result : Result).

(** The [except (ConnectError, RpcError)] clause, lines 579-593. *)
Definition rpc_failed (rpc : Value) (result : Result) (ex : Exc) : M Tried :=
  ret (Failed (set_msg ("Unable to execute the RPC: " ++ etree_tostring lib rpc
                        ++ ". Error: " ++ exc_str ex) result)).

(** The double quote, by its code. *)
Definition double_quote : string := String "034"%char "".

(** The message of line 539. *)
Definition get_config_executed : string :=
  "The " ++ double_quote ++ "get-config" ++ double_quote
  ++ " RPC executed successfully.".

(** The [try] statement of the loop body, lines 505-593.  [resp] is the
    variable of that name as the previous iterations left it: [None] while
    nothing was assigned to it. *)
Definition execute_rpc (ignore_warning : Value) (rpc_string format : string)
           (kwarg attr : Value) (resp : option Value) (result : Result)
  : M Tried :=
  let rpc := VElement rpc_string [("format", VStr format)] VNone [] in
  is_local <- get local ;;
  if String.eqb rpc_string "get-config" then
    (* [attr] and [result["attrs"]] are one dict when [attr] is a dict:
       [attr["format"] = format], line 516, is then seen in [result], by
       the [except] clause as well. *)
    let result :=
      match attr with
      | VDict d => set_attrs (VDict (with_format format d)) result
      | _ => result
      end in
    try_except
      (filter <- get (fun m => opt_value (p_filter (params m))) ;;
       attr <- dict_or_empty attr ;;
       kwarg <- dict_or_empty kwarg ;;
       let attr := with_format format attr in
       resp <-
         (if is_local then
            need_dev ;;
            call (RpcGetConfig filter (VDict attr) (VDict kwarg))
          else
            call (Broker "get_config" [filter; VDict attr; VDict kwarg])) ;;
       ret (Executed (Some resp) (set_msg get_config_executed result)))
      is_pyez_error
      (rpc_failed rpc result)
  else
    rpc <- build_rpc rpc_string format kwarg attr ;;
    try_except
      (resp <-
         (if is_local then
            need_dev ;;
            r <- call (RpcExecute rpc (String.eqb format "xml")) ;;
            ret (Some r)
          else
            try_except
              (r <- call (Broker "get_rpc_resp"
                            [rpc; ignore_warning; VStr format]) ;;
               ret (Some r))
              is_Exception
              (fun ex =>
                 if PyStr.str_in "RpcError" (exc_str ex) then
                   raise (mkExc RpcError "RpcError")
                 else if PyStr.str_in "ConnectError" (exc_str ex) then
                   raise (mkExc ConnectError "ConnectError")
                 else ret resp)) ;;
       ret (Executed resp (set_msg "The RPC executed successfully." result)))
      is_pyez_error
      (rpc_failed rpc result).

(** [resp] where it is read. *)
Definition bound (resp : option Value) : M Value :=
  match resp with
  | Some v => ret v
  | None => raise (mkExc UnboundLocalError
                     "local variable 'resp' referenced before assignment")
  end.

(** Lines 595-623: [text_output] and [parsed_output] for [resp] ([VNone]
    where they stay [None]), or the message of the failure recorded before
    [continue]. *)
Definition outputs (format : string) (resp : Value)
  : M (string + Value * Value) :=
  let by_format (text : M Value) :=
    if String.eqb format "text" then
      text_output <- text ;; ret (inr (text_output, VNone))
    else if String.eqb format "xml" then
      ret (inr (VStr (etree_tostring lib resp), jxmlease_parse_etree lib resp))
    else if String.eqb format "json" then
      ret (inr (VStr (py_str lib resp), resp))
    else ret (inl ("Unexpected format " ++ format ++ ".")) in
  match resp with
  | VBool true => ret (inr (VStr "", VNone))
  | VElement _ _ text _ => by_format (ret text)
  | VDict _ =>
      by_format
        (raise (mkExc AttributeError "'dict' object has no attribute 'text'"))
  | _ => ret (inl ("Unexpected response type " ++ type_name resp ++ "."))
  end.

Definition is_None (v : Value) : bool :=
  match v with VNone => true | _ => false end.

(** One iteration of the loop of [main], lines 490-637: the variable
    [resp] after it and the result appended to [results]. *)
Definition dispatch_one (ignore_warning : Value)
           (item : string * string * Value * Value) (resp : option Value)
  : M (option Value * Result) :=
  let '(rpc_string, format, kwarg, attr) := item in
  let rpc_string := PyStr.replace_char "_" "-" rpc_string in
  let result :=
    mkResult "" rpc_string format kwarg attr false true None None None in
  tried <- execute_rpc ignore_warning rpc_string format kwarg attr resp result ;;
  match tried with
  | Failed result => ret (resp, result)
  | Executed resp result =>
      r <- bound resp ;;
      out <- outputs format r ;;
      match out with
      | inl msg => ret (resp, set_msg msg result)
      | inr (text_output, parsed_output) =>
          return_output <- get (fun m => p_return_output (params m)) ;;
          let set_output (v : Value) (f : Value -> Value) :=
            if return_output && negb (is_None v) then Some (f v) else None in
          save_text_output rpc_string format text_output ;;
          ret (resp,
               mkResult (r_msg result) (r_rpc result) (r_format result)
                        (r_kwargs result) (r_attrs result) false false
                        (set_output text_output (fun v => v))
                        (set_output text_output (splitlines lib))
                        (set_output parsed_output (fun v => v)))
      end
  end.

(** The loop of [main]. *)
Fixpoint dispatch (ignore_warning : Value)
         (items : list (string * string * Value * Value))
         (resp : option Value) (results : list Result) : M (list Result) :=
  match items with
  | [] => ret results
  | item :: rest =>
      step <- dispatch_one ignore_warning item resp ;;
      let (resp, result) := step in
      dispatch ignore_warning rest resp (results ++ [result])%list
  end.

(** Lines 644-648: only failed if all commands failed. *)
Definition overall_failed (results : list Result) : bool :=
  negb (existsb (fun result => negb (r_failed result)) results).

(** Lines 639-649: the response. *)
Definition respond (results : list Result) : M unit :=
  match results with
  | [result] => exit_json (result_kwargs result)
  | _ =>
      exit_json [("results", VList (map result_value results));
                 ("changed", VBool false);
                 ("failed", VBool (overall_failed results))]
  end.

(** Lines 417-487 of [main]: the checks made before the loop, giving the
    parsed [ignore_warning] and the parallel lists the loop zips. *)
Definition validate
  : M (Value * (option (list string) * list string * list Value * list Value)) :=
  rpcs <- get (fun m => p_rpcs (params m)) ;;
  (when (is_none rpcs) then fail_json "The rpcs option must have a value.") ;;
  ignore_warning <- parse_ignore_warning_option ;;
  formats <- check_formats rpcs ;;
  kwstring <- get (fun m => p_kwargs (params m)) ;;
  kwargs <- check_bundle "kwargs" " " kwstring true rpcs ;;
  attrstring <- get (fun m => p_attrs (params m)) ;;
  attrs <- check_bundle "attrs" "" attrstring false rpcs ;;
  filter <- get (fun m => p_filter (params m)) ;;
  (match filter with
   | Some _ =>
       n <- len_rpcs rpcs ;;
       when (negb (n =? 1)%nat
             || match rpcs with
                | Some (rpc0 :: _) =>
                    negb (String.eqb rpc0 "get-config")
                    && negb (String.eqb rpc0 "get_config")
                | _ => false
                end) then
         fail_json ("The filter option is only valid "
                    ++ "when the rpcs option value is a "
                    ++ "single 'get-config' RPC.")
   | None => ret tt
   end) ;;
  ret (ignore_warning, (rpcs, formats, kwargs, attrs)).

(** [main] of modules/rpc.py, from "Check over rpcs" on; the module object
    is the one its constructor made. *)
Definition main : M unit :=
  checked <- validate ;;
  let '(ignore_warning, (rpcs, formats, kwargs, attrs)) := checked in
  rpcs <- (match rpcs with
           | Some l => ret l
           | None => raise (mkExc TypeError "zip argument #1 must support iteration")
           end) ;;
  results <- dispatch ignore_warning (zip4 rpcs formats kwargs attrs) None [] ;;
  respond results.

(** * Properties *)

(** Running a method on a module object: unfold the monad and the tests on
    constant strings, and rewrite with what is known of the object. *)
Ltac run_step :=
  cbv beta iota delta
    [bind get ret raise try_except call_ call modify
     str_mem existsb String.eqb Ascii.eqb Bool.eqb orb andb negb
     is_some is_none fst snd].

Ltac run_with rw := repeat (run_step; rw).

(** The same, leaving the tests on strings as they are. *)
Ltac monad_step :=
  cbv beta iota delta [bind get ret raise try_except call_ call modify fst snd].

Ltac monad_with rw := repeat (monad_step; rw).

(** ** Strings *)

Lemma prefix_app a b : prefix a (a ++ b) = true.
Proof.
  induction a as [|c a IH]; simpl.
  - destruct b; reflexivity.
  - destruct (ascii_dec c c) as [_|N]; [exact IH | contradiction].
Qed.

Lemma str_in_here a b : PyStr.str_in a (a ++ b) = true.
Proof.
  pose proof (prefix_app a b) as H.
  destruct (a ++ b); cbn [PyStr.str_in]; rewrite H; reflexivity.
Qed.

Lemma str_in_app_r a p s :
  PyStr.str_in a s = true -> PyStr.str_in a (p ++ s) = true.
Proof.
  intros H. induction p as [|c p IH]; [exact H |].
  change (String c p ++ s) with (String c (p ++ s)).
  cbn [PyStr.str_in]. rewrite IH.
  destruct (prefix a (String c (p ++ s))); reflexivity.
Qed.

Lemma str_in_self a : PyStr.str_in a a = true.
Proof.
  assert (H : prefix a a = true).
  { induction a as [|c a IH]; simpl; [reflexivity |].
    destruct (ascii_dec c c) as [_|N]; [exact IH | contradiction]. }
  destruct a; cbn [PyStr.str_in]; rewrite H; reflexivity.
Qed.

(** The text [a] occurs in any message built around it. *)
Lemma str_in_middle a p q : PyStr.str_in a (p ++ a ++ q) = true.
Proof. apply str_in_app_r, str_in_here. Qed.

(** ** The calls a method makes *)

(** Every call [c] makes belongs to [P]: the trace only grows, by calls
    in [P]. *)
Definition emits {A} (P : Call -> Prop) (c : M A) : Prop :=
  forall m, exists evs,
    trace (snd (c m)) = (trace m ++ evs)%list /\ Forall P evs.

Lemma emits_ret {A} P (a : A) : emits P (ret a).
Proof. intros m. exists []. simpl. rewrite app_nil_r. auto. Qed.

Lemma emits_raise {A} P e : emits P (@raise A e).
Proof. intros m. exists []. simpl. rewrite app_nil_r. auto. Qed.

Lemma emits_get {A} P (f : Module -> A) : emits P (get f).
Proof. intros m. exists []. simpl. rewrite app_nil_r. auto. Qed.

Lemma emits_modify P f :
  (forall m, trace (f m) = trace m) -> emits P (modify f).
Proof. intros Hf m. exists []. simpl. rewrite Hf, app_nil_r. auto. Qed.

Lemma emits_call P c : P c -> emits P (call c).
Proof.
  intros Hc m. exists [c]. unfold call.
  destruct (env (trace m) c); simpl; auto.
Qed.

Lemma emits_bind {A B} P (c : M A) (k : A -> M B) :
  emits P c -> (forall a, emits P (k a)) -> emits P (bind c k).
Proof.
  intros Hc Hk m. unfold bind.
  destruct (Hc m) as [evs [Ht Hevs]].
  destruct (c m) as [[a|e] m1]; simpl in *.
  - destruct (Hk a m1) as [evs' [Ht' Hevs']].
    exists (evs ++ evs')%list. rewrite Ht', Ht, app_assoc.
    split; [reflexivity | apply Forall_app; auto].
  - exists evs. auto.
Qed.

Lemma emits_try {A} P (body : M A) catches handler :
  emits P body -> (forall e, emits P (handler e)) ->
  emits P (try_except body catches handler).
Proof.
  intros Hb Hh m. unfold try_except.
  destruct (Hb m) as [evs [Ht Hevs]].
  destruct (body m) as [[a|e] m1]; simpl in *.
  - exists evs. auto.
  - destruct (catches e).
    + destruct (Hh e m1) as [evs' [Ht' Hevs']].
      exists (evs ++ evs')%list. rewrite Ht', Ht, app_assoc.
      split; [reflexivity | apply Forall_app; auto].
    + exists evs. auto.
Qed.

Lemma emits_call_ P c : P c -> emits P (call_ c).
Proof.
  intros Hc. apply emits_bind; [apply emits_call; exact Hc |].
  intros _. apply emits_ret.
Qed.

Lemma emits_if {A} P (b : bool) (c1 c2 : M A) :
  emits P c1 -> emits P c2 -> emits P (if b then c1 else c2).
Proof. destruct b; auto. Qed.

Lemma trace_set_dev d m : trace (set_dev d m) = trace m.
Proof. reflexivity. Qed.

Lemma trace_set_config c m : trace (set_config c m) = trace m.
Proof. reflexivity. Qed.

(** The calls of the termination path: what [fail_json] does before it
    reports. *)
Inductive cleanup_call : Call -> Prop :=
| cleanup_broker : cleanup_call (Broker "close_configuration" [])
| cleanup_unlock : cleanup_call ConfigUnlock
| cleanup_rpc_close : cleanup_call RpcCloseConfiguration
| cleanup_dev_close : cleanup_call DeviceClose.

(** A failure report: [AnsibleModule.fail_json(msg=...)]. *)
Inductive report_call : Call -> Prop :=
| report_fail msg : report_call (AnsibleFailJson (msg_kwargs msg)).

Definition failure_call (c : Call) : Prop := cleanup_call c \/ report_call c.

Lemma emits_close P b : P DeviceClose -> emits P (close b).
Proof.
  intros HP. unfold close.
  apply emits_bind; [apply emits_get |]. intros d.
  apply emits_if; [| apply emits_ret].
  apply emits_try.
  - apply emits_bind; [apply emits_modify, trace_set_dev |].
    intros _. apply emits_call_, HP.
  - intros e. destruct b; [apply emits_raise | apply emits_ret].
Qed.

Lemma emits_close_configuration_with P fj :
  (forall c, cleanup_call c -> P c) ->
  (forall msg, emits P (fj msg)) ->
  emits P (close_configuration_with fj).
Proof.
  intros HP Hfail. unfold close_configuration_with.
  apply emits_bind; [apply emits_get |]. intros is_local.
  apply emits_if.
  - apply emits_call_, HP. constructor.
  - apply emits_bind; [apply emits_get |]. intros [c|]; [| apply emits_ret].
    apply emits_bind; [apply emits_modify, trace_set_config |]. intros _.
    apply emits_try; [| intros e; apply Hfail].
    repeat apply emits_if; try apply emits_ret.
    + apply emits_call_, HP; constructor.
    + apply emits_bind.
      * unfold need_dev. apply emits_bind; [apply emits_get |].
        intros [d|]; [apply emits_ret | apply emits_raise].
      * intros _. apply emits_call_, HP; constructor.
Qed.

Lemma emits_fail_json_depth P d msg :
  (forall c, failure_call c -> P c) ->
  emits P (fail_json_depth d msg).
Proof.
  intros HP. revert msg.
  induction d as [|d IH]; intros msg; simpl.
  - apply emits_raise.
  - apply emits_bind.
    + apply emits_close_configuration_with; [| exact IH].
      intros c Hc. apply HP. left. exact Hc.
    + intros _. apply emits_bind.
      * apply emits_try; [| intros; apply emits_ret].
        apply emits_close. apply HP. left. constructor.
      * intros _. apply emits_call_. apply HP. right. constructor.
Qed.

Lemma emits_fail_json P msg :
  (forall c, failure_call c -> P c) -> emits P (fail_json msg).
Proof. apply emits_fail_json_depth. Qed.

Lemma emits_close_configuration P :
  (forall c, failure_call c -> P c) -> emits P close_configuration.
Proof.
  intros HP. apply emits_close_configuration_with.
  - intros c Hc. apply HP. left. exact Hc.
  - intros msg. apply emits_fail_json_depth, HP.
Qed.

(** ** What a method leaves unchanged *)

(** [c] keeps the property [I] of the module object. *)
Definition keeps {A} (I : Module -> Prop) (c : M A) : Prop :=
  forall m, I m -> I (snd (c m)).

(** [I] does not depend on the trace. *)
Definition untraced (I : Module -> Prop) : Prop :=
  forall c m, I m -> I (log_call c m).

Lemma keeps_ret {A} I (a : A) : keeps I (ret a).
Proof. intros m H. exact H. Qed.

Lemma keeps_raise {A} I e : keeps I (@raise A e).
Proof. intros m H. exact H. Qed.

Lemma keeps_get {A} I (f : Module -> A) : keeps I (get f).
Proof. intros m H. exact H. Qed.

Lemma keeps_modify (I : Module -> Prop) f :
  (forall m, I m -> I (f m)) -> keeps I (modify f).
Proof. intros Hf m H. apply Hf, H. Qed.

Lemma keeps_call I c : untraced I -> keeps I (call c).
Proof.
  intros HI m H. unfold call.
  destruct (env (trace m) c); simpl; apply HI, H.
Qed.

Lemma keeps_bind {A B} I (c : M A) (k : A -> M B) :
  keeps I c -> (forall a, keeps I (k a)) -> keeps I (bind c k).
Proof.
  intros Hc Hk m H. unfold bind.
  specialize (Hc m H). destruct (c m) as [[a|e] m1]; simpl in *.
  - apply Hk, Hc.
  - exact Hc.
Qed.

Lemma keeps_try {A} I (body : M A) catches handler :
  keeps I body -> (forall e, keeps I (handler e)) ->
  keeps I (try_except body catches handler).
Proof.
  intros Hb Hh m H. unfold try_except.
  specialize (Hb m H). destruct (body m) as [[a|e] m1]; simpl in *.
  - exact Hb.
  - destruct (catches e); [apply Hh, Hb | exact Hb].
Qed.

Lemma keeps_call_ I c : untraced I -> keeps I (call_ c).
Proof.
  intros HI. apply keeps_bind; [apply keeps_call, HI |].
  intros _. apply keeps_ret.
Qed.

Lemma keeps_if {A} I (b : bool) (c1 c2 : M A) :
  keeps I c1 -> keeps I c2 -> keeps I (if b then c1 else c2).
Proof. destruct b; auto. Qed.

(** Two continuations that agree where the first part ends. *)
Lemma bind_ext_at {A B} (c : M A) (k1 k2 : A -> M B) m :
  (forall a m1, c m = (Ret a, m1) -> k1 a m1 = k2 a m1) ->
  bind c k1 m = bind c k2 m.
Proof.
  intros H. unfold bind. destruct (c m) as [[a|e] m1]; auto.
Qed.

Lemma try_ext_at {A} (body : M A) catches (h1 h2 : Exc -> M A) m :
  (forall e m1, body m = (Raise e, m1) -> h1 e m1 = h2 e m1) ->
  try_except body catches h1 m = try_except body catches h2 m.
Proof.
  intros H. unfold try_except. destruct (body m) as [[a|e] m1]; auto.
  destruct (catches e); auto.
Qed.

(** The session is closed: a local connection with no stored session. *)
Definition session_closed (m : Module) : Prop :=
  local m = true /\ config m = None.

Lemma session_closed_untraced : untraced session_closed.
Proof. intros c m H. exact H. Qed.

(** The teardown of [close_configuration], lines 1320-1323. *)
Lemma keeps_teardown I (c : Config) :
  untraced I ->
  keeps I (if String.eqb (mode c) "exclusive" then call_ ConfigUnlock
           else if str_mem (mode c) ["batch"; "dynamic"; "private"; "ephemeral"]
                then need_dev ;; call_ RpcCloseConfiguration
                else ret tt).
Proof.
  intros HI. repeat apply keeps_if; try apply keeps_ret.
  - apply keeps_call_, HI.
  - apply keeps_bind.
    + unfold need_dev. apply keeps_bind; [apply keeps_get |].
      intros [d|]; [apply keeps_ret | apply keeps_raise].
    + intros _. apply keeps_call_, HI.
Qed.

Lemma keeps_close I b :
  untraced I -> (forall m, I m -> I (set_dev None m)) -> keeps I (close b).
Proof.
  intros HI Hdev. unfold close.
  apply keeps_bind; [apply keeps_get |]. intros d.
  apply keeps_if; [| apply keeps_ret].
  apply keeps_try.
  - apply keeps_bind; [apply keeps_modify, Hdev |].
    intros _. apply keeps_call_, HI.
  - intros e. destruct b; [apply keeps_raise | apply keeps_ret].
Qed.

(** ** The recursion between [fail_json] and [close_configuration] *)

Lemma close_configuration_with_closed f g m :
  local m = false \/ config m = None ->
  close_configuration_with f m = close_configuration_with g m.
Proof.
  intros H. unfold close_configuration_with, bind, get.
  destruct (local m); simpl; [| reflexivity].
  destruct H as [H|H]; [discriminate |]. rewrite H. reflexivity.
Qed.

Lemma fail_json_depth_closed d msg m :
  local m = false \/ config m = None ->
  fail_json_depth (S d) msg m = fail_json_depth 1 msg m.
Proof.
  intros H. simpl. unfold bind at 1.
  rewrite (close_configuration_with_closed (fail_json_depth d)
             (fail_json_depth 0) m H).
  reflexivity.
Qed.

Lemma close_configuration_with_depth d m :
  close_configuration_with (fail_json_depth (S d)) m
  = close_configuration_with (fail_json_depth 1) m.
Proof.
  unfold close_configuration_with.
  apply bind_ext_at. intros is_local m1 _.
  destruct (negb is_local); [reflexivity |].
  apply bind_ext_at. intros [c|] m2 _; [| reflexivity].
  apply bind_ext_at. intros [] m3 Hm3.
  apply try_ext_at. intros e m4 Hbody.
  apply fail_json_depth_closed. right.
  assert (H3 : config m3 = None) by (inversion Hm3; reflexivity).
  pose proof (@keeps_teardown (fun m => config m = None) c
                (fun _ _ H => H) m3 H3) as Hk.
  rewrite Hbody in Hk. exact Hk.
Qed.

(** Two levels are all the recursion ever takes: whatever is left of the
    recursion limit, [fail_json] does what it does with two levels. *)
Lemma fail_json_depth_stable d msg m :
  fail_json_depth (S (S d)) msg m = fail_json_depth 2 msg m.
Proof.
  change (fail_json_depth (S (S d)) msg)
    with (close_configuration_with (fail_json_depth (S d)) ;;
          try_except (close false) is_timeout_expired (fun _ => ret tt) ;;
          call_ (AnsibleFailJson (msg_kwargs msg))).
  change (fail_json_depth 2 msg)
    with (close_configuration_with (fail_json_depth 1) ;;
          try_except (close false) is_timeout_expired (fun _ => ret tt) ;;
          call_ (AnsibleFailJson (msg_kwargs msg))).
  unfold bind at 1 3. rewrite close_configuration_with_depth. reflexivity.
Qed.

Lemma fail_json_unfold msg m :
  fail_json msg m = fail_json_depth 2 msg m.
Proof.
  unfold fail_json, recursion_limit.
  change 1000%nat with (S (S 998)). apply fail_json_depth_stable.
Qed.

Lemma close_configuration_unfold m :
  close_configuration m = close_configuration_with (fail_json_depth 1) m.
Proof.
  unfold close_configuration, recursion_limit.
  change (pred 1000) with (S 998). apply close_configuration_with_depth.
Qed.

(** [I] survives the assignments to [self.dev] and [self.config]. *)
Record stable (I : Module -> Prop) : Prop := mkStable {
  stable_trace : untraced I;
  stable_dev : forall d m, I m -> I (set_dev d m);
  stable_close : forall m, I m -> I (set_config None m)
}.

Lemma keeps_close_configuration_with I fj :
  stable I -> (forall msg, keeps I (fj msg)) ->
  keeps I (close_configuration_with fj).
Proof.
  intros [Ht Hd Hc] Hfj. unfold close_configuration_with.
  apply keeps_bind; [apply keeps_get |]. intros is_local.
  apply keeps_if; [apply keeps_call_, Ht |].
  apply keeps_bind; [apply keeps_get |]. intros [c|]; [| apply keeps_ret].
  apply keeps_bind; [apply keeps_modify, Hc |]. intros _.
  apply keeps_try; [apply keeps_teardown, Ht | intros e; apply Hfj].
Qed.

Lemma keeps_fail_json_depth I d msg :
  stable I -> keeps I (fail_json_depth d msg).
Proof.
  intros HI. revert msg. induction d as [|d IH]; intros msg; simpl.
  - apply keeps_raise.
  - apply keeps_bind; [apply keeps_close_configuration_with; assumption |].
    intros _. apply keeps_bind.
    + apply keeps_try; [| intros; apply keeps_ret].
      apply keeps_close; [apply HI | apply (stable_dev HI)].
    + intros _. apply keeps_call_, HI.
Qed.

Lemma keeps_fail_json I msg : stable I -> keeps I (fail_json msg).
Proof. apply keeps_fail_json_depth. Qed.

Lemma keeps_open I : stable I -> keeps I open.
Proof.
  intros HI. unfold open. apply keeps_try.
  - apply keeps_bind; [apply keeps_get |]. intros t.
    apply keeps_bind; [apply keeps_modify, (stable_dev HI) |]. intros _.
    apply keeps_bind; [apply keeps_call_, HI |]. intros _.
    apply keeps_modify, (stable_dev HI).
  - intros e. apply keeps_fail_json, HI.
Qed.

Lemma stable_session_closed : stable session_closed.
Proof.
  split.
  - exact session_closed_untraced.
  - intros d m H. exact H.
  - intros m [Hl _]. split; [exact Hl | reflexivity].
Qed.

Lemma stable_local : stable (fun m => local m = true).
Proof.
  split.
  - intros c m H. exact H.
  - intros d m H. exact H.
  - intros m H. exact H.
Qed.

(** Whatever [close_configuration] meets on a local connection, it leaves
    the session closed. *)
Lemma close_configuration_with_closes fj m :
  local m = true -> (forall msg, keeps session_closed (fj msg)) ->
  session_closed (snd (close_configuration_with fj m)).
Proof.
  intros Hl Hfj. unfold close_configuration_with, bind at 1, get.
  rewrite Hl. simpl. unfold bind at 1.
  destruct (config m) as [c|] eqn:Hc; simpl.
  - unfold bind, modify.
    apply keeps_try.
    + apply keeps_teardown, session_closed_untraced.
    + intros e. apply Hfj.
    + split; [exact Hl | reflexivity].
  - split; assumption.
Qed.

(** C2, as amended: on a local connection, [close_configuration] without
    an open session does nothing at all (it returns, and the module object,
    trace included, is the one it was given); and whatever a first
    [close_configuration] met, a failing teardown included, the stored
    session is [None] after it and a second call does nothing. *)
Theorem close_configuration_local_idempotent m :
  local m = true ->
  (config m = None -> close_configuration m = (Ret tt, m)) /\
  (let m1 := snd (close_configuration m) in
   config m1 = None /\ close_configuration m1 = (Ret tt, m1)).
Proof.
  intros Hl.
  assert (Hnoop : forall m0, session_closed m0 ->
                             close_configuration m0 = (Ret tt, m0)).
  { intros m0 [Hl0 Hc0]. rewrite close_configuration_unfold.
    unfold close_configuration_with, bind, get. rewrite Hl0. simpl.
    rewrite Hc0. reflexivity. }
  split.
  - intros Hc. apply Hnoop. split; assumption.
  - assert (Hclosed : session_closed (snd (close_configuration m))).
    { rewrite close_configuration_unfold.
      apply close_configuration_with_closes; [exact Hl |].
      intros msg. apply keeps_fail_json_depth, stable_session_closed. }
    simpl. split; [apply Hclosed | apply Hnoop, Hclosed].
Qed.

(** A stored session belongs to a local connection: the delegated path
    never assigns [self.config]. *)
Definition stored_session_local (m : Module) : Prop :=
  is_some (config m) = true -> local m = true.

Lemma keeps_open_configuration_local mode0 iw inst :
  keeps (fun m => local m = true) (open_configuration mode0 iw inst).
Proof.
  pose proof stable_local as HI.
  unfold open_configuration.
  apply keeps_bind; [apply keeps_get |]. intros is_local.
  apply keeps_if; [apply keeps_call_, HI |].
  apply keeps_bind; [apply keeps_get |]. intros c.
  apply keeps_if; [| apply keeps_ret].
  apply keeps_bind.
  { apply keeps_if; [apply keeps_fail_json, HI | apply keeps_ret]. }
  intros _. apply keeps_bind.
  { apply keeps_if; [apply keeps_fail_json, HI | apply keeps_ret]. }
  intros _. apply keeps_bind; [apply keeps_get |]. intros d.
  apply keeps_bind.
  { apply keeps_if; [apply keeps_open, HI | apply keeps_ret]. }
  intros _. apply keeps_bind.
  - apply keeps_try; [| intros e; apply keeps_fail_json, HI].
    assert (Hrpc : forall flag arg,
               keeps (fun m => local m = true)
                     (need_dev ;;
                      call_ (RpcOpenConfiguration flag arg (ignore_warn_of iw)))).
    { intros flag arg. apply keeps_bind.
      - unfold need_dev. apply keeps_bind; [apply keeps_get |].
        intros [dv|]; [apply keeps_ret | apply keeps_raise].
      - intros _. apply keeps_call_, HI. }
    repeat apply keeps_if; try apply keeps_ret; try apply Hrpc.
    + apply keeps_call_, HI.
    + destruct inst; apply Hrpc.
  - intros _. apply keeps_modify. intros m H. exact H.
Qed.

(** [open_configuration] keeps the invariant; the constructor's state,
    with [self.config = None], has it. *)
Lemma open_configuration_stored_session_local mode0 iw inst :
  keeps stored_session_local (open_configuration mode0 iw inst).
Proof.
  intros m Hinv. destruct (local m) eqn:Hl.
  - intros _. apply keeps_open_configuration_local. exact Hl.
  - unfold open_configuration, bind at 1, get. rewrite Hl. simpl.
    unfold call_, bind, call.
    destruct (env (trace m) _); simpl; exact Hinv.
Qed.

(** C10: with a session already open, [open_configuration] checks nothing
    and does nothing, whatever the mode and the ephemeral instance are: it
    returns, no failure is reported and no call is made (the module object
    and its trace are unchanged). *)
Theorem open_configuration_open_session_noop mode0 iw inst m :
  stored_session_local m ->
  is_some (config m) = true ->
  open_configuration mode0 iw inst m = (Ret tt, m).
Proof.
  intros Hinv Hopen. pose proof (Hinv Hopen) as Hl.
  unfold open_configuration, bind, get. rewrite Hl. simpl.
  unfold is_none. rewrite Hopen. reflexivity.
Qed.

Lemma emits_open P :
  P DeviceOpen -> (forall c, failure_call c -> P c) -> emits P open.
Proof.
  intros Hopen HP. unfold open. apply emits_try.
  - apply emits_bind; [apply emits_get |]. intros t.
    apply emits_bind; [apply emits_modify, trace_set_dev |]. intros _.
    apply emits_bind; [apply emits_call_, Hopen |]. intros _.
    apply emits_modify, trace_set_dev.
  - intros e. apply emits_fail_json, HP.
Qed.

Lemma emits_need_dev P : emits P need_dev.
Proof.
  unfold need_dev. apply emits_bind; [apply emits_get |].
  intros [d|]; [apply emits_ret | apply emits_raise].
Qed.

Lemma emits_need_config P : emits P need_config.
Proof.
  unfold need_config. apply emits_bind; [apply emits_get |].
  intros [c|]; [apply emits_ret | apply emits_raise].
Qed.

(** An open-configuration call, if [c] is one, carries the filter [w]. *)
Definition carries (w : Value) (c : Call) : Prop :=
  forall flag arg w', c = RpcOpenConfiguration flag arg w' -> w' = w.

Lemma failure_call_carries w c : failure_call c -> carries w c.
Proof.
  intros [H|H] flag arg w' E; subst c; inversion H.
Qed.

Lemma emits_open_configuration_carries mode0 iw inst :
  emits (carries (ignore_warn_of iw)) (open_configuration mode0 iw inst).
Proof.
  set (P := carries (ignore_warn_of iw)).
  assert (HP : forall c, failure_call c -> P c)
    by (intros c; apply failure_call_carries).
  assert (Hother : forall c, (forall f a w, c <> RpcOpenConfiguration f a w) -> P c).
  { intros c Hc f a w E. exfalso. exact (Hc f a w E). }
  unfold open_configuration.
  apply emits_bind; [apply emits_get |]. intros is_local.
  apply emits_if; [apply emits_call_, Hother; discriminate |].
  apply emits_bind; [apply emits_get |]. intros c.
  apply emits_if; [| apply emits_ret].
  apply emits_bind.
  { apply emits_if; [apply emits_fail_json, HP | apply emits_ret]. }
  intros _. apply emits_bind.
  { apply emits_if; [apply emits_fail_json, HP | apply emits_ret]. }
  intros _. apply emits_bind; [apply emits_get |]. intros d.
  apply emits_bind.
  { apply emits_if; [| apply emits_ret].
    apply emits_open; [apply Hother; discriminate | exact HP]. }
  intros _. apply emits_bind.
  - apply emits_try; [| intros e; apply emits_fail_json, HP].
    assert (Hrpc : forall flag arg,
               emits P (need_dev ;;
                        call_ (RpcOpenConfiguration flag arg (ignore_warn_of iw)))).
    { intros flag arg. apply emits_bind; [apply emits_need_dev |].
      intros _. apply emits_call_. intros f a w E. inversion E. reflexivity. }
    repeat apply emits_if; try apply emits_ret; try apply Hrpc.
    + apply emits_call_, Hother. discriminate.
    + destruct inst; apply Hrpc.
  - intros _. apply emits_modify, trace_set_config.
Qed.

(** The modes opened by an open-configuration RPC. *)
Definition rpc_modes : list string := ["private"; "dynamic"; "batch"; "ephemeral"].

(** C7, as amended: every open-configuration RPC that [open_configuration]
    sends carries the filter [ignore_warn_of ignore_warning]; with the
    device open, no session stored and a mode other than exclusive, the
    RPC is the first call made.  That filter is the list of the built-in
    text followed by the caller's string, or strings, when the caller gives
    a [str], a list, or nothing; when the caller gives a [bool] it is that
    [bool], and no list. *)
Theorem open_configuration_ignore_warning mode0 iw inst m :
  (exists evs,
      trace (snd (open_configuration mode0 iw inst m)) = (trace m ++ evs)%list
      /\ Forall (carries (ignore_warn_of iw)) evs)
  /\ (local m = true -> config m = None -> is_some (dev m) = true ->
      In mode0 rpc_modes ->
      (mode0 <> "ephemeral" -> inst = None) ->
      exists flag arg rest,
        trace (snd (open_configuration mode0 iw inst m))
        = (trace m ++ RpcOpenConfiguration flag arg (ignore_warn_of iw) :: rest)%list)
  /\ (iw = VNone -> ignore_warn_of iw = VList [VStr builtin_warning])
  /\ (forall s, iw = VStr s ->
                ignore_warn_of iw = VList [VStr builtin_warning; VStr s])
  /\ (forall l, iw = VList l ->
                ignore_warn_of iw = VList (VStr builtin_warning :: l))
  /\ (forall b, iw = VBool b -> ignore_warn_of iw = VBool b).
Proof.
  split; [apply emits_open_configuration_carries |].
  split; [| repeat split; intros; subst; reflexivity].
  intros Hl Hc Hd Hmode Hinst.
  destruct (dev m) as [d|] eqn:Hdev; [clear Hd | discriminate].
  unfold open_configuration, rpc_modes in *. simpl in Hmode.
  destruct Hmode as [E|[E|[E|[E|[]]]]]; subst mode0.
  1-3: rewrite (Hinst ltac:(discriminate)).
  4: destruct inst as [i|].
  all: run_with ltac:(unfold CONFIG_MODE_CHOICES, need_dev;
                      rewrite ?Hl, ?Hc, ?Hdev);
       match goal with
       | |- context [env ?t ?c] =>
           destruct (env t c) as [v|e];
           [ eexists _, _, []; reflexivity |];
           destruct (is_pyez_error e);
           [| eexists _, _, []; reflexivity];
           match goal with
           | |- context [fail_json ?msg ?st] =>
               destruct (@emits_fail_json (fun _ => True) msg (fun _ _ => I) st)
                 as [evs [Ht _]];
               destruct (fail_json msg st) as [[[]|e'] m']; simpl in Ht |- *;
               eexists _, _, evs; rewrite Ht, <- app_assoc; reflexivity
           end
       end.
Qed.


(** After a first call [c], whatever [fail_json] adds comes behind it. *)
Ltac after_call :=
  match goal with
  | |- context [env ?t ?c] =>
      destruct (env t c) as [v|e];
      [ eexists; rewrite ?app_nil_r; reflexivity |];
      destruct (is_pyez_error e);
      [| eexists; rewrite ?app_nil_r; reflexivity];
      match goal with
      | |- context [fail_json ?msg ?st] =>
          destruct (@emits_fail_json (fun _ => True) msg (fun _ _ => I) st)
            as [evs [Ht _]];
          destruct (fail_json msg st) as [[[]|e'] m']; simpl in Ht |- *;
          exists evs; rewrite Ht, <- app_assoc; reflexivity
      end
  end.




(** C8, as amended: on a local connection with device and session open,
    the first call of [commit_configuration] is the commit, and the
    timeout it is given is the device's own ([self.dev.timeout], the
    connection's RPC timeout) whenever that is not zero, whatever the
    caller supplied; the caller's value (30 when left out) is passed only
    when the device's timeout is zero. *)
Theorem commit_configuration_timeout iw comment confirmed timeout
        full sync force_sync m d c :
  local m = true -> dev m = Some d -> config m = Some c ->
  exists used rest,
    trace (snd (commit_configuration iw comment confirmed timeout
                  full sync force_sync m))
    = (trace m ++ ConfigCommit iw comment confirmed used full force_sync sync
               :: rest)%list
    /\ (dev_timeout d <> 0%Z -> used = dev_timeout d)
    /\ (dev_timeout d = 0%Z -> used = timeout).
Proof.
  intros Hl Hd Hc.
  exists (if (dev_timeout d =? 0)%Z then timeout else dev_timeout d).
  assert (Hused : (dev_timeout d <> 0%Z ->
                   (if (dev_timeout d =? 0)%Z then timeout else dev_timeout d)
                   = dev_timeout d)
                  /\ (dev_timeout d = 0%Z ->
                      (if (dev_timeout d =? 0)%Z then timeout else dev_timeout d)
                      = timeout)).
  { destruct (Z.eqb_spec (dev_timeout d) 0); split; intros; congruence. }
  cut (exists rest,
          trace (snd (commit_configuration iw comment confirmed timeout
                        full sync force_sync m))
          = (trace m ++ ConfigCommit iw comment confirmed
                     (if (dev_timeout d =? 0)%Z then timeout else dev_timeout d)
                     full force_sync sync :: rest)%list).
  { intros [rest H]. exists rest. split; [exact H | exact Hused]. }
  unfold commit_configuration.
  run_with ltac:(unfold need_config; rewrite ?Hl, ?Hd, ?Hc).
  after_call.
Qed.

(** ** Checksums *)

(** The call by which [remote_md5] asks for the checksum. *)
Definition checksum_query (m : Module) (remote_file : string) : Call :=
  if local m then RpcGetChecksumInformation remote_file
  else Broker "get_checksum_information" [VStr remote_file].

(** The device is there to ask: open locally, or reached by the broker. *)
Definition reachable (m : Module) : Prop :=
  local m = false \/ is_some (dev m) = true.

(** The error is the one the handler of [remote_md5] looks for. *)
Definition remote_file_not_found (e : Exc) : bool :=
  is_Exception e && PyStr.str_in "No such file or directory" (exc_str e).

(** The error is the one the handler of [local_md5] looks for. *)
Definition local_file_not_found (e : Exc) : bool :=
  is_Exception e && PyStr.str_in "No such file" (exc_str e).

Lemma remote_md5_throws file action m e :
  reachable m ->
  env (trace m) (checksum_query m file) = Throws e ->
  remote_md5 file action m
  = (if remote_file_not_found e && String.eqb action "put"
     then Ret "no_file" else Raise e,
     log_call (checksum_query m file) m).
Proof.
  unfold reachable, checksum_query, remote_file_not_found, remote_md5, need_dev.
  intros Hreach Hreply.
  destruct (local m) eqn:Hl.
  - destruct Hreach as [H|H]; [discriminate |].
    destruct (dev m) as [d|] eqn:Hd; [| discriminate].
    monad_with ltac:(rewrite ?Hl, ?Hd, ?Hreply).
    destruct (is_Exception e); [| reflexivity].
    destruct (PyStr.str_in _ (exc_str e)); [| reflexivity].
    destruct (String.eqb action "put"); reflexivity.
  - monad_with ltac:(rewrite ?Hl, ?Hreply).
    destruct (is_Exception e); [| reflexivity].
    destruct (PyStr.str_in _ (exc_str e)); [| reflexivity].
    destruct (String.eqb action "put"); reflexivity.
Qed.

Lemma local_md5_throws file action m e :
  env (trace m) (HashLocalFile file) = Throws e ->
  local_md5 file action m
  = (if local_file_not_found e && String.eqb action "get"
     then Ret "no_file" else Raise e,
     log_call (HashLocalFile file) m).
Proof.
  unfold local_file_not_found, local_md5. intros Hreply.
  monad_with ltac:(rewrite ?Hreply).
  destruct (is_Exception e); [| reflexivity].
  destruct (PyStr.str_in _ (exc_str e)); [| reflexivity].
  destruct (String.eqb action "get"); reflexivity.
Qed.

(** C6: when the checksum query fails with error [e], [remote_md5] gives
    the sentinel ["no_file"] if [e] is a file-not-found error and the
    action is ["put"], and raises [e] itself in every other case: another
    error, or another action.  [local_md5] does the same for a failure of
    reading the local file, with the action ["get"]. *)
Theorem md5_no_file_sentinel file action m e :
  (reachable m ->
   env (trace m) (checksum_query m file) = Throws e ->
   (remote_file_not_found e = true -> action = "put" ->
      remote_md5 file action m
      = (Ret "no_file", log_call (checksum_query m file) m))
   /\ (remote_file_not_found e = false \/ action <> "put" ->
      remote_md5 file action m
      = (Raise e, log_call (checksum_query m file) m)))
  /\ (env (trace m) (HashLocalFile file) = Throws e ->
      (local_file_not_found e = true -> action = "get" ->
         local_md5 file action m
         = (Ret "no_file", log_call (HashLocalFile file) m))
      /\ (local_file_not_found e = false \/ action <> "get" ->
         local_md5 file action m
         = (Raise e, log_call (HashLocalFile file) m))).
Proof.
  split.
  - intros Hreach Hreply. rewrite (remote_md5_throws _ _ Hreach Hreply).
    split.
    + intros -> ->. reflexivity.
    + intros [->|Hne]; [reflexivity |].
      apply String.eqb_neq in Hne. rewrite Hne, andb_false_r. reflexivity.
  - intros Hreply. rewrite (local_md5_throws _ _ Hreply).
    split.
    + intros -> ->. reflexivity.
    + intros [->|Hne]; [reflexivity |].
      apply String.eqb_neq in Hne. rewrite Hne, andb_false_r. reflexivity.
Qed.

(** ** Checksum-verified transfers *)

Lemma local_md5_run package action m o m1 :
  local_md5 package action m = (o, m1) ->
  m1 = log_call (HashLocalFile package) m.
Proof.
  unfold local_md5, hexdigest_str. monad_step.
  destruct (env (trace m) (HashLocalFile package)) as [v|e].
  - destruct v; intros H; inversion H; reflexivity.
  - destruct (is_Exception e); [| intros H; inversion H; reflexivity].
    destruct (_ && _); intros H; inversion H; reflexivity.
Qed.

(** A checksum comes back from [remote_md5] after exactly one call. *)
Lemma remote_md5_ret remote_file action m rc m2 :
  remote_md5 remote_file action m = (Ret rc, m2) ->
  m2 = log_call (checksum_query m remote_file) m.
Proof.
  unfold remote_md5, checksum_query, need_dev, findtext_strip.
  destruct (local m) eqn:Hl.
  - destruct (dev m) as [d|] eqn:Hd.
    + monad_with ltac:(rewrite ?Hl, ?Hd).
      destruct (env (trace m) _) as [v|e].
      * destruct v; intros H; inversion H; reflexivity.
      * destruct (is_Exception e); [| intros H; inversion H].
        destruct (_ && _); intros H; inversion H; reflexivity.
    + monad_with ltac:(rewrite ?Hl, ?Hd).
      cbv beta iota delta [is_Exception exc_class exc_str].
      destruct (String.eqb action "put"); intros H;
        vm_compute in H; inversion H.
  - monad_with ltac:(rewrite ?Hl).
    destruct (env (trace m) _) as [v|e].
    + destruct v; intros H; inversion H; reflexivity.
    + destruct (is_Exception e); [| intros H; inversion H].
      destruct (_ && _); intros H; inversion H; reflexivity.
Qed.

(** The call by which a file is moved. *)
Definition transfer_call (direct : Call) (method a b : string) (m : Module)
  : Call :=
  if local m then direct else Broker method [VStr a; VStr b].

Lemma transport_run direct method a b m o m3 :
  transport direct method a b m = (o, m3) ->
  m3 = log_call (transfer_call direct method a b m) m.
Proof.
  unfold transport, transfer_call. monad_step.
  destruct (local m); monad_step;
    destruct (env (trace m) _); intros H; inversion H; reflexivity.
Qed.

Lemma emits_local_md5 P package action :
  P (HashLocalFile package) -> emits P (local_md5 package action).
Proof.
  intros HP. unfold local_md5. apply emits_try.
  - apply emits_bind; [apply emits_call, HP |].
    intros v. unfold hexdigest_str. destruct v; auto using emits_ret, emits_raise.
  - intros e. apply emits_if; [apply emits_ret | apply emits_raise].
Qed.

Lemma emits_remote_md5 P remote_file action :
  P (RpcGetChecksumInformation remote_file) ->
  P (Broker "get_checksum_information" [VStr remote_file]) ->
  emits P (remote_md5 remote_file action).
Proof.
  intros H1 H2. unfold remote_md5.
  assert (Hft : forall v, emits P (findtext_strip v)).
  { intros v. unfold findtext_strip.
    destruct v; auto using emits_ret, emits_raise. }
  apply emits_try.
  - apply emits_bind; [apply emits_get |]. intros is_local.
    apply emits_if.
    + apply emits_bind; [apply emits_need_dev |]. intros _.
      apply emits_bind; [apply emits_call, H1 | exact Hft].
    + apply emits_bind; [apply emits_call, H2 | exact Hft].
  - intros e. apply emits_if; [apply emits_ret | apply emits_raise].
Qed.

(** The two protocols and the two directions of the verified transfers. *)
Inductive Protocol : Type := SCP | FTP.

Definition put_call (p : Protocol) (local_file remote_file : string) : Call :=
  match p with
  | SCP => ScpPut local_file remote_file
  | FTP => FtpPut local_file remote_file
  end.

Definition put_method (p : Protocol) : string :=
  match p with SCP => "scp_file_copy_put" | FTP => "ftp_file_copy_put" end.

Definition verified_put (p : Protocol) : string -> string -> M (string * bool) :=
  match p with SCP => scp_file_copy_put | FTP => ftp_file_copy_put end.

Definition get_call (p : Protocol) (remote_file local_file : string) : Call :=
  match p with
  | SCP => ScpGet remote_file local_file
  | FTP => FtpGet remote_file local_file
  end.

Definition get_method (p : Protocol) : string :=
  match p with SCP => "scp_file_copy_get" | FTP => "ftp_file_copy_get" end.

Definition verified_get (p : Protocol) : string -> string -> M (string * bool) :=
  match p with SCP => scp_file_copy_get | FTP => ftp_file_copy_get end.

Lemma verified_put_eq p local_file remote_file :
  verified_put p local_file remote_file
  = file_copy_put
      (transport (put_call p local_file remote_file) (put_method p)
                 local_file remote_file)
      local_file remote_file.
Proof. destruct p; reflexivity. Qed.

Lemma verified_get_eq p remote_file local_file :
  verified_get p remote_file local_file
  = file_copy_get
      (transport (get_call p remote_file local_file) (get_method p)
                 remote_file local_file)
      remote_file local_file.
Proof. destruct p; reflexivity. Qed.

Definition already_present : string := "File already present, skipping the scp".

Definition pushed_ok : string := "File pushed OK".

(** C1: the decision procedure of the checksum-verified put, for SCP and
    for FTP.  With local checksum [lc] and remote checksum [rc] obtained:
    - if [rc] equals [lc] and is not the sentinel, the result is "already
      present" and nothing was called but the two checksum computations;
    - if [rc] is the sentinel or differs, the next call is the transfer,
      and when it returns the remote checksum is asked again; with the new
      checksum [rc'], equal to [lc] the result is success, and different
      from [lc] the method does [fail_json] with a message in which both
      [lc] and [rc'] occur. *)
Theorem verified_put_decision p local_file remote_file m lc m1 rc m2 :
  local_md5 local_file "put" m = (Ret lc, m1) ->
  remote_md5 remote_file "put" m1 = (Ret rc, m2) ->
  let transfer :=
    transport (put_call p local_file remote_file) (put_method p)
              local_file remote_file in
  let moved :=
    transfer_call (put_call p local_file remote_file) (put_method p)
                  local_file remote_file m in
  (rc = lc -> rc <> "no_file" ->
     verified_put p local_file remote_file m = (Ret (already_present, false), m2)
     /\ trace m2
        = (trace m ++ [HashLocalFile local_file;
                       checksum_query m remote_file])%list)
  /\ (rc = "no_file" \/ rc <> lc ->
      (exists rest,
          trace (snd (verified_put p local_file remote_file m))
          = (trace m2 ++ moved :: rest)%list)
      /\ forall m3 rc' m4,
          transfer m2 = (Ret tt, m3) ->
          remote_md5 remote_file "put" m3 = (Ret rc', m4) ->
          trace m4
          = (trace m2 ++ [moved; checksum_query m remote_file])%list
          /\ (rc' = lc ->
              verified_put p local_file remote_file m
              = (Ret (pushed_ok, true), m4))
          /\ (rc' <> lc ->
              verified_put p local_file remote_file m
              = (fail_json (transfer_failed_msg lc rc') ;;
                 ret (transfer_failed_msg lc rc', false)) m4
              /\ PyStr.str_in lc (transfer_failed_msg lc rc') = true
              /\ PyStr.str_in rc' (transfer_failed_msg lc rc') = true)).
Proof.
  intros Hlc Hrc transfer moved.
  pose proof (local_md5_run _ _ _ Hlc) as E1.
  pose proof (remote_md5_ret _ _ _ Hrc) as E2.
  assert (Hq : checksum_query m1 remote_file = checksum_query m remote_file)
    by (subst m1; reflexivity).
  rewrite verified_put_eq. fold transfer.
  assert (Hstart : forall k,
             (local_checksum <- local_md5 local_file "put" ;;
              remote_checksum <- remote_md5 remote_file "put" ;;
              k local_checksum remote_checksum) m
             = k lc rc m2 :> Outcome (string * bool) * Module).
  { intros k. unfold bind. rewrite Hlc, Hrc. reflexivity. }
  unfold file_copy_put. rewrite Hstart. clear Hstart.
  split.
  - intros -> Hne. apply String.eqb_neq in Hne.
    rewrite Hne, String.eqb_refl. simpl. split; [reflexivity |].
    subst m2 m1. rewrite Hq. simpl. rewrite <- app_assoc. reflexivity.
  - intros Hcase.
    assert (Hif : String.eqb rc "no_file"
                  || negb (String.eqb rc lc) = true).
    { destruct Hcase as [->|Hne]; [reflexivity |].
      apply String.eqb_neq in Hne. rewrite Hne. apply orb_true_r. }
    rewrite Hif. split.
    + unfold bind at 1.
      destruct (transfer m2) as [[[]|e] m3] eqn:Ht;
        pose proof (transport_run _ _ _ _ _ Ht) as E3;
        assert (Hm : transfer_call (put_call p local_file remote_file)
                       (put_method p) local_file remote_file m2 = moved)
          by (subst m2 m1; reflexivity);
        rewrite Hm in E3.
      * match goal with
        | |- context [snd (?c m3)] =>
            assert (Hrest : emits (fun _ => True) c)
        end.
        { apply emits_bind;
            [apply emits_remote_md5; exact I |].
          intros rc'. apply emits_if; [| apply emits_ret].
          apply emits_bind;
            [apply emits_fail_json; intros; exact I | intros; apply emits_ret]. }
        destruct (Hrest m3) as [evs [Hevs _]]. rewrite Hevs.
        exists evs. subst m3. simpl. rewrite <- app_assoc. reflexivity.
      * exists []. subst m3. reflexivity.
    + intros m3 rc' m4 Ht Hrc'.
      pose proof (transport_run _ _ _ _ _ Ht) as E3.
      pose proof (remote_md5_ret _ _ _ Hrc') as E4.
      assert (Hm : transfer_call (put_call p local_file remote_file)
                     (put_method p) local_file remote_file m2 = moved)
        by (subst m2 m1; reflexivity).
      rewrite Hm in E3.
      assert (Hq3 : checksum_query m3 remote_file = checksum_query m remote_file)
        by (subst m3 m2 m1; reflexivity).
      split; [| split].
      * subst m4. rewrite Hq3. subst m3. simpl.
        rewrite <- app_assoc. reflexivity.
      * intros ->. unfold bind at 1. rewrite Ht.
        unfold bind at 1. rewrite Hrc', String.eqb_refl. reflexivity.
      * intros Hne. apply String.eqb_neq in Hne.
        split; [| split].
        -- unfold bind at 1. rewrite Ht.
           unfold bind at 1. rewrite Hrc', Hne. reflexivity.
        -- apply str_in_middle.
        -- unfold transfer_failed_msg.
           apply str_in_app_r, str_in_app_r, str_in_app_r, str_in_self.
Qed.

(** When [fail_json] comes back, as under a stub of the parent class,
    the report was its last call. *)
Lemma fail_json_returns msg m m' :
  fail_json msg m = (Ret tt, m') ->
  exists evs,
    trace m' = (trace m ++ evs ++ [AnsibleFailJson (msg_kwargs msg)])%list.
Proof.
  rewrite fail_json_unfold.
  change (fail_json_depth 2 msg)
    with (close_configuration_with (fail_json_depth 1) ;;
          try_except (close false) is_timeout_expired (fun _ => ret tt) ;;
          call_ (AnsibleFailJson (msg_kwargs msg))).
  set (cleanup := close_configuration_with (fail_json_depth 1)).
  set (closing := try_except (close false) is_timeout_expired (fun _ => ret tt)).
  assert (H1 : emits (fun _ => True) cleanup).
  { apply emits_close_configuration_with; [intros; exact I |].
    intros msg0. apply emits_fail_json_depth. intros; exact I. }
  assert (H2 : emits (fun _ => True) closing).
  { apply emits_try; [apply emits_close; exact I | intros; apply emits_ret]. }
  unfold bind.
  destruct (H1 m) as [evs1 [Ht1 _]].
  destruct (cleanup m) as [[[]|e] ma]; [| discriminate].
  destruct (H2 ma) as [evs2 [Ht2 _]].
  destruct (closing ma) as [[[]|e] mb]; [| discriminate].
  simpl in Ht1, Ht2. unfold call_, call, bind, ret.
  destruct (env (trace mb) _); [| discriminate].
  intros H. inversion H. subst m'. simpl.
  exists (evs1 ++ evs2)%list. rewrite Ht2, Ht1, !app_assoc. reflexivity.
Qed.

Inductive Direction : Type := Put | Get.

(** The verified transfer of [src] to [dst], and its three steps: the
    checksum of the source, the checksum of the destination, the move. *)
Definition verified (dir : Direction) (p : Protocol) (src dst : string)
  : M (string * bool) :=
  match dir with
  | Put => verified_put p src dst
  | Get => verified_get p src dst
  end.

Definition source_md5 (dir : Direction) (src : string) : M string :=
  match dir with
  | Put => local_md5 src "put"
  | Get => remote_md5 src "get"
  end.

Definition destination_md5 (dir : Direction) (dst : string) : M string :=
  match dir with
  | Put => remote_md5 dst "put"
  | Get => local_md5 dst "get"
  end.

Definition moved (dir : Direction) (p : Protocol) (src dst : string)
           (m : Module) : Call :=
  match dir with
  | Put => transfer_call (put_call p src dst) (put_method p) src dst m
  | Get => transfer_call (get_call p src dst) (get_method p) src dst m
  end.

(** The message of a mismatch: local checksum first. *)
Definition mismatch_msg (dir : Direction) (cs cd : string) : string :=
  match dir with
  | Put => transfer_failed_msg cs cd
  | Get => transfer_failed_msg cd cs
  end.

(** What a returned pair tells. *)
Inductive Returned (dir : Direction) (p : Protocol) (src dst : string)
          (m m' : Module) (evs : list Call) : string * bool -> Prop :=
| returned_pushed cs m1 m3 :
    source_md5 dir src m = (Ret cs, m1) ->
    destination_md5 dir dst m3 = (Ret cs, m') ->
    In (moved dir p src dst m) evs ->
    Returned dir p src dst m m' evs (pushed_ok, true)
| returned_present :
    ~ In (moved dir p src dst m) evs ->
    Returned dir p src dst m m' evs (already_present, false)
| returned_mismatch cs cd m1 m3 m4 :
    source_md5 dir src m = (Ret cs, m1) ->
    destination_md5 dir dst m3 = (Ret cd, m4) ->
    cs <> cd ->
    In (moved dir p src dst m) evs ->
    In (AnsibleFailJson (msg_kwargs (mismatch_msg dir cs cd))) evs ->
    Returned dir p src dst m m' evs (mismatch_msg dir cs cd, false).

Lemma moved_not_checksum dir p src dst m a b :
  ~ In (moved dir p src dst m) [HashLocalFile a; checksum_query m b]
  /\ ~ In (moved dir p src dst m) [checksum_query m a; HashLocalFile b].
Proof.
  unfold moved, transfer_call, checksum_query.
  split; intros H; simpl in H;
    destruct dir, p, (local m); simpl in H;
    repeat (destruct H as [H|H]; try discriminate H); exact H.
Qed.

Lemma put_returned p src dst m status flag m' :
  verified_put p src dst m = (Ret (status, flag), m') ->
  exists evs, trace m' = (trace m ++ evs)%list
              /\ Returned Put p src dst m m' evs (status, flag).
Proof.
  rewrite verified_put_eq. unfold file_copy_put.
  unfold bind at 1.
  destruct (local_md5 src "put" m) as [[lc|e] m1] eqn:Hlc; [| discriminate].
  unfold bind at 1.
  destruct (remote_md5 dst "put" m1) as [[rc|e] m2] eqn:Hrc; [| discriminate].
  pose proof (local_md5_run _ _ _ Hlc) as E1.
  pose proof (remote_md5_ret _ _ _ Hrc) as E2.
  destruct (String.eqb rc "no_file" || negb (String.eqb rc lc)).
  - unfold bind at 1.
    destruct (transport _ _ _ _ m2) as [[[]|e] m3] eqn:Ht; [| discriminate].
    unfold bind at 1.
    destruct (remote_md5 dst "put" m3) as [[rc'|e] m4] eqn:Hrc'; [| discriminate].
    pose proof (transport_run _ _ _ _ _ Ht) as E3.
    pose proof (remote_md5_ret _ _ _ Hrc') as E4.
    assert (Hin : forall tail,
               In (moved Put p src dst m)
                  ([HashLocalFile src; checksum_query m1 dst;
                    transfer_call (put_call p src dst) (put_method p)
                                  src dst m2;
                    checksum_query m3 dst] ++ tail)).
    { intros tail. right. right. left. subst m2 m1. reflexivity. }
    assert (Ht4 : trace m4
                  = (trace m ++ [HashLocalFile src; checksum_query m1 dst;
                                 transfer_call (put_call p src dst)
                                   (put_method p) src dst m2;
                                 checksum_query m3 dst])%list).
    { subst m4 m3 m2 m1. simpl. rewrite <- !app_assoc. reflexivity. }
    destruct (String.eqb rc' lc) eqn:Heq; cbv beta iota zeta delta [negb].
    + apply String.eqb_eq in Heq. subst rc'.
      intros H. injection H as <- <- <-.
      eexists. split; [exact Ht4 |].
      eapply returned_pushed; [exact Hlc | exact Hrc' |].
      rewrite <- (app_nil_r [_; _; _; _]). apply Hin.
    + apply String.eqb_neq in Heq. unfold bind at 1.
      match goal with
      | |- context [fail_json ?msg m4] =>
          destruct (fail_json msg m4) as [[[]|e] m5] eqn:Hf; [| discriminate]
      end.
      destruct (fail_json_returns _ _ Hf) as [evs Hevs].
      intros H. injection H as <- <- <-.
      exists ([HashLocalFile src; checksum_query m1 dst;
               transfer_call (put_call p src dst) (put_method p) src dst m2;
               checksum_query m3 dst]
              ++ evs ++ [AnsibleFailJson
                           (msg_kwargs (transfer_failed_msg lc rc'))])%list.
      split; [rewrite Hevs, Ht4, <- !app_assoc; reflexivity |].
      apply (@returned_mismatch Put p src dst m m5 _ lc rc' m1 m3 m4);
        [exact Hlc | exact Hrc' | congruence | apply Hin |].
      apply in_or_app. right. apply in_or_app. right. left. reflexivity.
  - intros H. injection H as <- <- <-.
    exists [HashLocalFile src; checksum_query m dst].
    split.
    + rewrite E2, E1. simpl. rewrite <- app_assoc. reflexivity.
    + apply returned_present. apply moved_not_checksum.
Qed.

Lemma get_returned p src dst m status flag m' :
  verified_get p src dst m = (Ret (status, flag), m') ->
  exists evs, trace m' = (trace m ++ evs)%list
              /\ Returned Get p src dst m m' evs (status, flag).
Proof.
  rewrite verified_get_eq. unfold file_copy_get.
  unfold bind at 1.
  destruct (remote_md5 src "get" m) as [[rc|e] m1] eqn:Hrc; [| discriminate].
  unfold bind at 1.
  destruct (local_md5 dst "get" m1) as [[lc|e] m2] eqn:Hlc; [| discriminate].
  pose proof (remote_md5_ret _ _ _ Hrc) as E1.
  pose proof (local_md5_run _ _ _ Hlc) as E2.
  destruct (String.eqb lc "no_file" || negb (String.eqb lc rc)).
  - unfold bind at 1.
    destruct (transport _ _ _ _ m2) as [[[]|e] m3] eqn:Ht; [| discriminate].
    unfold bind at 1.
    destruct (local_md5 dst "get" m3) as [[lc'|e] m4] eqn:Hlc'; [| discriminate].
    pose proof (transport_run _ _ _ _ _ Ht) as E3.
    pose proof (local_md5_run _ _ _ Hlc') as E4.
    assert (Hin : forall tail,
               In (moved Get p src dst m)
                  ([checksum_query m src; HashLocalFile dst;
                    transfer_call (get_call p src dst) (get_method p)
                                  src dst m2;
                    HashLocalFile dst] ++ tail)).
    { intros tail. right. right. left. subst m2 m1. reflexivity. }
    assert (Ht4 : trace m4
                  = (trace m ++ [checksum_query m src; HashLocalFile dst;
                                 transfer_call (get_call p src dst)
                                   (get_method p) src dst m2;
                                 HashLocalFile dst])%list).
    { subst m4 m3 m2 m1. simpl. rewrite <- !app_assoc. reflexivity. }
    destruct (String.eqb rc lc') eqn:Heq; cbv beta iota zeta delta [negb].
    + apply String.eqb_eq in Heq. subst lc'.
      intros H. injection H as <- <- <-.
      eexists. split; [exact Ht4 |].
      eapply returned_pushed; [exact Hrc | exact Hlc' |].
      rewrite <- (app_nil_r [_; _; _; _]). apply Hin.
    + apply String.eqb_neq in Heq. unfold bind at 1.
      match goal with
      | |- context [fail_json ?msg m4] =>
          destruct (fail_json msg m4) as [[[]|e] m5] eqn:Hf; [| discriminate]
      end.
      destruct (fail_json_returns _ _ Hf) as [evs Hevs].
      intros H. injection H as <- <- <-.
      exists ([checksum_query m src; HashLocalFile dst;
               transfer_call (get_call p src dst) (get_method p) src dst m2;
               HashLocalFile dst]
              ++ evs ++ [AnsibleFailJson
                           (msg_kwargs (transfer_failed_msg lc' rc))])%list.
      split; [rewrite Hevs, Ht4, <- !app_assoc; reflexivity |].
      apply (@returned_mismatch Get p src dst m m5 _ rc lc' m1 m3 m4);
        [exact Hrc | exact Hlc' | congruence | apply Hin |].
      apply in_or_app. right. apply in_or_app. right. left. reflexivity.
  - intros H. injection H as <- <- <-.
    exists [checksum_query m src; HashLocalFile dst].
    split.
    + rewrite E2, E1. simpl. rewrite <- app_assoc. reflexivity.
    + apply returned_present. apply moved_not_checksum.
Qed.

(** C9: what the flag of a returned pair tells, for put and get, SCP and
    FTP.  A pair comes back in three cases only: the file was moved and
    the checksum of the destination, taken again, equals that of the source
    (flag [True]); nothing was moved because the checksums agreed before
    (flag [False]); or the file was moved, the checksums still differ and
    the [fail_json] that reported it came back (flag [False] again).  So
    the flag is [True] exactly when a transfer was made and verified, and
    "already present" carries the flag of the mismatch. *)
Theorem transfer_flag dir p src dst m status flag m' :
  verified dir p src dst m = (Ret (status, flag), m') ->
  exists evs,
    trace m' = (trace m ++ evs)%list
    /\ Returned dir p src dst m m' evs (status, flag)
    /\ (flag = true -> status = pushed_ok /\ In (moved dir p src dst m) evs)
    /\ (status = already_present ->
        flag = false /\ ~ In (moved dir p src dst m) evs).
Proof.
  intros H.
  assert (Hr : exists evs, trace m' = (trace m ++ evs)%list
                           /\ Returned dir p src dst m m' evs (status, flag)).
  { destruct dir; [apply put_returned | apply get_returned]; exact H. }
  destruct Hr as [evs [Ht Hr]]. exists evs.
  split; [exact Ht |]. split; [exact Hr |].
  split.
  - intros ->. inversion Hr; subst. split; [reflexivity | assumption].
  - intros Hs. inversion Hr; subst.
    + match goal with E : pushed_ok = already_present |- _ => discriminate E end.
    + split; [reflexivity | assumption].
    + exfalso.
      match goal with
      | E : mismatch_msg _ _ _ = already_present |- _ =>
          destruct dir; discriminate E
      end.
Qed.

(** ** Batched dispatch *)

(** A method built from methods that make calls in [P] only. *)
Ltac emits_step HP :=
  first
    [ apply emits_ret | apply emits_raise | apply emits_get
    | apply emits_fail_json; exact HP
    | apply emits_bind | apply emits_if | apply emits_try
    | match goal with
      | |- emits _ (match ?x with _ => _ end) => destruct x
      | |- emits _ (let (_, _) := ?x in _) => destruct x
      end
    | intro ].

Ltac emits_all HP := repeat emits_step HP.

Lemma emits_for_each {A} P (l : list A) body :
  (forall x, emits P (body x)) -> emits P (for_each l body).
Proof.
  intros Hb. induction l as [|x l IH]; simpl.
  - apply emits_ret.
  - apply emits_bind; [apply Hb | intros _; exact IH].
Qed.

Section Validation.

Variable P : Call -> Prop.
Hypothesis HP : forall c, failure_call c -> P c.

Lemma emits_parse_ignore_warning_option : emits P parse_ignore_warning_option.
Proof.
  unfold parse_ignore_warning_option.
  apply emits_bind; [apply emits_get |].
  intros [[|x [|y rest]]|]; emits_all HP.
  apply emits_for_each. intros z. emits_all HP.
Qed.









End Validation.

(** [AnsibleModule.fail_json] ends the process, as it does outside of
    tests: its call never returns. *)
Definition parent_exits : Prop :=
  forall h kwargs, exists e, env h (AnsibleFailJson kwargs) = Throws e.

(** The method does not return. *)
Definition raises {A} (c : M A) (m : Module) : Prop :=
  exists e m', c m = (Raise e, m').

Lemma raises_bind {A B} (c : M A) (k : A -> M B) m :
  (forall a m1, c m = (Ret a, m1) -> raises (k a) m1) ->
  raises (bind c k) m.
Proof.
  intros H. unfold raises, bind.
  destruct (c m) as [[a|e] m1]; [apply (H a m1 eq_refl) | eauto].
Qed.

Lemma fail_json_raises msg m : parent_exits -> raises (fail_json msg) m.
Proof.
  intros Hexit. unfold raises. rewrite fail_json_unfold.
  change (fail_json_depth 2 msg)
    with (close_configuration_with (fail_json_depth 1) ;;
          try_except (close false) is_timeout_expired (fun _ => ret tt) ;;
          call_ (AnsibleFailJson (msg_kwargs msg))).
  apply raises_bind. intros _ m1 _.
  apply raises_bind. intros _ m2 _.
  unfold raises, call_, call, bind.
  destruct (Hexit (trace m2) (msg_kwargs msg)) as [e He]. rewrite He. eauto.
Qed.

(** The parameters are read, never assigned. *)
Lemma stable_params p : stable (fun m => params m = p).
Proof.
  split.
  - intros c m H. exact H.
  - intros d m H. exact H.
  - intros m H. exact H.
Qed.





Lemma concat_repeat_singleton {A} (x : A) n :
  concat (repeat [x] n) = repeat x n.
Proof. induction n as [|n IH]; simpl; [| rewrite IH]; reflexivity. Qed.


(** What the formats of the zipped items are. *)
Definition format_of (item : string * string * Value * Value) : string :=
  let '(_, format, _, _) := item in format.

Lemma zip4_formats rpcs fs ks ats :
  length fs = length rpcs -> length ks = length rpcs ->
  length ats = length rpcs ->
  map format_of (zip4 rpcs fs ks ats) = fs
  /\ length (zip4 rpcs fs ks ats) = length rpcs.
Proof.
  revert fs ks ats.
  induction rpcs as [|r rpcs IH]; intros [|f fs] [|k ks] [|a ats];
    simpl; intros H1 H2 H3; try discriminate; [split; reflexivity |].
  injection H1 as H1. injection H2 as H2. injection H3 as H3.
  destruct (IH fs ks ats H1 H2 H3) as [IH1 IH2].
  rewrite IH1, IH2. split; reflexivity.
Qed.

(** ** What a method returns *)

(** Whatever [c] returns satisfies [Q]. *)
Definition returns {A} (Q : A -> Prop) (c : M A) : Prop :=
  forall m a m', c m = (Ret a, m') -> Q a.

Lemma returns_ret {A} (Q : A -> Prop) a : Q a -> returns Q (ret a).
Proof. intros H m a' m' E. inversion E. subst. exact H. Qed.

Lemma returns_raise {A} (Q : A -> Prop) e : returns Q (raise e).
Proof. intros m a m' E. inversion E. Qed.

Lemma returns_bind {A B} (Q : B -> Prop) (c : M A) (k : A -> M B) :
  (forall a, returns Q (k a)) -> returns Q (bind c k).
Proof.
  intros Hk m b m' E. unfold bind in E.
  destruct (c m) as [[a|e] m1]; [apply (Hk a m1 b m' E) | inversion E].
Qed.

Lemma returns_try {A} (Q : A -> Prop) body catches handler :
  returns Q body -> (forall e, returns Q (handler e)) ->
  returns Q (try_except body catches handler).
Proof.
  intros Hb Hh m a m' E. unfold try_except in E.
  destruct (body m) as [[a0|e] m1] eqn:Eb.
  - inversion E. subst. apply (Hb m a m' Eb).
  - destruct (catches e); [apply (Hh e m1 a m' E) | inversion E].
Qed.

Lemma returns_if {A} (Q : A -> Prop) (b : bool) (c1 c2 : M A) :
  returns Q c1 -> returns Q c2 -> returns Q (if b then c1 else c2).
Proof. destruct b; auto. Qed.


Definition tried_result (t : Tried) : Result :=
  match t with Failed r => r | Executed _ r => r end.




Lemma raises_bind_l {A B} (c : M A) (k : A -> M B) m :
  raises c m -> raises (bind c k) m.
Proof.
  intros (e & m' & E). exists e, m'. unfold bind. rewrite E. reflexivity.
Qed.





(** The batch is failed exactly when every element is. *)
Lemma overall_failed_iff results :
  overall_failed results = true
  <-> Forall (fun result => r_failed result = true) results.
Proof.
  unfold overall_failed. rewrite negb_true_iff.
  induction results as [|r rs IH]; simpl.
  - split; [constructor | reflexivity].
  - rewrite orb_false_iff, IH, negb_false_iff. split.
    + intros [H1 H2]. constructor; assumption.
    + intros H. inversion H. subst. split; assumption.
Qed.

(** X21: on a local connection an RPC that the device refuses, or that
    loses the connection, is recorded as failed and the loop goes on. *)
Lemma local_failure_recorded iw name format kwarg attr resp m d rpc e :
  local m = true -> dev m = Some d ->
  String.eqb (PyStr.replace_char "_" "-" name) "get-config" = false ->
  build_rpc (PyStr.replace_char "_" "-" name) format kwarg attr m
  = (Ret rpc, m) ->
  env (trace m) (RpcExecute rpc (String.eqb format "xml")) = Throws e ->
  is_pyez_error e = true ->
  exists result,
    dispatch_one iw (name, format, kwarg, attr) resp m
    = (Ret (resp, result),
       log_call (RpcExecute rpc (String.eqb format "xml")) m)
    /\ r_failed result = true.
Proof.
  intros Hl Hd Hname Hbuild Hreply Hpyez.
  unfold dispatch_one, execute_rpc, need_dev, rpc_failed.
  monad_with ltac:(rewrite ?Hl, ?Hd, ?Hname, ?Hbuild, ?Hreply, ?Hpyez).
  eexists. split; reflexivity.
Qed.

(** ** Transfers without verification *)

(** [if result:] *)
Definition truthy (v : Value) : bool :=
  match v with
  | VNone => false
  | VBool b => b
  | VInt i => negb (i =? 0)%Z
  | VStr s => negb (String.eqb s "")
  | VList l => negb (length l =? 0)%nat
  | VDict d => negb (length d =? 0)%nat
  | VElement _ _ _ children => negb (length children =? 0)%nat
  | VObject _ => true
  end.

Definition transfer_error_msg (e : Exc) : string := "Error: " ++ exc_str e.

(** [JuniperJunosModule.scp_file_copy_put_without_checksum] *)
Definition scp_file_copy_put_without_checksum (local_file remote_file : string)
  : M (string * bool) :=
  is_local <- get local ;;
  if is_local then
    try_except
      (call_ (ScpPut local_file remote_file) ;;
       ret ("File pushed OK", true))
      is_Exception
      (fun e => ret (transfer_error_msg e, false))
  else
    call_ (Broker "scp_file_copy_put" [VStr local_file; VStr remote_file]) ;;
    ret ("File pushed OK", true).

(** [JuniperJunosModule.ftp_file_copy_put_without_checksum] *)
Definition ftp_file_copy_put_without_checksum (local_file remote_file : string)
  : M (string * bool) :=
  is_local <- get local ;;
  if is_local then
    try_except
      (result <- call (FtpPut local_file remote_file) ;;
       if truthy result then ret ("File pushed OK", true)
       else ret ("Transfer failed", false))
      is_Exception
      (fun e => ret (transfer_error_msg e, false))
  else
    result <- call (Broker "ftp_file_copy_put"
                      [VStr local_file; VStr remote_file]) ;;
    if truthy result then ret ("File pushed OK", true)
    else ret ("Transfer failed", false).

(** [JuniperJunosModule.scp_file_copy_get_without_checksum] *)
Definition scp_file_copy_get_without_checksum (remote_file local_file : string)
  : M (string * bool) :=
  is_local <- get local ;;
  if is_local then
    try_except
      (call_ (ScpGet remote_file local_file) ;;
       ret ("File pushed OK", true))
      is_Exception
      (fun e => ret (transfer_error_msg e, false))
  else
    call_ (Broker "scp_file_copy_get" [VStr remote_file; VStr local_file]) ;;
    ret ("File pushed OK", true).

(** [JuniperJunosModule.ftp_file_copy_get_without_checksum] *)
Definition ftp_file_copy_get_without_checksum (remote_file local_file : string)
  : M (string * bool) :=
  is_local <- get local ;;
  if is_local then
    try_except
      (result <- call (FtpGet remote_file local_file) ;;
       if truthy result then ret ("File pushed OK", true)
       else ret ("Transfer failed", false))
      is_Exception
      (fun e => ret (transfer_error_msg e, false))
  else
    result <- call (Broker "ftp_file_copy_get"
                      [VStr remote_file; VStr local_file]) ;;
    if truthy result then ret ("File pushed OK", true)
    else ret ("Transfer failed", false).

(** The four of them by direction and protocol. *)
Definition unverified (dir : Direction) (p : Protocol) (src dst : string)
  : M (string * bool) :=
  match dir, p with
  | Put, SCP => scp_file_copy_put_without_checksum src dst
  | Put, FTP => ftp_file_copy_put_without_checksum src dst
  | Get, SCP => scp_file_copy_get_without_checksum src dst
  | Get, FTP => ftp_file_copy_get_without_checksum src dst
  end.

(** What the transfer gave as read by the method: [SCP] has no result. *)
Definition accepted (p : Protocol) (v : Value) : bool :=
  match p with SCP => true | FTP => truthy v end.

Lemma unverified_run dir p src dst m :
  unverified dir p src dst m
  = (match env (trace m) (moved dir p src dst m) with
     | Returns v =>
         Ret (if accepted p v then (pushed_ok, true)
              else ("Transfer failed", false))
     | Throws e =>
         if local m && is_Exception e
         then Ret (transfer_error_msg e, false) else Raise e
     end,
     log_call (moved dir p src dst m) m).
Proof.
  destruct dir, p; cbn [unverified moved put_call get_call put_method get_method];
    unfold scp_file_copy_put_without_checksum, ftp_file_copy_put_without_checksum,
      scp_file_copy_get_without_checksum, ftp_file_copy_get_without_checksum,
      transfer_call, accepted, pushed_ok;
    monad_step; destruct (local m); monad_step;
    match goal with
    | |- context [env ?t ?c] => destruct (env t c) as [v|e]
    end;
    cbn [andb]; try reflexivity;
    try (destruct (truthy v); reflexivity);
    destruct (is_Exception e); reflexivity.
Qed.

(** X1: the four transfers without checksum make exactly one call, the
    transfer itself, on either kind of connection and however it ends: no
    checksum is asked of either side. *)
Theorem unverified_single_transfer dir p src dst m :
  trace (snd (unverified dir p src dst m))
  = (trace m ++ [moved dir p src dst m])%list
  /\ ~ In (HashLocalFile src) [moved dir p src dst m]
  /\ ~ In (HashLocalFile dst) [moved dir p src dst m]
  /\ ~ In (checksum_query m src) [moved dir p src dst m]
  /\ ~ In (checksum_query m dst) [moved dir p src dst m].
Proof.
  rewrite unverified_run. split; [reflexivity |].
  unfold moved, transfer_call, checksum_query, put_call, get_call.
  repeat split; intros [H|[]]; destruct dir, p, (local m); discriminate H.
Qed.

(** X2: when the transfer throws an [Exception], a local connection turns
    it into the result [("Error: " + str(e), False)], while a delegated one
    lets it through to the caller. *)
Theorem unverified_on_error dir p src dst m e :
  env (trace m) (moved dir p src dst m) = Throws e ->
  is_Exception e = true ->
  unverified dir p src dst m
  = (if local m then Ret (transfer_error_msg e, false) else Raise e,
     log_call (moved dir p src dst m) m).
Proof.
  intros Hreply Hexc. rewrite unverified_run, Hreply, Hexc.
  destruct (local m); reflexivity.
Qed.

(** X3: a transfer without checksum reports a change exactly when its
    status is "File pushed OK", and only after the transfer call came back
    with a result the method accepts. *)
Theorem unverified_flag dir p src dst m status flag m' :
  unverified dir p src dst m = (Ret (status, flag), m') ->
  (flag = true <-> status = pushed_ok)
  /\ (flag = true ->
      exists v, env (trace m) (moved dir p src dst m) = Returns v
                /\ accepted p v = true).
Proof.
  rewrite unverified_run. intros E.
  destruct (env (trace m) (moved dir p src dst m)) as [v|e].
  - destruct (accepted p v) eqn:Hv; injection E as <- <- <-.
    + split; [split; reflexivity | intros _; exists v; split; [reflexivity | exact Hv]].
    + unfold pushed_ok. split; [split; discriminate | discriminate].
  - destruct (local m && is_Exception e); [| discriminate E].
    injection E as <- <- <-. unfold pushed_ok, transfer_error_msg.
    split; [split; discriminate | discriminate].
Qed.

(** ** Closing the device and leaving the module *)

Lemma close_run b m :
  close b m
  = match dev m with
    | None => (Ret tt, m)
    | Some _ =>
        (match env (trace m) DeviceClose with
         | Returns _ => Ret tt
         | Throws e =>
             if is_pyez_error e then if b then Raise e else Ret tt
             else Raise e
         end,
         log_call DeviceClose (set_dev None m))
    end.
Proof.
  unfold close. monad_step. destruct (dev m) as [d|]; cbn [is_some].
  - monad_step. cbn [trace set_dev].
    destruct (env (trace m) DeviceClose) as [v|e]; [reflexivity |].
    destruct (is_pyez_error e), b; reflexivity.
  - reflexivity.
Qed.

(** X4: [close] forgets the device however [dev.close()] ends, calls it at
    most once, and a second [close] does nothing. *)
Theorem close_forgets_device b m :
  let m1 := snd (close b m) in
  dev m1 = None
  /\ trace m1
     = (trace m ++ if is_some (dev m) then [DeviceClose] else [])%list
  /\ forall b', close b' m1 = (Ret tt, m1).
Proof.
  cbn zeta. rewrite close_run. destruct (dev m) as [d|] eqn:Hd; cbn [snd is_some].
  - split; [reflexivity |]. split; [reflexivity |].
    intros b'. rewrite close_run. reflexivity.
  - rewrite app_nil_r. split; [exact Hd |]. split; [reflexivity |].
    intros b'. rewrite close_run, Hd. reflexivity.
Qed.

Definition closing_error (e : Exc) : bool :=
  is_pyez_error e || is_timeout_expired e.

Lemma quiet_close_run m :
  try_except (close false) is_timeout_expired (fun _ => ret tt) m
  = match dev m with
    | None => (Ret tt, m)
    | Some _ =>
        (match env (trace m) DeviceClose with
         | Returns _ => Ret tt
         | Throws e => if closing_error e then Ret tt else Raise e
         end,
         log_call DeviceClose (set_dev None m))
    end.
Proof.
  unfold try_except. rewrite close_run. destruct (dev m) as [d|]; [| reflexivity].
  unfold closing_error.
  destruct (env (trace m) DeviceClose) as [v|e]; [reflexivity |].
  destruct (is_pyez_error e); [reflexivity |].
  cbn [orb]. destruct (is_timeout_expired e); reflexivity.
Qed.

Lemma call__run c m :
  call_ c m
  = (match env (trace m) c with Returns _ => Ret tt | Throws e => Raise e end,
     log_call c m).
Proof. unfold call_. monad_step. destruct (env (trace m) c); reflexivity. Qed.

Lemma exit_json_run kwargs m :
  exit_json kwargs m
  = match dev m with
    | Some _ =>
        if local m then
          match env (trace m) DeviceClose with
          | Throws e =>
              if closing_error e
              then call_ (AnsibleExitJson kwargs)
                         (log_call DeviceClose (set_dev None m))
              else (Raise e, log_call DeviceClose (set_dev None m))
          | Returns _ =>
              call_ (AnsibleExitJson kwargs)
                    (log_call DeviceClose (set_dev None m))
          end
        else call_ (AnsibleExitJson kwargs) m
    | None => call_ (AnsibleExitJson kwargs) m
    end.
Proof.
  cbv beta iota delta [exit_json bind get]. destruct (local m).
  - rewrite quiet_close_run. destruct (dev m) as [d|]; [| reflexivity].
    destruct (env (trace m) DeviceClose) as [v|e]; [reflexivity |].
    destruct (closing_error e); reflexivity.
  - destruct (dev m); reflexivity.
Qed.

(** X5: [exit_json] leaves the configuration session as it is: the only
    calls it makes are [dev.close()] and the parent's [exit_json], so a
    lock taken by [open_configuration] is not released by it; on a
    delegated connection the device is not closed either. *)
Theorem exit_json_keeps_configuration kwargs m :
  let m1 := snd (exit_json kwargs m) in
  config m1 = config m
  /\ (exists evs, trace m1 = (trace m ++ evs)%list
                  /\ Forall (fun c => c = DeviceClose
                                      \/ c = AnsibleExitJson kwargs) evs)
  /\ (local m = false ->
      dev m1 = dev m /\ trace m1 = (trace m ++ [AnsibleExitJson kwargs])%list).
Proof.
  cbn zeta. rewrite exit_json_run.
  assert (Hboth : Forall (fun c => c = DeviceClose \/ c = AnsibleExitJson kwargs)
                         [DeviceClose; AnsibleExitJson kwargs])
    by (repeat constructor).
  assert (Hexit : Forall (fun c => c = DeviceClose \/ c = AnsibleExitJson kwargs)
                         [AnsibleExitJson kwargs])
    by (repeat constructor).
  assert (Hclose : Forall (fun c => c = DeviceClose \/ c = AnsibleExitJson kwargs)
                          [DeviceClose])
    by (repeat constructor).
  destruct (dev m) as [d|] eqn:Hd, (local m);
    try destruct (env (trace m) DeviceClose) as [v|e];
    try destruct (closing_error e);
    rewrite ?call__run; cbn [snd config dev trace log_call set_dev];
    (split; [reflexivity |]);
    (split; [| first [ intros H; discriminate H
                     | intros _; split; [exact Hd | reflexivity] ]]);
    first [ exists [DeviceClose; AnsibleExitJson kwargs];
            rewrite <- app_assoc; split; [reflexivity | exact Hboth]
          | exists [AnsibleExitJson kwargs]; split; [reflexivity | exact Hexit]
          | exists [DeviceClose]; split; [reflexivity | exact Hclose] ].
Qed.

(** X6: an error of [dev.close()] does not keep [exit_json] from
    reporting: when closing can only fail with a PyEZ error or an expired
    timeout, the parent's [exit_json] is always called, last, and its
    answer is the outcome. *)
Theorem exit_json_reports kwargs m :
  (forall e, env (trace m) DeviceClose = Throws e -> closing_error e = true) ->
  exists before m1,
    exit_json kwargs m
    = (match env (trace m ++ before)%list (AnsibleExitJson kwargs) with
       | Returns _ => Ret tt
       | Throws e => Raise e
       end, m1)
    /\ trace m1 = (trace m ++ before ++ [AnsibleExitJson kwargs])%list
    /\ before = (if local m && is_some (dev m) then [DeviceClose] else [])
    /\ (local m = true -> dev m1 = None).
Proof.
  intros Hclose.
  exists (if local m && is_some (dev m) then [DeviceClose] else []).
  rewrite exit_json_run.
  destruct (dev m) as [d|] eqn:Hd, (local m); cbn [andb is_some];
    rewrite ?app_nil_r;
    try (destruct (env (trace m) DeviceClose) as [v|e] eqn:Hreply;
         [| rewrite (Hclose e eq_refl)]);
    rewrite call__run; cbn [trace log_call set_dev];
    eexists; (split; [reflexivity |]);
    cbn [trace log_call set_dev dev]; rewrite <- ?app_assoc, ?app_nil_r;
    (split; [reflexivity |]); (split; [reflexivity |]);
    first [ intros _; first [reflexivity | exact Hd] | intros H; discriminate H ].
Qed.

(** ** Failing *)

(** What [close_configuration] asks of the device for a stored session. *)
Definition teardown_call (c : Config) : option Call :=
  if String.eqb (mode c) "exclusive" then Some ConfigUnlock
  else if str_mem (mode c) ["batch"; "dynamic"; "private"; "ephemeral"]
       then Some RpcCloseConfiguration
       else None.

Definition unable_to_close (e : Exc) : string :=
  "Unable to close the configuration: " ++ exc_str e.

Lemma close_configuration_with_run fj m :
  close_configuration_with fj m
  = if local m then
      match config m with
      | None => (Ret tt, m)
      | Some c =>
          match teardown_call c with
          | None => (Ret tt, set_config None m)
          | Some t =>
              if negb (String.eqb (mode c) "exclusive") && is_none (dev m)
              then (Raise (mkExc AttributeError
                             "'NoneType' object has no attribute 'rpc'"),
                    set_config None m)
              else
                match env (trace m) t with
                | Returns _ => (Ret tt, log_call t (set_config None m))
                | Throws e =>
                    if is_pyez_error e
                    then fj (unable_to_close e)
                            (log_call t (set_config None m))
                    else (Raise e, log_call t (set_config None m))
                end
          end
      end
    else call_ (Broker "close_configuration" []) m.
Proof.
  unfold close_configuration_with, teardown_call, unable_to_close, need_dev.
  cbv beta iota delta [bind get]. destruct (local m); cbn [negb]; [| reflexivity].
  destruct (config m) as [c|]; [| reflexivity].
  cbv beta iota delta [bind modify try_except get ret raise].
  destruct (String.eqb (mode c) "exclusive"); cbn [negb andb].
  - rewrite call__run. cbn [trace set_config].
    destruct (env (trace m) ConfigUnlock) as [v|e]; [reflexivity |].
    destruct (is_pyez_error e); reflexivity.
  - destruct (str_mem (mode c) ["batch"; "dynamic"; "private"; "ephemeral"]);
      [| reflexivity].
    cbn [dev set_config]. destruct (dev m) as [d|]; cbn [is_none is_some negb].
    + rewrite call__run. cbn [trace set_config].
      destruct (env (trace m) RpcCloseConfiguration) as [v|e]; [reflexivity |].
      destruct (is_pyez_error e); reflexivity.
    + reflexivity.
Qed.

Lemma fail_json_depth_run d msg m :
  fail_json_depth (S d) msg m
  = match close_configuration_with (fail_json_depth d) m with
    | (Ret _, m1) =>
        match try_except (close false) is_timeout_expired (fun _ => ret tt) m1 with
        | (Ret _, m2) => call_ (AnsibleFailJson (msg_kwargs msg)) m2
        | (Raise e, m2) => (Raise e, m2)
        end
    | (Raise e, m1) => (Raise e, m1)
    end.
Proof.
  cbn [fail_json_depth]. cbv beta iota delta [bind].
  destruct (close_configuration_with (fail_json_depth d) m) as [[[]|e] m1];
    [| reflexivity].
  destruct (try_except (close false) is_timeout_expired (fun _ => ret tt) m1)
    as [[[]|e] m2]; reflexivity.
Qed.

(** Since [h] was recorded, no report was made with the device open. *)
Definition closed_before_report (h : list Call) (m : Module) : Prop :=
  forall evs k,
    trace m = (h ++ evs ++ [AnsibleFailJson k])%list -> dev m = None.

Lemma closed_before_report_start m : closed_before_report (trace m) m.
Proof.
  intros evs k E. apply (f_equal (@length Call)) in E.
  rewrite !length_app in E. cbn [length] in E. lia.
Qed.

Lemma closed_before_report_call h c m :
  (forall k, c <> AnsibleFailJson k) ->
  closed_before_report h (log_call c m).
Proof.
  intros Hc evs k E. cbn [trace log_call] in E.
  rewrite app_assoc in E. apply app_inj_tail in E.
  destruct E as [_ E]. destruct (Hc k E).
Qed.

Lemma closed_before_report_closed h m :
  dev m = None -> closed_before_report h m.
Proof. intros H evs k _. exact H. Qed.

Lemma quiet_close_closes m :
  dev (snd (try_except (close false) is_timeout_expired (fun _ => ret tt) m))
  = None.
Proof.
  rewrite quiet_close_run. destruct (dev m) as [d|] eqn:Hd; [reflexivity | exact Hd].
Qed.

Lemma keeps_closed_before_report h d msg :
  keeps (closed_before_report h) (fail_json_depth d msg).
Proof.
  revert msg. induction d as [|d IH]; intros msg m Hm; [exact Hm |].
  rewrite fail_json_depth_run.
  assert (Hreport :
    forall m1,
      closed_before_report h
        (snd (match try_except (close false) is_timeout_expired
                     (fun _ => ret tt) m1 with
              | (Ret _, m2) => call_ (AnsibleFailJson (msg_kwargs msg)) m2
              | (Raise e, m2) => (Raise e, m2)
              end))).
  { intros m1. pose proof (quiet_close_closes m1) as Hclosed.
    destruct (try_except (close false) is_timeout_expired (fun _ => ret tt) m1)
      as [[[]|e] m2]; cbn [snd] in Hclosed |- *.
    - rewrite call__run. cbn [snd].
      apply closed_before_report_closed. exact Hclosed.
    - apply closed_before_report_closed. exact Hclosed. }
  rewrite close_configuration_with_run. destruct (local m).
  - destruct (config m) as [c|]; [| apply Hreport].
    destruct (teardown_call c) as [t|] eqn:Ht; [| apply Hreport].
    assert (Hcall : closed_before_report h (log_call t (set_config None m))).
    { apply closed_before_report_call. intros k E. subst t.
      unfold teardown_call in Ht.
      destruct (String.eqb (mode c) "exclusive"); [discriminate Ht |].
      destruct (str_mem (mode c) ["batch"; "dynamic"; "private"; "ephemeral"]);
        discriminate Ht. }
    destruct (negb (String.eqb (mode c) "exclusive") && is_none (dev m));
      [exact Hm |].
    destruct (env (trace m) t) as [v|e]; [apply Hreport |].
    destruct (is_pyez_error e); [| exact Hcall].
    specialize (IH (unable_to_close e) _ Hcall).
    destruct (fail_json_depth d (unable_to_close e)
                (log_call t (set_config None m))) as [[[]|e'] m1];
      [apply Hreport | exact IH].
  - rewrite call__run.
    destruct (env (trace m) (Broker "close_configuration" [])) as [v|e].
    + apply Hreport.
    + apply closed_before_report_call. discriminate.
Qed.

Lemma keeps_at {A B} (I : Module -> Prop) (c : M A) (k : A -> M B) m :
  I (snd (c m)) -> (forall a, keeps I (k a)) -> I (snd (bind c k m)).
Proof.
  intros Hc Hk. unfold bind. destruct (c m) as [[a|e] m1]; cbn [snd] in Hc |- *.
  - apply Hk, Hc.
  - exact Hc.
Qed.

Lemma fail_json_depth_forgets d msg m :
  local m = true -> session_closed (snd (fail_json_depth (S d) msg m)).
Proof.
  intros Hl. cbn [fail_json_depth]. apply keeps_at.
  - apply close_configuration_with_closes; [exact Hl |].
    intros msg'. apply keeps_fail_json_depth, stable_session_closed.
  - intros _. apply keeps_bind.
    + apply keeps_try; [| intros e; apply keeps_ret].
      apply keeps_close; [apply session_closed_untraced |].
      intros m0 H. exact H.
    + intros _. apply keeps_call_, session_closed_untraced.
Qed.

(** X7: [fail_json] tears the session down before it reports: whenever
    the last call it made is a parent's [fail_json], the device has been
    closed and forgotten, and on a local connection the configuration
    session is forgotten however [fail_json] ends. *)
Theorem fail_json_closes_before_reporting msg m evs k :
  trace (snd (fail_json msg m)) = (trace m ++ evs ++ [AnsibleFailJson k])%list ->
  dev (snd (fail_json msg m)) = None
  /\ (local m = true -> config (snd (fail_json msg m)) = None).
Proof.
  intros Htrace. split.
  - apply (@keeps_closed_before_report (trace m) recursion_limit msg m
             (closed_before_report_start m) evs k Htrace).
  - intros Hl. rewrite fail_json_unfold.
    apply (@fail_json_depth_forgets 1 msg m Hl).
Qed.

(** X8: the recursion between [fail_json] and [close_configuration] ends
    after one nested [fail_json]: whatever is left of the recursion limit
    beyond two calls is never used, and one call is enough when no session
    is stored. *)
Theorem fail_json_recursion_bounded d msg m :
  fail_json_depth (S (S d)) msg m = fail_json msg m
  /\ (local m = false \/ config m = None ->
      fail_json_depth (S d) msg m = fail_json msg m).
Proof.
  split.
  - rewrite fail_json_depth_stable, fail_json_unfold. reflexivity.
  - intros H. rewrite fail_json_unfold.
    rewrite (@fail_json_depth_closed d msg m H).
    rewrite (@fail_json_depth_closed 1 msg m H). reflexivity.
Qed.

(** ** Opening *)

Definition unable_to_connect (e : Exc) : string :=
  "Unable to make a PyEZ connection: " ++ exc_str e.

Lemma local_log_call c m : local (log_call c m) = local m.
Proof. reflexivity. Qed.

Lemma local_set_dev d m : local (set_dev d m) = local m.
Proof. reflexivity. Qed.


Lemma open_run m :
  open m
  = match env (trace m) DeviceOpen with
    | Returns _ =>
        (Ret tt,
         set_dev (Some (mkDevice (p_timeout (params m))))
                 (log_call DeviceOpen (set_dev (Some (mkDevice 30)) m)))
    | Throws e =>
        match exc_class e with
        | ConnectError =>
            fail_json (unable_to_connect e)
                      (log_call DeviceOpen (set_dev (Some (mkDevice 30)) m))
        | _ => (Raise e, log_call DeviceOpen (set_dev (Some (mkDevice 30)) m))
        end
    end.
Proof.
  unfold open, unable_to_connect.
  cbv beta iota delta [try_except bind get modify].
  rewrite call__run. cbn [trace set_dev].
  destruct (env (trace m) DeviceOpen) as [v|e]; [reflexivity |].
  destruct (exc_class e); reflexivity.
Qed.

(** X14: when [dev.open()] fails with a [ConnectError], the device object
    just made is closed again and forgotten before the failure is
    reported: the calls are [open], [close] and the parent's [fail_json]
    with the text of the error, in this order. *)
Theorem open_failure_closes m e :
  local m = true -> config m = None ->
  env (trace m) DeviceOpen = Throws e -> exc_class e = ConnectError ->
  (forall e', env (trace m ++ [DeviceOpen])%list DeviceClose = Throws e' ->
              closing_error e' = true) ->
  let m1 := snd (open m) in
  trace m1
  = (trace m ++ [DeviceOpen; DeviceClose;
                 AnsibleFailJson (msg_kwargs (unable_to_connect e))])%list
  /\ dev m1 = None
  /\ PyStr.str_in (exc_str e) (unable_to_connect e) = true.
Proof.
  intros Hl Hc Hreply Hclass Hclose. cbn zeta.
  rewrite open_run, Hreply, Hclass, fail_json_unfold, fail_json_depth_run.
  rewrite close_configuration_with_run.
  rewrite local_log_call, local_set_dev, Hl.
  cbn [config log_call set_dev]. rewrite Hc.
  rewrite quiet_close_run. cbn [dev log_call set_dev trace].
  split; [| split].
  - destruct (env (trace m ++ [DeviceOpen])%list DeviceClose) as [v|e'] eqn:E.
    + rewrite call__run. cbn [snd trace log_call set_dev].
      rewrite <- !app_assoc. reflexivity.
    + rewrite (Hclose e' eq_refl), call__run. cbn [snd trace log_call set_dev].
      rewrite <- !app_assoc. reflexivity.
  - destruct (env (trace m ++ [DeviceOpen])%list DeviceClose) as [v|e'] eqn:E.
    + rewrite call__run. reflexivity.
    + rewrite (Hclose e' eq_refl), call__run. reflexivity.
  - apply str_in_app_r, str_in_self.
Qed.




(** ** Transactions on a module without a session *)

(** The calls of one run. *)
Definition emits_at {A} (P : Call -> Prop) (c : M A) (m : Module) : Prop :=
  exists evs, trace (snd (c m)) = (trace m ++ evs)%list /\ Forall P evs.

Lemma emits_at_bind {A B} P (c : M A) (k : A -> M B) m :
  emits_at P c m ->
  (forall a m1, c m = (Ret a, m1) -> emits_at P (k a) m1) ->
  emits_at P (bind c k) m.
Proof.
  intros [evs [Ht Hevs]] Hk. unfold emits_at, bind.
  destruct (c m) as [[a|e] m1] eqn:E; cbn [snd] in Ht.
  - destruct (Hk a m1 eq_refl) as [evs' [Ht' Hevs']].
    exists (evs ++ evs')%list. rewrite Ht', Ht, app_assoc.
    split; [reflexivity | apply Forall_app; split; assumption].
  - exists evs. split; assumption.
Qed.

Lemma emits_at_silent {A} P (c : M A) m o :
  c m = (o, m) -> emits_at P c m.
Proof.
  intros E. exists []. rewrite E, app_nil_r. split; [reflexivity | constructor].
Qed.

Lemma need_config_closed m :
  config m = None ->
  need_config m
  = (Raise (mkExc AttributeError "'NoneType' object has no attribute"), m).
Proof. intros H. unfold need_config. monad_step. rewrite H. reflexivity. Qed.

(** A guarded transaction call on a module without a session. *)
Lemma guarded_closed {A} (k : M A) handler m :
  config m = None ->
  emits_at failure_call
    (try_except (need_config ;; k) is_pyez_error handler) m.
Proof.
  intros H. eapply emits_at_silent. unfold try_except, bind.
  rewrite (need_config_closed m H). reflexivity.
Qed.

Lemma not_open_reported m :
  session_closed m ->
  emits_at failure_call (fail_json "The device or configuration is not open.") m
  /\ forall a m1,
       fail_json "The device or configuration is not open." m = (Ret a, m1) ->
       config m1 = None.
Proof.
  intros Hm. split.
  - apply (@emits_fail_json failure_call _ (fun c H => H) m).
  - intros a m1 E.
    pose proof (@keeps_fail_json session_closed
                  "The device or configuration is not open."
                  stable_session_closed m Hm) as H.
    rewrite E in H. apply H.
Qed.

Lemma rollback_configuration_closed id m :
  session_closed m ->
  rollback_configuration id m
  = (fail_json "The device or configuration is not open." ;;
     (if is_rescue id then
        try_except (need_config ;; call_ ConfigRescueReload)
          is_pyez_error
          (fun ex =>
             fail_json ("Unable to load the rescue configuraton: "
                        ++ exc_str ex))
      else
        match rollback_number id with
        | inr type_error => raise type_error
        | inl (Some rb_id) =>
            try_except (need_config ;; call_ (ConfigRollback rb_id))
              is_pyez_error
              (fun ex =>
                 fail_json ("Unable to load the rollback "
                            ++ PyStr.str_of_int rb_id
                            ++ " configuraton: " ++ exc_str ex))
        | inl None =>
            fail_json ("Unrecognized rollback configuraton value: "
                       ++ str_of_value id)
        end)) m.
Proof.
  intros [Hl Hc]. unfold rollback_configuration.
  cbv beta iota delta [bind get]. rewrite Hl.
  cbv beta iota delta [negb]. rewrite Hc.
  cbn [negb is_none is_some]. rewrite orb_true_r. reflexivity.
Qed.

Lemma commit_configuration_closed iw comment confirmed timeout
      full sync force_sync m :
  session_closed m ->
  commit_configuration iw comment confirmed timeout full sync force_sync m
  = match dev m with
    | None =>
        (Raise (mkExc AttributeError
                  "'NoneType' object has no attribute 'timeout'"), m)
    | Some d =>
        (fail_json "The device or configuration is not open." ;;
         try_except
           (need_config ;;
            call_ (ConfigCommit iw comment confirmed
                     (if (dev_timeout d =? 0)%Z then timeout else dev_timeout d)
                     full force_sync sync))
           is_pyez_error
           (fun ex =>
              fail_json ("Failure committing the configuraton: "
                         ++ exc_str ex))) m
    end.
Proof.
  intros [Hl Hc]. unfold commit_configuration.
  cbv beta iota delta [bind get]. rewrite Hl.
  destruct (dev m) as [d|] eqn:Hd; [| reflexivity].
  cbv beta iota delta [ret negb]. rewrite ?Hl, ?Hd.
  cbv beta iota delta [negb]. rewrite ?Hd, ?Hc.
  cbn [negb is_none is_some orb]. reflexivity.
Qed.

(** X9: on a local connection without a configuration session neither
    [rollback_configuration] nor [commit_configuration] sends anything to
    the configuration: the only calls they make are those of [fail_json].
    Without a device, [commit_configuration] does not get that far: reading
    the timeout of the device raises an [AttributeError] and no call is
    made at all. *)
Theorem no_transaction_without_session m :
  session_closed m ->
  (forall id,
      exists evs,
        trace (snd (rollback_configuration id m)) = (trace m ++ evs)%list
        /\ Forall failure_call evs)
  /\ (forall iw comment confirmed timeout full sync force_sync,
         exists evs,
           trace (snd (commit_configuration iw comment confirmed timeout
                         full sync force_sync m))
           = (trace m ++ evs)%list
           /\ Forall failure_call evs)
  /\ (dev m = None ->
      forall iw comment confirmed timeout full sync force_sync,
      exists e,
        commit_configuration iw comment confirmed timeout full sync force_sync m
        = (Raise e, m)
        /\ exc_class e = AttributeError).
Proof.
  intros Hm. destruct (not_open_reported Hm) as [Hfail Hafter].
  split; [| split];
    [| | intros Hd iw comment confirmed timeout full sync force_sync;
         rewrite (commit_configuration_closed iw comment confirmed timeout
                    full sync force_sync Hm), Hd;
         eexists; split; reflexivity ].
  - intros id. rewrite (rollback_configuration_closed id Hm).
    apply (@emits_at_bind _ _ failure_call _ _ m Hfail).
    intros a m1 E. specialize (Hafter a m1 E).
    destruct (is_rescue id); [apply guarded_closed, Hafter |].
    destruct (rollback_number id) as [[rb_id|]|type_error].
    + apply guarded_closed, Hafter.
    + apply (@emits_fail_json failure_call _ (fun c H => H) m1).
    + eapply emits_at_silent. reflexivity.
  - intros iw comment confirmed timeout full sync force_sync.
    rewrite (commit_configuration_closed iw comment confirmed timeout
               full sync force_sync Hm).
    destruct (dev m) as [d|].
    + apply (@emits_at_bind _ _ failure_call _ _ m Hfail).
      intros a m1 E. apply guarded_closed, (Hafter a m1 E).
    + exists []. rewrite app_nil_r. split; [reflexivity | constructor].
Qed.

(** ** The results of a batch *)

Lemma overall_failed_forallb results :
  overall_failed results = forallb r_failed results.
Proof.
  unfold overall_failed. induction results as [|r rs IH]; [reflexivity |].
  cbn [existsb forallb]. rewrite negb_orb, negb_involutive, IH. reflexivity.
Qed.

(** X10: what [main] hands to [exit_json] says [failed] exactly when every
    RPC of the batch failed: the flag of the one result when there is one,
    the conjunction of the flags otherwise, which makes an empty batch a
    failed one; a batch never says [changed]. *)
Theorem respond_failed_flag results m :
  exists kwargs,
    respond results m = exit_json kwargs m
    /\ In ("failed", VBool (forallb r_failed results)) kwargs
    /\ (length results <> 1%nat ->
        kwargs = [("results", VList (map result_value results));
                  ("changed", VBool false);
                  ("failed", VBool (forallb r_failed results))]).
Proof.
  destruct results as [|r [|r' rs]].
  - eexists. split; [reflexivity |]. split; [| reflexivity].
    right. right. left. reflexivity.
  - exists (result_kwargs r). split; [reflexivity |]. split.
    + cbn [forallb]. rewrite andb_true_r. unfold result_kwargs.
      do 6 right. left. reflexivity.
    + intros H. destruct (H eq_refl).
  - eexists. split; [reflexivity |].
    rewrite overall_failed_forallb. split; [| reflexivity].
    right. right. left. reflexivity.
Qed.

Definition succeeded (r : Result) : Prop :=
  r_msg r = "The RPC executed successfully."
  \/ r_msg r = get_config_executed.

(** What an iteration keeps of the result it starts with. *)
Definition carried (r0 r : Result) : Prop :=
  r_rpc r = r_rpc r0 /\ r_format r = r_format r0 /\ r_kwargs r = r_kwargs r0
  /\ r_changed r = r_changed r0 /\ r_failed r = r_failed r0.

Lemma execute_rpc_tried iw rpc_string format kwarg attr resp result :
  returns (fun t => carried result (tried_result t)
                    /\ match t with
                       | Failed r => ~ succeeded r
                       | Executed _ r => succeeded r
                       end)
          (execute_rpc iw rpc_string format kwarg attr resp result).
Proof.
  assert (Hfail : forall rpc r ex,
             carried result r ->
             returns (fun t => carried result (tried_result t)
                               /\ match t with
                                  | Failed r => ~ succeeded r
                                  | Executed _ r => succeeded r
                                  end)
                     (rpc_failed rpc r ex)).
  { intros rpc r ex Hr. apply returns_ret. split; [exact Hr |].
    intros [H|H]; discriminate H. }
  assert (Hshared : carried result
                      match attr with
                      | VDict d => set_attrs (VDict (with_format format d)) result
                      | _ => result
                      end).
  { destruct attr; repeat split. }
  unfold execute_rpc. apply returns_bind. intros is_local.
  apply returns_if.
  - cbv zeta. apply returns_try; [| intros e; apply Hfail, Hshared].
    apply returns_bind. intros f.
    apply returns_bind. intros a. apply returns_bind. intros k.
    apply returns_bind. intros r. apply returns_ret.
    split; [exact Hshared | right; reflexivity].
  - apply returns_bind. intros rpc.
    apply returns_try; [| intros e; apply Hfail; repeat split].
    apply returns_bind. intros r. apply returns_ret.
    split; [repeat split | left; reflexivity].
Qed.

Lemma outputs_refused format resp :
  returns (fun out => forall msg, out = inl msg ->
                        msg <> "The RPC executed successfully."
                        /\ msg <> get_config_executed)
          (outputs format resp).
Proof.
  assert (Hformat : forall text,
             returns (fun out : string + Value * Value =>
                        forall msg, out = inl msg ->
                          msg <> "The RPC executed successfully."
                          /\ msg <> get_config_executed)
               (if String.eqb format "text" then
                  text_output <- text ;; ret (inr (text_output, VNone))
                else if String.eqb format "xml" then
                  ret (inr (VStr (etree_tostring lib resp),
                            jxmlease_parse_etree lib resp))
                else if String.eqb format "json" then
                  ret (inr (VStr (py_str lib resp), resp))
                else ret (inl ("Unexpected format " ++ format ++ ".")))).
  { intros text. repeat apply returns_if.
    - apply returns_bind. intros t. apply returns_ret. discriminate.
    - apply returns_ret. discriminate.
    - apply returns_ret. discriminate.
    - apply returns_ret. intros msg E. injection E as <-.
      split; discriminate. }
  unfold outputs.
  destruct resp as [| [|] | | | | | |];
    try apply Hformat;
    apply returns_ret; intros msg E; try discriminate E;
    injection E as <-; split; discriminate.
Qed.

Lemma returns_bind_post {A B} (Q1 : A -> Prop) (Q : B -> Prop)
      (c : M A) (k : A -> M B) :
  returns Q1 c -> (forall a, Q1 a -> returns Q (k a)) -> returns Q (bind c k).
Proof.
  intros Hc Hk m b m' E. unfold bind in E.
  destruct (c m) as [[a|e] m1] eqn:Ec; [| inversion E].
  apply (Hk a (Hc m a m1 Ec) m1 b m' E).
Qed.

(** The result that answers one item of the batch. *)
Definition answers (item : string * string * Value * Value) (r : Result)
  : Prop :=
  let '(rpc_string, format, kwarg, _) := item in
  r_rpc r = PyStr.replace_char "_" "-" rpc_string
  /\ r_format r = format /\ r_kwargs r = kwarg /\ r_changed r = false
  /\ (r_failed r = false <-> succeeded r).

Lemma dispatch_one_answers iw item resp :
  returns (fun step => answers item (snd step)) (dispatch_one iw item resp).
Proof.
  destruct item as [[[rpc_string format] kwarg] attr].
  unfold dispatch_one. intros m a m' E. unfold bind at 1 in E.
  match type of E with
  | context [execute_rpc ?i ?r ?f ?k ?a0 ?rs ?res m] =>
      pose proof (@execute_rpc_tried i r f k a0 rs res m) as Hex;
      destruct (execute_rpc i r f k a0 rs res m) as [[t|e] m1];
      [specialize (Hex t m1 eq_refl) | inversion E]
  end.
  destruct Hex as [(Hr & Hf & Hk & Hc & Hfl) Hs].
  destruct t as [r|resp' r]; cbn [tried_result r_rpc r_format r_kwargs r_changed
                                   r_failed] in Hr, Hf, Hk, Hc, Hfl.
  - injection E as <- <-. cbn [snd answers].
    repeat (split; [assumption |]).
    split; intros H; [rewrite Hfl in H; discriminate H | destruct (Hs H)].
  - match type of E with
    | ?c m1 = _ =>
        assert (Hret : returns
                         (fun step =>
                            answers (rpc_string, format, kwarg, attr) (snd step))
                         c);
        [| exact (Hret m1 a m' E)]
    end.
    apply returns_bind. intros v.
    apply returns_bind_post with (1 := outputs_refused format v).
    intros [msg|[text parsed]] Hout.
    + apply returns_ret. cbn [snd answers set_msg r_rpc r_format r_kwargs
                               r_changed r_failed].
      repeat (split; [assumption |]).
      destruct (Hout msg eq_refl) as [H1 H2].
      split; intros H; [rewrite Hfl in H; discriminate H |].
      destruct H as [H|H]; cbn [r_msg] in H; [destruct (H1 H) | destruct (H2 H)].
    + apply returns_bind. intros ro. apply returns_bind. intros _.
      apply returns_ret. cbn [snd answers r_rpc r_format r_kwargs
                               r_changed r_failed].
      repeat (split; [first [assumption | reflexivity] |]).
      split; [intros _; exact Hs | reflexivity].
Qed.

Lemma dispatch_answers iw items resp acc m results m' :
  dispatch iw items resp acc m = (Ret results, m') ->
  exists rs, results = (acc ++ rs)%list /\ Forall2 answers items rs.
Proof.
  revert resp acc m.
  induction items as [|item items IH]; intros resp acc m; cbn [dispatch].
  - intros E. inversion E. subst. exists []. rewrite app_nil_r.
    split; [reflexivity | constructor].
  - unfold bind at 1.
    destruct (dispatch_one iw item resp m) as [[[resp' r]|e] m1] eqn:E1;
      [| discriminate].
    intros E. apply IH in E. destruct E as [rs [-> Hrs]].
    exists (r :: rs). rewrite <- app_assoc. split; [reflexivity |].
    constructor; [| exact Hrs].
    apply (@dispatch_one_answers iw item resp m (resp', r) m1 E1).
Qed.

(** X11: when the loop of [main] ends, there is one result per item of
    the batch, in the order of the request; each names its RPC with dashes
    for underscores, carries the format and the arguments it was sent
    with, never says [changed], and is marked as not failed exactly when
    its message is that of a successful execution. *)
Theorem dispatch_results iw items m results m' :
  dispatch iw items None [] m = (Ret results, m') ->
  Forall2 answers items results /\ length results = length items.
Proof.
  intros E. apply dispatch_answers in E. destruct E as [rs [-> Hrs]].
  cbn [app]. split; [exact Hrs |].
  symmetry. apply (Forall2_length Hrs).
Qed.

(** ** Saving the output *)

Definition unable_to_save (file_path : string) : string :=
  "Unable to save output. Failed to open the " ++ file_path ++ " file.".

Definition is_IOError (e : Exc) : bool :=
  match exc_class e with IOError => true | _ => false end.

(** The mode [save_text_output] opens [dest] in. *)
Definition dest_mode (m : Module) : string :=
  if is_some (destfile m) then "ab" else "wb".

Lemma save_text_output_dest name format text m dest :
  p_dest (params m) = Some dest -> String.eqb name "diff" = false ->
  save_text_output name format text m
  = try_except
      (call_ (SaveFile (normpath lib dest) (dest_mode m) text))
      is_IOError
      (fun _ => fail_json (unable_to_save (normpath lib dest)))
      (match destfile m with
       | None => set_destfile (Some dest) m
       | Some _ => m
       end).
Proof.
  intros Hdest Hname. unfold save_text_output, dest_mode.
  cbv beta iota delta [bind get]. rewrite Hname, Hdest.
  cbv beta iota delta [bind get].
  destruct (destfile m) as [f|]; reflexivity.
Qed.

Lemma stable_destfile : stable (fun m => is_some (destfile m) = true).
Proof.
  constructor.
  - intros c m H. exact H.
  - intros d m H. exact H.
  - intros m H. exact H.
Qed.

Lemma save_text_output_run name format text m dest :
  p_dest (params m) = Some dest -> String.eqb name "diff" = false ->
  let m1 := snd (save_text_output name format text m) in
  (exists rest,
      trace m1
      = (trace m ++ SaveFile (normpath lib dest) (dest_mode m) text :: rest)%list
      /\ Forall failure_call rest)
  /\ is_some (destfile m1) = true
  /\ params m1 = params m.
Proof.
  intros Hdest Hname. cbn zeta.
  rewrite (save_text_output_dest name format text m Hdest Hname).
  set (m0 := match destfile m with
             | None => set_destfile (Some dest) m
             | Some _ => m
             end).
  assert (Ht : trace m0 = trace m) by (unfold m0; destruct (destfile m); reflexivity).
  assert (Hp : params m0 = params m) by (unfold m0; destruct (destfile m); reflexivity).
  assert (Hf : is_some (destfile m0) = true)
    by (unfold m0; destruct (destfile m) eqn:E; [rewrite E |]; reflexivity).
  set (c := SaveFile (normpath lib dest) (dest_mode m) text).
  unfold try_except. rewrite call__run, Ht.
  assert (Hlog : trace (log_call c m0) = (trace m ++ [c])%list)
    by (cbn [trace log_call]; rewrite Ht; reflexivity).
  destruct (env (trace m) c) as [v|e].
  - cbn [snd]. split; [exists []; split; [exact Hlog | constructor] |].
    split; [exact Hf | exact Hp].
  - destruct (is_IOError e).
    + destruct (@emits_fail_json failure_call
                  (unable_to_save (normpath lib dest)) (fun _ H => H)
                  (log_call c m0)) as [rest [Hrest Hall]].
      pose proof (@keeps_fail_json _ (unable_to_save (normpath lib dest))
                    stable_destfile (log_call c m0) Hf) as Hf'.
      pose proof (@keeps_fail_json _ (unable_to_save (normpath lib dest))
                    (stable_params (params m)) (log_call c m0) Hp) as Hp'.
      split; [| split; assumption].
      exists rest. rewrite Hrest, Hlog, <- app_assoc. split; [reflexivity | exact Hall].
    + cbn [snd]. split; [exists []; split; [exact Hlog | constructor] |].
      split; [exact Hf | exact Hp].
Qed.

(** X12: with the [dest] option set, the first output of a run is written
    to that file with mode "wb" and every later one is appended with mode
    "ab": once [save_text_output] has been called, whatever the name and
    the format, the next call appends to the same path. *)
Theorem save_text_output_appends name format text name' format' text' m dest :
  p_dest (params m) = Some dest ->
  String.eqb name "diff" = false -> String.eqb name' "diff" = false ->
  let m1 := snd (save_text_output name format text m) in
  let m2 := snd (save_text_output name' format' text' m1) in
  (destfile m = None ->
   exists rest,
     trace m1 = (trace m ++ SaveFile (normpath lib dest) "wb" text :: rest)%list
     /\ Forall failure_call rest)
  /\ exists rest',
       trace m2
       = (trace m1 ++ SaveFile (normpath lib dest) "ab" text' :: rest')%list
       /\ Forall failure_call rest'.
Proof.
  intros Hdest Hname Hname'. cbn zeta.
  destruct (save_text_output_run name format text m Hdest Hname)
    as [Hfirst [Hfile Hparams]].
  split.
  - intros Hnone. unfold dest_mode in Hfirst. rewrite Hnone in Hfirst.
    exact Hfirst.
  - rewrite <- Hparams in Hdest.
    destruct (save_text_output_run name' format' text' _ Hdest Hname')
      as [Hsecond _].
    unfold dest_mode in Hsecond. rewrite Hfile in Hsecond. exact Hsecond.
Qed.

(** ** Loading a configuration *)

Definition newline : ascii := "010"%char.

Fixpoint lstrip_newlines (s : string) : string :=
  match s with
  | String c rest => if Ascii.eqb c newline then lstrip_newlines rest else s
  | EmptyString => EmptyString
  end.

(** [line.rstrip("\n")] *)
Definition rstrip_newlines (s : string) : string :=
  PyStr.rev_string EmptyString (lstrip_newlines (PyStr.rev_string EmptyString s)).

(** [load_args[k] = True] under a condition. *)
Definition flag (b : bool) (k : string) : list (string * Value) :=
  if b then [(k, VBool true)] else [].

(** Lines 1609-1641 of [load_configuration]: the dict [load_args], its keys
    in the order they are set. *)
Definition load_args (abspath : string -> string) (action : string)
           (src template : option string) (vars : Value) (url : option string)
           (ignore_warning : Value) (format : option string)
  : list (string * Value) :=
  let format := if String.eqb action "set" then Some "set" else format in
  ((if is_None ignore_warning then []
    else [("ignore_warning", ignore_warning)])
   ++ opt_entry "format" (option_map VStr format)
   ++ flag (String.eqb action "merge") "merge"
   ++ flag (String.eqb action "override" || String.eqb action "overwrite")
           "overwrite"
   ++ flag (String.eqb action "update") "update"
   ++ flag (String.eqb action "patch") "patch"
   ++ opt_entry "path" (option_map (fun s => VStr (abspath s)) src)
   ++ match template with
      | Some t => [("template_path", VStr t); ("template_vars", vars)]
      | None => []
      end
   ++ opt_entry "url" (option_map VStr url))%list.

(** Line 1626: the text made of [lines]. *)
Definition load_text (lines : option (list string)) : option string :=
  option_map (fun l => PyStr.join (String newline "") (map rstrip_newlines l))
             lines.

Definition kwargs_value (kwargs : list (string * Value)) : Value :=
  VDict (map (fun kv => (VStr (fst kv), snd kv)) kwargs).

(** [JuniperJunosModule.load_configuration], with [self.config.load] and
    [os.path.abspath] as parameters. *)
Definition load_configuration
           (config_load : option string -> list (string * Value) -> M unit)
           (abspath : string -> string) (action : string)
           (lines : option (list string)) (src template : option string)
           (vars : Value) (url : option string) (ignore_warning : Value)
           (format : option string) : M unit :=
  is_local <- get local ;;
  (if is_local then
     d <- get dev ;;
     c <- get config ;;
     when (is_none d || is_none c) then
       fail_json "The device or configuration is not open."
   else ret tt) ;;
  let args :=
    load_args abspath action src template vars url ignore_warning format in
  let config := load_text lines in
  if negb is_local then
    call_ (Broker "load_configuration" [opt_value config; kwargs_value args])
  else
    try_except
      (config_load config args)
      is_pyez_error
      (fun ex =>
         fail_json ("Failure loading the configuraton: " ++ exc_str ex)).

Lemma in_flag k v b k' :
  In (k, v) (flag b k') <-> b = true /\ k = k' /\ v = VBool true.
Proof.
  unfold flag. destruct b; cbn [In].
  - split.
    + intros [H|[]]. injection H as <- <-. repeat split.
    + intros (_ & -> & ->). left. reflexivity.
  - split; [intros [] | intros (H & _); discriminate H].
Qed.

Lemma in_opt_entry k v k' o :
  In (k, v) (opt_entry k' o) <-> k = k' /\ o = Some v.
Proof.
  unfold opt_entry. destruct o as [v'|]; cbn [In].
  - split.
    + intros [H|[]]. injection H as <- <-. split; reflexivity.
    + intros (-> & H). injection H as ->. left. reflexivity.
  - split; [intros [] | intros (_ & H); discriminate H].
Qed.

(** Membership in [load_args], key by key. *)
Lemma in_load_args abspath action src template vars url iw format k v :
  In (k, v) (load_args abspath action src template vars url iw format)
  <-> (k = "ignore_warning" /\ v = iw /\ is_None iw = false)
      \/ (k = "format"
          /\ exists f, (if String.eqb action "set" then Some "set" else format)
                       = Some f /\ v = VStr f)
      \/ (k = "merge" /\ v = VBool true /\ action = "merge")
      \/ (k = "overwrite" /\ v = VBool true
          /\ (action = "override" \/ action = "overwrite"))
      \/ (k = "update" /\ v = VBool true /\ action = "update")
      \/ (k = "patch" /\ v = VBool true /\ action = "patch")
      \/ (k = "path" /\ exists s, src = Some s /\ v = VStr (abspath s))
      \/ (exists t, template = Some t
                    /\ ((k = "template_path" /\ v = VStr t)
                        \/ (k = "template_vars" /\ v = vars)))
      \/ (k = "url" /\ exists u, url = Some u /\ v = VStr u).
Proof.
  unfold load_args. cbv zeta. rewrite !in_app_iff, !in_flag, !in_opt_entry.
  rewrite orb_true_iff, !String.eqb_eq.
  assert (Hiw : In (k, v) (if is_None iw then [] else [("ignore_warning", iw)])
                <-> k = "ignore_warning" /\ v = iw /\ is_None iw = false).
  { destruct (is_None iw); cbn [In].
    - split; [intros [] | intros (_ & _ & H); discriminate H].
    - split.
      + intros [H|[]]. injection H as <- <-. repeat split.
      + intros (-> & -> & _). left. reflexivity. }
  assert (Hformat : forall o : option string,
             option_map VStr o = Some v
             <-> exists f, o = Some f /\ v = VStr f).
  { intros [s|]; cbn [option_map]; split.
    - intros H. injection H as <-. exists s. split; reflexivity.
    - intros (f & H & ->). injection H as ->. reflexivity.
    - discriminate.
    - intros (f & H & _). discriminate H. }
  assert (Hpath : option_map (fun s => VStr (abspath s)) src = Some v
                  <-> exists s, src = Some s /\ v = VStr (abspath s)).
  { destruct src as [s|]; cbn [option_map]; split.
    - intros H. injection H as <-. exists s. split; reflexivity.
    - intros (s' & H & ->). injection H as ->. reflexivity.
    - discriminate.
    - intros (s' & H & _). discriminate H. }
  assert (Hurl : option_map VStr url = Some v
                 <-> exists u, url = Some u /\ v = VStr u).
  { destruct url as [u|]; cbn [option_map]; split.
    - intros H. injection H as <-. exists u. split; reflexivity.
    - intros (u' & H & ->). injection H as ->. reflexivity.
    - discriminate.
    - intros (u' & H & _). discriminate H. }
  assert (Htemplate :
            In (k, v) match template with
                      | Some t => [("template_path", VStr t);
                                   ("template_vars", vars)]
                      | None => []
                      end
            <-> exists t, template = Some t
                          /\ ((k = "template_path" /\ v = VStr t)
                              \/ (k = "template_vars" /\ v = vars))).
  { destruct template as [t|]; cbn [In]; split.
    - intros [H|[H|[]]]; injection H as <- <-; exists t;
        (split; [reflexivity |]); [left | right]; split; reflexivity.
    - intros (t' & H & [[-> ->]|[-> ->]]); injection H as ->;
        [left | right; left]; reflexivity.
    - intros [].
    - intros (t' & H & _). discriminate H. }
  rewrite Hiw, Hformat, Hpath, Hurl, Htemplate. tauto.
Qed.


(** X18: what [load_configuration] hands to the load: the action "set"
    forces the format "set" whatever format was asked for; "override" and
    "overwrite" both set the flag [overwrite]; and of the flags [merge],
    [overwrite], [update] and [patch] only the one of the action is ever
    set, so that "replace" and "set" set none.  On a delegated connection
    these arguments and the text of the lines are all that is sent, in one
    call of the broker, without a look at the session. *)
Theorem load_args_action abspath action src template vars url iw format :
  let args := load_args abspath action src template vars url iw format in
  (forall v, action = "set" -> (In ("format", v) args <-> v = VStr "set"))
  /\ (In ("overwrite", VBool true) args
      <-> action = "override" \/ action = "overwrite")
  /\ (forall k v,
         In k ["merge"; "overwrite"; "update"; "patch"] -> In (k, v) args ->
         v = VBool true
         /\ (k = action \/ (k = "overwrite" /\ action = "override")))
  /\ (forall config_load lines m,
         local m = false ->
         load_configuration config_load abspath action lines src template
                            vars url iw format m
         = call_ (Broker "load_configuration"
                    [opt_value (load_text lines); kwargs_value args]) m).
Proof.
  cbv zeta. split; [| split; [| split]].
  - intros v ->. rewrite in_load_args. cbn [String.eqb Ascii.eqb Bool.eqb].
    split.
    + intros [(H & _)|[(_ & f & Hf & ->)|[(H & _)|[(H & _)|[(H & _)|[(H & _)
               |[(H & _)|[(t & _ & [(H & _)|(H & _)])|(H & _)]]]]]]]];
        try discriminate H.
      injection Hf as <-. reflexivity.
    + intros ->. right. left. split; [reflexivity |].
      exists "set". split; reflexivity.
  - rewrite in_load_args. split.
    + intros [(H & _)|[(H & _)|[(H & _)|[(_ & _ & H)|[(H & _)|[(H & _)
               |[(H & _)|[(t & _ & [(H & _)|(H & _)])|(H & _)]]]]]]]];
        try discriminate H.
      exact H.
    + intros H. do 3 right. left. repeat split. exact H.
  - intros k v Hk. rewrite in_load_args.
    intros [(H & _)|[(H & _)|[(H & H1 & H2)|[(H & H1 & H2)|[(H & H1 & H2)
             |[(H & H1 & H2)|[(H & _)|[(t & _ & [(H & _)|(H & _)])|(H & _)]]]]]]]];
      subst k;
      try (destruct Hk as [Hk|[Hk|[Hk|[Hk|[]]]]]; discriminate Hk);
      (split; [exact H1 |]).
    + left. symmetry. exact H2.
    + destruct H2 as [H2|H2]; [right; split; [reflexivity | exact H2] |].
      left. symmetry. exact H2.
    + left. symmetry. exact H2.
    + left. symmetry. exact H2.
  - intros config_load lines m Hl. unfold load_configuration.
    cbv beta iota zeta delta [bind get ret]. rewrite Hl. reflexivity.
Qed.

(** ** What the checks of [main] let through *)

Section Checked.

Hypothesis Hexit : parent_exits.

Lemma returns_fail_json {A} (Q : A -> Prop) msg (k : M A) :
  returns Q (fail_json msg ;; k).
Proof.
  intros m a m' E. destruct (@fail_json_raises msg m Hexit) as (e & m1 & Hr).
  unfold bind in E. rewrite Hr in E. discriminate E.
Qed.

Lemma returns_guard (b : bool) msg (Q : unit -> Prop) :
  (b = false -> Q tt) -> returns Q (when b then fail_json msg).
Proof.
  intros H. destruct b.
  - intros m a m' E. destruct (@fail_json_raises msg m Hexit) as (e & m1 & Hr).
    rewrite Hr in E. discriminate E.
  - apply returns_ret, H. reflexivity.
Qed.

Lemma check_formats_length rpcs :
  returns (fun fs => rpcs <> [] -> length fs = length rpcs)
          (check_formats (Some rpcs)).
Proof.
  unfold check_formats. apply returns_bind. intros formats.
  cbv zeta. set (F := match formats with None => ["xml"] | Some f => f end).
  apply returns_bind. intros _. cbn [len_rpcs].
  destruct (length F =? 1)%nat eqn:HF; cbn [negb].
  - apply Nat.eqb_eq in HF.
    apply returns_bind_post
      with (Q1 := fun n => n = length rpcs); [apply returns_ret; reflexivity |].
    intros n ->.
    destruct (1 <? length rpcs)%nat eqn:Hn.
    + apply returns_ret. intros _.
      destruct F as [|x [|y F']]; try discriminate HF.
      rewrite concat_repeat_singleton. apply repeat_length.
    + apply returns_ret. intros Hne. apply Nat.ltb_ge in Hn.
      destruct rpcs as [|r rs]; [destruct (Hne eq_refl) |].
      cbn [length] in Hn |- *. lia.
  - apply returns_bind_post
      with (Q1 := fun n => n = length rpcs); [apply returns_ret; reflexivity |].
    intros n ->.
    apply returns_bind_post
      with (Q1 := fun _ => negb (length F =? length rpcs)%nat = false).
    + apply returns_guard. intros H. exact H.
    + intros _ H. apply returns_ret. intros _.
      apply negb_false_iff, Nat.eqb_eq in H. exact H.
Qed.

Lemma check_bundle_length option_name sep string_val allow rpcs :
  returns (fun bundle => length bundle = length rpcs)
          (check_bundle option_name sep string_val allow (Some rpcs)).
Proof.
  unfold check_bundle. apply returns_bind. intros [bundle|]; cbn [len_rpcs].
  - apply returns_bind_post
      with (Q1 := fun n => n = length rpcs); [apply returns_ret; reflexivity |].
    intros n ->.
    apply returns_bind_post
      with (Q1 := fun _ => negb (length bundle =? length rpcs)%nat = false).
    + apply returns_guard. intros H. exact H.
    + intros _ H. apply returns_ret.
      apply negb_false_iff, Nat.eqb_eq in H. exact H.
  - apply returns_bind_post
      with (Q1 := fun n => n = length rpcs); [apply returns_ret; reflexivity |].
    intros n ->. apply returns_ret, repeat_length.
Qed.

(** X13: where the parent's [fail_json] ends the process, the checks of
    [main] let a request through only with a list of RPCs and with as many
    kwargs and attrs as RPCs, and, when there is an RPC at all, as many
    formats: the loop then runs once per RPC, none is dropped by [zip]. *)
Theorem validate_lengths rpcs m iw r fs ks ats m' :
  p_rpcs (params m) = Some rpcs ->
  validate m = (Ret (iw, (r, fs, ks, ats)), m') ->
  r = Some rpcs
  /\ length ks = length rpcs /\ length ats = length rpcs
  /\ (rpcs <> [] ->
      length fs = length rpcs
      /\ length (zip4 rpcs fs ks ats) = length rpcs).
Proof.
  intros Hrpcs E. unfold validate in E. unfold bind at 1, get in E.
  rewrite Hrpcs in E. cbn [is_none is_some negb] in E.
  match type of E with
  | ?c m = _ =>
      assert (Hret : returns
                (fun out : Value * (option (list string) * list string
                                    * list Value * list Value) =>
                   let '(_, (r, fs, ks, ats)) := out in
                   r = Some rpcs
                   /\ length ks = length rpcs /\ length ats = length rpcs
                   /\ (rpcs <> [] -> length fs = length rpcs)) c)
  end.
  { apply returns_bind. intros _. apply returns_bind. intros iw0.
    apply returns_bind_post with (1 := @check_formats_length rpcs).
    intros fs0 Hfs. apply returns_bind. intros kwstring.
    apply returns_bind_post
      with (1 := @check_bundle_length "kwargs" " " kwstring true rpcs).
    intros ks0 Hks. apply returns_bind. intros attrstring.
    apply returns_bind_post
      with (1 := @check_bundle_length "attrs" "" attrstring false rpcs).
    intros ats0 Hats. apply returns_bind. intros filter.
    apply returns_bind. intros _. apply returns_ret.
    repeat split; assumption. }
  destruct (Hret m _ m' E) as (Hr & Hks & Hats & Hfs).
  repeat (split; [assumption |]).
  intros Hne. specialize (Hfs Hne). split; [exact Hfs |].
  apply (zip4_formats rpcs fs ks ats Hfs Hks Hats).
Qed.

Lemma for_each_checked {A} (ok : A -> bool) (msg : A -> string) l :
  returns (fun _ => forallb ok l = true)
          (for_each l (fun x => when (negb (ok x)) then fail_json (msg x))).
Proof.
  induction l as [|x l IH]; cbn [for_each forallb].
  - apply returns_ret. reflexivity.
  - apply returns_bind_post with (Q1 := fun _ => negb (ok x) = false).
    + apply returns_guard. intros H. exact H.
    + intros _ Hx. apply negb_false_iff in Hx. rewrite Hx. exact IH.
Qed.

Lemma for_each_accepts {A} (ok : A -> bool) (msg : A -> string) l m :
  forallb ok l = true ->
  for_each l (fun x => when (negb (ok x)) then fail_json (msg x)) m
  = (Ret tt, m).
Proof.
  induction l as [|x l IH]; cbn [for_each forallb]; intros H; [reflexivity |].
  apply andb_true_iff in H. destruct H as [Hx Hl].
  cbv beta delta [bind]. rewrite Hx. cbv beta iota delta [negb ret].
  apply IH, Hl.
Qed.

Lemma for_each_refuses {A} (ok : A -> bool) (msg : A -> string) l m :
  forallb ok l = false ->
  raises (for_each l (fun x => when (negb (ok x)) then fail_json (msg x))) m.
Proof.
  induction l as [|x l IH]; cbn [for_each forallb]; intros H;
    [discriminate H |].
  destruct (ok x) eqn:Hx.
  - cbn [andb] in H. destruct (IH H) as (e & m' & E).
    exists e, m'. cbv beta iota delta [bind negb ret]. exact E.
  - apply raises_bind_l. cbn [negb]. apply fail_json_raises, Hexit.
Qed.

(** What [open_configuration] may be given as [ignore_warning]. *)
Definition ignore_warning_value (v : Value) : Prop :=
  v = VNone \/ (exists b, v = VBool b) \/ (exists s, v = VStr s)
  \/ exists l, v = VList l /\ (2 <= length l)%nat /\ forallb is_str l = true.

(** The values of the option that are refused. *)
Definition refused_ignore_warning (l : list Value) : Prop :=
  l = []
  \/ (exists x, l = [x] /\ boolean lib x = None /\ is_str x = false)
  \/ ((2 <= length l)%nat /\ forallb is_str l = false).

(** X19: where the parent's [fail_json] ends the process,
    [parse_ignore_warning_option] returns [None] for no option; for a list
    of one value the boolean it stands for, or else the value itself when
    it is a string; for a list of two or more strings the whole list,
    unchanged; and it leaves the module object as it is.  An empty list, a
    single value that is neither, and a longer list with an element that
    is no string are refused: the method does not return, and makes only
    the calls of [fail_json].  So whatever it returns is [None], a
    boolean, a string or a list of at least two strings. *)
Theorem parse_ignore_warning_option_value m :
  (p_ignore_warning (params m) = None ->
   parse_ignore_warning_option m = (Ret VNone, m))
  /\ (forall x b,
         p_ignore_warning (params m) = Some [x] -> boolean lib x = Some b ->
         parse_ignore_warning_option m = (Ret (VBool b), m))
  /\ (forall s,
         p_ignore_warning (params m) = Some [VStr s] ->
         boolean lib (VStr s) = None ->
         parse_ignore_warning_option m = (Ret (VStr s), m))
  /\ (forall l,
         p_ignore_warning (params m) = Some l ->
         (2 <= length l)%nat -> forallb is_str l = true ->
         parse_ignore_warning_option m = (Ret (VList l), m))
  /\ (forall l,
         p_ignore_warning (params m) = Some l -> refused_ignore_warning l ->
         raises parse_ignore_warning_option m
         /\ exists evs,
              trace (snd (parse_ignore_warning_option m))
              = (trace m ++ evs)%list
              /\ Forall failure_call evs)
  /\ (forall v m',
         parse_ignore_warning_option m = (Ret v, m') ->
         ignore_warning_value v /\ m' = m).
Proof.
  assert (Hrun : forall o, p_ignore_warning (params m) = o ->
            parse_ignore_warning_option m
            = match o with
              | None => ret VNone
              | Some [x] =>
                  match boolean lib x with
                  | Some bool_val => ret (VBool bool_val)
                  | None => if is_str x then ret x
                            else fail_json (invalid_ignore_warning x) ;;
                                 ret VNone
                  end
              | Some ((x :: y :: rest) as l) =>
                  for_each l (fun ignore_warn =>
                    when (negb (is_str ignore_warn)) then
                      fail_json (invalid_ignore_warning_element l ignore_warn)) ;;
                  ret (VList l)
              | Some [] => fail_json (invalid_ignore_warning_list []) ;; ret VNone
              end m).
  { intros o <-. reflexivity. }
  assert (Hcalls : exists evs,
             trace (snd (parse_ignore_warning_option m)) = (trace m ++ evs)%list
             /\ Forall failure_call evs).
  { apply (@emits_parse_ignore_warning_option failure_call (fun c H => H) m). }
  assert (Hlong : forall l : list Value, (2 <= length l)%nat ->
            exists x y rest, l = x :: y :: rest).
  { intros [|x [|y rest]] H; cbn [length] in H; try lia. eauto. }
  assert (Hval : forall l,
            p_ignore_warning (params m) = Some l ->
            (2 <= length l)%nat -> forallb is_str l = true ->
            parse_ignore_warning_option m = (Ret (VList l), m)).
  { intros l Hl Hlen Hstr. destruct (Hlong l Hlen) as (x & y & rest & ->).
    rewrite (Hrun _ Hl). unfold bind.
    rewrite (for_each_accepts is_str _ (x :: y :: rest) m Hstr). reflexivity. }
  assert (Hrefused : forall l,
            p_ignore_warning (params m) = Some l -> refused_ignore_warning l ->
            raises parse_ignore_warning_option m).
  { intros l Hl [->|[(x & -> & Hb & Hx)|[Hlen Hstr]]]; unfold raises;
      rewrite (Hrun _ Hl).
    - apply raises_bind_l, fail_json_raises, Hexit.
    - rewrite Hb, Hx. apply raises_bind_l, fail_json_raises, Hexit.
    - destruct (Hlong l Hlen) as (x & y & rest & ->).
      apply raises_bind_l, for_each_refuses, Hstr. }
  split; [| split; [| split; [| split; [| split]]]].
  - intros Hn. rewrite (Hrun _ Hn). reflexivity.
  - intros x b Hl Hb. rewrite (Hrun _ Hl), Hb. reflexivity.
  - intros s Hl Hb. rewrite (Hrun _ Hl), Hb. reflexivity.
  - exact Hval.
  - intros l Hl Href. split; [apply (Hrefused l Hl Href) | exact Hcalls].
  - intros v m' E.
    destruct (p_ignore_warning (params m)) as [l|] eqn:Hl.
    + destruct l as [|x [|y rest]].
      * destruct (Hrefused [] eq_refl (or_introl eq_refl)) as (e & m1 & Hr).
        rewrite Hr in E. discriminate E.
      * rewrite (Hrun _ eq_refl) in E.
        destruct (boolean lib x) as [b|] eqn:Hb.
        -- cbv beta delta [ret] in E; injection E as <- <-. split; [| reflexivity].
           right. left. exists b. reflexivity.
        -- destruct x; cbn [is_str] in E;
             try (match type of E with
                  | context [fail_json ?msg] =>
                      destruct (@fail_json_raises msg m Hexit) as (e & m1 & Hr)
                  end;
                  unfold bind in E; rewrite Hr in E; discriminate E).
           cbv beta delta [ret] in E; injection E as <- <-. split; [| reflexivity].
           right. right. left. eexists. reflexivity.
      * destruct (forallb is_str (x :: y :: rest)) eqn:Hstr.
        -- rewrite (Hval (x :: y :: rest) eq_refl) in E;
             [| cbn [length]; lia | exact Hstr].
           cbv beta delta [ret] in E; injection E as <- <-. split; [| reflexivity].
           do 3 right. exists (x :: y :: rest).
           split; [reflexivity |]. split; [cbn [length]; lia | exact Hstr].
        -- destruct (Hrefused (x :: y :: rest) eq_refl) as (e & m1 & Hr).
           ++ right. right. split; [cbn [length]; lia | exact Hstr].
           ++ rewrite Hr in E. discriminate E.
    + rewrite (Hrun _ eq_refl) in E. cbv beta delta [ret] in E; injection E as <- <-.
      split; [left |]; reflexivity.
Qed.

(** A dict all of whose keys are strings. *)
Definition str_keys (d : list (Value * Value)) : Prop :=
  Forall (fun kv => is_str (fst kv) = true) d.

Definition str_keyed (v : Value) : Prop :=
  exists d, v = VDict d /\ str_keys d.

Lemma dict_set_str_keys k v d : str_keys d -> str_keys (dict_set k v d).
Proof.
  unfold str_keys. induction d as [|[k' v'] d IH]; intros H; cbn [dict_set].
  - constructor; [reflexivity | constructor].
  - inversion H as [|? ? Hk Hd]. subst. cbn [fst] in Hk.
    destruct k'; try discriminate Hk.
    destruct (String.eqb k s).
    + constructor; [reflexivity | exact Hd].
    + constructor; [reflexivity | apply IH, Hd].
Qed.

Lemma checked_items_str_keys option_name string_val allow items acc :
  str_keys acc ->
  returns str_keys (checked_items option_name string_val allow items acc).
Proof.
  revert acc. induction items as [|[k v] items IH]; intros acc Hacc;
    cbn [checked_items].
  - apply returns_ret, Hacc.
  - apply returns_bind_post with (Q1 := fun _ => negb (is_str k) = false).
    + apply returns_guard. intros H. exact H.
    + intros _ Hk. destruct k; try discriminate Hk.
      apply IH, dict_set_str_keys, Hacc.
Qed.

Lemma checked_dicts_str_keyed option_name string_val allow kwargs acc :
  Forall str_keyed acc ->
  returns (Forall str_keyed)
          (checked_dicts option_name string_val allow kwargs acc).
Proof.
  revert allow acc. induction kwargs as [|kwarg kwargs IH]; intros allow acc Hacc;
    cbn [checked_dicts].
  - apply returns_ret, Hacc.
  - apply returns_bind. intros kw. apply returns_bind. intros _.
    destruct kw; try apply returns_raise.
    destruct (pop_allow_bool_values d) as [popped d'].
    apply returns_bind_post
      with (Q1 := str_keys);
      [apply checked_items_str_keys; constructor |].
    intros return_item Hitem. apply IH.
    apply Forall_app. split; [exact Hacc |].
    constructor; [| constructor]. exists return_item. split; [reflexivity | exact Hitem].
Qed.

(** X20: where the parent's [fail_json] ends the process, what
    [parse_arg_to_list_of_dicts] returns for a string is a list of dicts,
    each with strings for keys: anything else found in the value of the
    option is refused. *)
Theorem parse_arg_to_list_of_dicts_value option_name string_val allow m l m' :
  parse_arg_to_list_of_dicts option_name string_val allow m = (Ret (Some l), m') ->
  Forall str_keyed l.
Proof.
  intros E.
  assert (Hret : returns (fun o => forall l0, o = Some l0 -> Forall str_keyed l0)
                         (parse_arg_to_list_of_dicts option_name string_val allow)).
  { unfold parse_arg_to_list_of_dicts. destruct string_val as [s|].
    - apply returns_bind. intros kwargs. apply returns_bind. intros _.
      apply returns_bind. intros elements.
      apply returns_bind_post
        with (1 := @checked_dicts_str_keyed option_name s (VBool allow)
                     elements [] (Forall_nil _)).
      intros return_val H. apply returns_ret. intros l0 E0.
      injection E0 as <-. exact H.
    - apply returns_ret. discriminate. }
  apply (Hret m _ m' E l eq_refl).
Qed.

End Checked.

End Junos.

(** * The version in a package name: modules/software.py *)

(** Known prefixes for filenames which contain Junos software packages. *)
Definition JUNOS_PACKAGE_PREFIXES : list string :=
  ["jbundle"; "jinstall"; "junos-install"; "junos-srx";
   "junos-vmhost-install"; "junos-vrr"; "vmx-bundle"; "junos-arm"].

(** [.*\d] taken greedily at the front of [s]: the characters up to the
    last digit of the line, the dot of a pattern matching all but the
    line feed. *)
Fixpoint upto_last_digit (s : string) : option string :=
  match s with
  | EmptyString => None
  | String c rest =>
      if Ascii.eqb c newline then None
      else match upto_last_digit rest with
           | Some t => Some (String c t)
           | None => if PyStr.is_digit c then Some (String c EmptyString)
                     else None
           end
  end.

(** A match of [-(\d{2}\..*\d).*] at the front of [s]: its group 1. *)
Definition version_here (s : string) : option string :=
  match s with
  | String c0 (String d1 (String d2 (String c3 rest))) =>
      if Ascii.eqb c0 "-" && PyStr.is_digit d1 && PyStr.is_digit d2
         && Ascii.eqb c3 "."
      then option_map (fun t => String d1 (String d2 (String c3 t)))
                      (upto_last_digit rest)
      else None
  | _ => None
  end.

(** [re.search(r"-(\d{2}\..*\d).*", s)]: group 1 of the leftmost match. *)
Fixpoint search_version (s : string) : option string :=
  match version_here s with
  | Some v => Some v
  | None =>
      match s with
      | EmptyString => None
      | String _ rest => search_version rest
      end
  end.

(** The loop of [parse_version_from_filename] over the prefixes. *)
Fixpoint version_for (prefixes : list string) (filename : string)
  : option string :=
  match prefixes with
  | [] => None
  | p :: rest =>
      if prefix p filename then
        match search_version filename with
        | Some v => Some v
        | None => version_for rest filename
        end
      else version_for rest filename
  end.

(** [parse_version_from_filename] *)
Definition parse_version_from_filename (filename : string) : option string :=
  version_for JUNOS_PACKAGE_PREFIXES filename.

(** A version as the pattern takes it: two digits, a dot, then anything on
    one line up to a last digit. *)
Definition version_text (v : string) : Prop :=
  exists d1 d2 body d3,
    v = String d1 (String d2 (String "." (body ++ String d3 "")))
    /\ PyStr.is_digit d1 = true /\ PyStr.is_digit d2 = true
    /\ PyStr.is_digit d3 = true
    /\ PyStr.str_in (String newline "") body = false.

Definition no_digit (s : string) : bool :=
  forallb (fun c => negb (PyStr.is_digit c)) (list_ascii_of_string s).

Definition no_dot (s : string) : bool :=
  forallb (fun c => negb (Ascii.eqb c ".")) (list_ascii_of_string s).

Lemma digit_not_newline c : PyStr.is_digit c = true -> Ascii.eqb c newline = false.
Proof.
  intros H. destruct (Ascii.eqb c newline) eqn:E; [| reflexivity].
  apply Ascii.eqb_eq in E. subst c. discriminate H.
Qed.

Lemma append_assoc (a b c : string) : ((a ++ b) ++ c = a ++ (b ++ c))%string.
Proof. induction a as [|x a IH]; [reflexivity |]. cbn [append]. rewrite IH. reflexivity. Qed.

Lemma str_in_cons_false a c s :
  PyStr.str_in (String a "") (String c s) = false ->
  Ascii.eqb a c = false /\ PyStr.str_in (String a "") s = false.
Proof.
  cbn [PyStr.str_in prefix]. destruct (ascii_dec a c) as [->|Hne].
  - destruct s; discriminate.
  - intros H. split; [apply Ascii.eqb_neq, Hne | exact H].
Qed.

Lemma upto_last_digit_none s : no_digit s = true -> upto_last_digit s = None.
Proof.
  unfold no_digit. induction s as [|c s IH]; [reflexivity |].
  cbn [list_ascii_of_string forallb upto_last_digit].
  intros H. apply andb_true_iff in H. destruct H as [Hc Hs].
  rewrite (IH Hs). apply negb_true_iff in Hc. rewrite Hc.
  destruct (Ascii.eqb c newline); reflexivity.
Qed.

Lemma upto_last_digit_found body d3 suffix :
  PyStr.str_in (String newline "") body = false ->
  PyStr.is_digit d3 = true -> no_digit suffix = true ->
  upto_last_digit (body ++ String d3 suffix) = Some (body ++ String d3 "").
Proof.
  intros Hbody Hd Hs. induction body as [|c body IH].
  - cbn [append upto_last_digit].
    rewrite (digit_not_newline d3 Hd), (upto_last_digit_none suffix Hs), Hd.
    reflexivity.
  - apply str_in_cons_false in Hbody. destruct Hbody as [Hc Hbody].
    cbn [append upto_last_digit]. rewrite Ascii.eqb_sym, Hc, (IH Hbody).
    reflexivity.
Qed.

Lemma prefix_cons c a b : prefix (String c a) (String c b) = prefix a b.
Proof. cbn [prefix]. destruct (ascii_dec c c) as [_|H]; [reflexivity | destruct (H eq_refl)]. Qed.

Lemma prefix_nil s : prefix "" s = true.
Proof. destruct s; reflexivity. Qed.

Lemma prefix_app_l q p x : prefix q p = true -> prefix q (p ++ x) = true.
Proof.
  revert p. induction q as [|c q IH]; intros p H; [apply prefix_nil |].
  destruct p as [|c' p]; [discriminate H |].
  cbn [append prefix] in H |- *.
  destruct (ascii_dec c c'); [apply IH, H | discriminate H].
Qed.

Lemma str_in_cons sub c s :
  PyStr.str_in sub s = true -> PyStr.str_in sub (String c s) = true.
Proof.
  intros H. cbn [PyStr.str_in]. destruct (prefix sub (String c s)); [reflexivity | exact H].
Qed.

Lemma str_in_prefix sub s : prefix sub s = true -> PyStr.str_in sub s = true.
Proof. intros H. destruct s; cbn [PyStr.str_in]; rewrite H; reflexivity. Qed.

(** What [.*\d] takes is a prefix of the text, on one line, with a digit
    at its end. *)
Lemma upto_last_digit_some s t :
  upto_last_digit s = Some t ->
  prefix t s = true
  /\ exists body d3,
       t = body ++ String d3 "" /\ PyStr.is_digit d3 = true
       /\ PyStr.str_in (String newline "") body = false.
Proof.
  revert t. induction s as [|c s IH]; intros t; cbn [upto_last_digit];
    [discriminate |].
  destruct (Ascii.eqb c newline) eqn:Hc; [discriminate |].
  destruct (upto_last_digit s) as [t'|].
  - intros E. injection E as <-.
    destruct (IH t' eq_refl) as [Hp (body & d3 & -> & Hd & Hb)].
    split; [rewrite prefix_cons; exact Hp |].
    exists (String c body), d3. split; [reflexivity |]. split; [exact Hd |].
    cbn [PyStr.str_in prefix].
    destruct (ascii_dec newline c) as [<-|_].
    + rewrite Ascii.eqb_refl in Hc. discriminate Hc.
    + exact Hb.
  - destruct (PyStr.is_digit c) eqn:Hd; [| discriminate].
    intros E. injection E as <-.
    split; [rewrite prefix_cons; apply prefix_nil |].
    exists "", c. repeat split. exact Hd.
Qed.

Lemma version_here_some s v :
  version_here s = Some v ->
  prefix (String "-" v) s = true /\ version_text v.
Proof.
  destruct s as [|c0 [|d1 [|d2 [|c3 rest]]]]; try discriminate.
  cbn [version_here].
  destruct (Ascii.eqb c0 "-") eqn:H0; [| discriminate].
  destruct (PyStr.is_digit d1) eqn:H1; [| discriminate].
  destruct (PyStr.is_digit d2) eqn:H2; [| discriminate].
  destruct (Ascii.eqb c3 ".") eqn:H3; [| discriminate].
  cbn [andb]. destruct (upto_last_digit rest) as [t|] eqn:Ht; [| discriminate].
  cbn [option_map]. intros E. injection E as <-.
  apply Ascii.eqb_eq in H0, H3. subst c0 c3.
  destruct (upto_last_digit_some rest Ht) as [Hp (body & d3 & -> & Hd & Hb)].
  split; [rewrite !prefix_cons; exact Hp |].
  exists d1, d2, body, d3. repeat split; assumption.
Qed.

Lemma search_version_some s v :
  search_version s = Some v ->
  PyStr.str_in (String "-" v) s = true /\ version_text v.
Proof.
  induction s as [|c s IH].
  - cbn [search_version version_here]. discriminate.
  - cbn [search_version].
    destruct (version_here (String c s)) as [v'|] eqn:E.
    + intros H. injection H as <-. apply version_here_some in E.
      destruct E as [Hp Hv]. split; [apply str_in_prefix, Hp | exact Hv].
    + intros H. destruct (IH H) as [Hin Hv].
      split; [apply str_in_cons, Hin | exact Hv].
Qed.

Lemma version_for_some prefixes filename v :
  version_for prefixes filename = Some v ->
  (exists q, In q prefixes /\ prefix q filename = true)
  /\ search_version filename = Some v.
Proof.
  induction prefixes as [|p rest IH]; cbn [version_for]; [discriminate |].
  destruct (prefix p filename) eqn:Hp.
  - destruct (search_version filename) as [v'|] eqn:Hs.
    + intros E. injection E as <-.
      split; [exists p; split; [left; reflexivity | exact Hp] | reflexivity].
    + intros E. destruct (IH E) as [_ H]. discriminate H.
  - intros E. destruct (IH E) as [(q & Hq & Hpq) H].
    split; [exists q; split; [right; exact Hq | exact Hpq] | exact H].
Qed.

Lemma version_for_found prefixes filename q v :
  In q prefixes -> prefix q filename = true ->
  search_version filename = Some v ->
  version_for prefixes filename = Some v.
Proof.
  intros Hq Hp Hs. induction prefixes as [|p rest IH]; [destruct Hq |].
  cbn [version_for]. rewrite Hs.
  destruct Hq as [->|Hq].
  - rewrite Hp. reflexivity.
  - destruct (prefix p filename); [reflexivity | apply IH, Hq].
Qed.

(** X16: a version parsed from a file name is text of that name that
    follows a dash: two digits, a dot, and the rest of the line up to its
    last digit; and the name begins with one of the known prefixes of a
    Junos package. *)
Theorem parse_version_shape filename v :
  parse_version_from_filename filename = Some v ->
  (exists q, In q JUNOS_PACKAGE_PREFIXES /\ prefix q filename = true)
  /\ PyStr.str_in (String "-" v) filename = true
  /\ version_text v.
Proof.
  intros E. apply version_for_some in E. destruct E as [Hq Hs].
  split; [exact Hq |]. apply search_version_some, Hs.
Qed.

Lemma version_here_before c p t :
  no_dot (String c p) = true ->
  (exists d1 d2 rest,
      t = String "-" (String d1 (String d2 rest))
      /\ PyStr.is_digit d1 = true /\ PyStr.is_digit d2 = true) ->
  version_here (String c (p ++ t)) = None.
Proof.
  intros Hp (d1 & d2 & rest & -> & H1 & H2).
  unfold no_dot in Hp. cbn [list_ascii_of_string forallb] in Hp.
  apply andb_true_iff in Hp. destruct Hp as [_ Hp].
  destruct p as [|a [|b [|c3 p]]]; cbn [append version_here].
  - destruct (Ascii.eqb c "-"); reflexivity.
  - destruct (Ascii.eqb c "-"), (PyStr.is_digit a); reflexivity.
  - change (Ascii.eqb "-" ".") with false. rewrite !andb_false_r. reflexivity.
  - cbn [list_ascii_of_string forallb] in Hp.
    apply andb_true_iff in Hp. destruct Hp as [_ Hp].
    apply andb_true_iff in Hp. destruct Hp as [_ Hp].
    apply andb_true_iff in Hp. destruct Hp as [Hp _].
    apply negb_true_iff in Hp. rewrite Hp, !andb_false_r. reflexivity.
Qed.

Lemma search_version_skip p t :
  no_dot p = true ->
  (exists d1 d2 rest,
      t = String "-" (String d1 (String d2 rest))
      /\ PyStr.is_digit d1 = true /\ PyStr.is_digit d2 = true) ->
  search_version (p ++ t) = search_version t.
Proof.
  intros Hp Ht. induction p as [|c p IH]; [reflexivity |].
  cbn [append search_version].
  rewrite (version_here_before c p Hp Ht). apply IH.
  unfold no_dot in Hp |- *. cbn [list_ascii_of_string forallb] in Hp.
  apply andb_true_iff in Hp. apply Hp.
Qed.

(** X17: the version written in a package name is recovered: for a name
    made of a stem that begins with a known prefix and has no dot, a dash,
    a version (two digits, a dot, more text on the line, a last digit) and
    an ending without a digit, [parse_version_from_filename] gives back
    that version. *)
Theorem parse_version_recovers q stem v ending :
  In q JUNOS_PACKAGE_PREFIXES -> prefix q stem = true -> no_dot stem = true ->
  version_text v -> no_digit ending = true ->
  parse_version_from_filename (stem ++ String "-" (v ++ ending)) = Some v.
Proof.
  intros Hq Hstem Hdot (d1 & d2 & body & d3 & -> & H1 & H2 & H3 & Hbody) Hend.
  apply version_for_found with (q := q);
    [exact Hq | apply prefix_app_l, Hstem |].
  rewrite search_version_skip;
    [| exact Hdot | cbn [append]; eexists _, _, _; repeat split; assumption].
  cbn [append search_version version_here].
  rewrite H1, H2. cbn [Ascii.eqb Bool.eqb andb].
  rewrite append_assoc. cbn [append].
  rewrite (upto_last_digit_found body d3 ending Hbody H3 Hend).
  reflexivity.
Qed.

(** * Concrete runs *)

Definition default_params : Params :=
  mkParams 30 None None None None None None None None None None true "router1".

(** A module object as its constructor leaves it on a local connection:
    device open, no session. *)
Definition connected : Module :=
  mkModule "local" (Some (mkDevice 30)) None None default_params [].

(** The same with nothing open. *)
Definition disconnected : Module :=
  mkModule "local" None None None default_params [].

(** A module object whose operations go to the connection broker. *)
Definition delegated : Module :=
  mkModule "pyez" None None None default_params [].

(** A local module object with a session stored in the given mode. *)
Definition in_session (mode0 : string) : Module :=
  mkModule "local" (Some (mkDevice 30)) (Some (mkConfig mode0)) None
           default_params [].

Definition with_params (p : Params) (m : Module) : Module :=
  mkModule (conn_type m) (dev m) (config m) (destfile m) p (trace m).

Definition system_exit : Exc := mkExc SystemExit "1".

(** Collaborators that answer every call with [None], and with which the
    reports of [AnsibleModule] end the process. *)
Definition quiet : Env :=
  fun _ c =>
    match c with
    | AnsibleFailJson _ | AnsibleExitJson _ => Throws system_exit
    | _ => Returns VNone
    end.

(** The same with a stub of [AnsibleModule] whose reports return. *)
Definition stubbed : Env := fun _ _ => Returns VNone.

(** A device on which releasing the lock fails. *)
Definition unlock_fails : Env :=
  fun h c =>
    match c with
    | ConfigUnlock => Throws (mkExc RpcError "UnlockError")
    | _ => quiet h c
    end.

Definition plain_library : Library :=
  mkLibrary (fun _ => None) (fun s => VStr s)
            (fun _ => inr (mkExc TypeError "dictionary requested"))
            (fun _ => "<rpc/>") (fun v => v)
            (fun v => VList [v]) (fun _ => "text") (fun path => path).

(** ** C2 *)

(** On a delegated connection no session is ever stored, and
    [close_configuration] still calls the broker. *)
Lemma close_configuration_delegated_forwards :
  config delegated = None
  /\ trace delegated = []
  /\ close_configuration quiet delegated
     = (Ret tt, log_call (Broker "close_configuration" []) delegated)
  /\ trace (snd (close_configuration quiet delegated))
     = [Broker "close_configuration" []].
Proof. repeat split. Qed.

(** A session locked on a device that fails to release the lock: the
    failure is reported, the stored session is gone and closing again does
    nothing; and closing with nothing open does nothing. *)
Lemma close_configuration_local_idempotent_witness :
  config (snd (close_configuration unlock_fails (in_session "exclusive")))
  = None
  /\ close_configuration unlock_fails
       (snd (close_configuration unlock_fails (in_session "exclusive")))
     = (Ret tt, snd (close_configuration unlock_fails (in_session "exclusive")))
  /\ close_configuration quiet disconnected = (Ret tt, disconnected).
Proof.
  destruct (close_configuration_local_idempotent unlock_fails
              (in_session "exclusive") eq_refl) as [_ [H1 H2]].
  destruct (close_configuration_local_idempotent quiet disconnected eq_refl)
    as [H3 _].
  split; [exact H1 | split; [exact H2 | exact (H3 eq_refl)]].
Defined.

(** ** C10 *)

(** A private session is open; a call with a mode that does not exist and
    an ephemeral instance returns at once. *)
Lemma open_configuration_open_session_noop_witness :
  open_configuration quiet "bogus" VNone (Some "instance1")
                     (in_session "private")
  = (Ret tt, in_session "private").
Proof.
  apply (@open_configuration_open_session_noop quiet "bogus" VNone
           (Some "instance1") (in_session "private")).
  - intros _. reflexivity.
  - reflexivity.
Defined.

(** ** C7 *)

(** With [ignore_warning=False] the RPC is given [False]: the built-in
    warning text is not in the filter. *)
Lemma open_configuration_bool_replaces_list :
  trace (snd (open_configuration quiet "private" (VBool false) None connected))
  = [RpcOpenConfiguration "private" (VBool true) (VBool false)].
Proof. reflexivity. Qed.

Lemma open_configuration_ignore_warning_witness :
  (exists flag arg rest,
      trace (snd (open_configuration quiet "dynamic"
                    (VStr "statement not found") None connected))
      = (trace connected
         ++ RpcOpenConfiguration flag arg
              (VList [VStr builtin_warning; VStr "statement not found"])
         :: rest)%list).
Proof.
  destruct (open_configuration_ignore_warning quiet "dynamic"
              (VStr "statement not found") None connected)
    as (_ & H & _).
  apply H.
  - reflexivity.
  - reflexivity.
  - reflexivity.
  - right. left. reflexivity.
  - intros _. reflexivity.
Defined.

(** ** C4 *)




(** ** C8 *)

(** The caller asks for 120 seconds; the commit is given the device's 30. *)
Lemma commit_timeout_of_caller_overridden :
  trace (snd (commit_configuration quiet VNone VNone VNone 120
                false false false (in_session "exclusive")))
  = [ConfigCommit VNone VNone VNone 30 false false false].
Proof. reflexivity. Qed.

Lemma commit_configuration_timeout_witness :
  exists used rest,
    trace (snd (commit_configuration quiet VNone (VStr "weekly change") VNone
                  120 false false false (in_session "exclusive")))
    = (trace (in_session "exclusive")
       ++ ConfigCommit VNone (VStr "weekly change") VNone used
            false false false :: rest)%list
    /\ (dev_timeout (mkDevice 30) <> 0%Z -> used = dev_timeout (mkDevice 30))
    /\ (dev_timeout (mkDevice 30) = 0%Z -> used = 120%Z).
Proof.
  apply (@commit_configuration_timeout quiet VNone (VStr "weekly change")
           VNone 120 false false false (in_session "exclusive")
           (mkDevice 30) (mkConfig "exclusive"));
    reflexivity.
Defined.

(** ** C6 *)

Definition no_such_file : Exc :=
  mkExc RpcError "RpcError(message: /var/tmp/pkg.tgz: No such file or directory)".

(** A device that does not have the file, and a control machine that does
    not have it either. *)
Definition file_missing : Env :=
  fun h c =>
    match c with
    | RpcGetChecksumInformation _ => Throws no_such_file
    | HashLocalFile path =>
        Throws (mkExc IOError
                  ("[Errno 2] No such file or directory: '" ++ path ++ "'"))
    | _ => quiet h c
    end.

Lemma md5_no_file_sentinel_witness :
  remote_md5 file_missing "/var/tmp/pkg.tgz" "put" connected
  = (Ret "no_file",
     log_call (checksum_query connected "/var/tmp/pkg.tgz") connected)
  /\ remote_md5 file_missing "/var/tmp/pkg.tgz" "get" connected
     = (Raise no_such_file,
        log_call (checksum_query connected "/var/tmp/pkg.tgz") connected).
Proof.
  split.
  - destruct (md5_no_file_sentinel file_missing "/var/tmp/pkg.tgz" "put"
                connected no_such_file) as [H _].
    destruct H as [H _].
    + right. reflexivity.
    + reflexivity.
    + apply H; reflexivity.
  - destruct (md5_no_file_sentinel file_missing "/var/tmp/pkg.tgz" "get"
                connected no_such_file) as [H _].
    destruct H as [_ H].
    + right. reflexivity.
    + reflexivity.
    + apply H. right. discriminate.
Defined.

(** ** C1 and C9 *)

Definition is_transfer (c : Call) : bool :=
  match c with
  | ScpPut _ _ | FtpPut _ _ | ScpGet _ _ | FtpGet _ _ => true
  | _ => false
  end.

Definition digest : string := "0cc175b9c0f1b6a831c399e269772661".

Definition other_digest : string := "92eb5ffee6ae2fec3ad71c777531578f".

(** The device has the file once it was transferred; [arrives] is the
    checksum it then reports. *)
Definition copying (arrives : string) : Env :=
  fun h c =>
    match c with
    | HashLocalFile _ => Returns (VStr digest)
    | RpcGetChecksumInformation _ =>
        if existsb is_transfer h then Returns (VStr (arrives ++ " "))
        else Throws no_such_file
    | _ => quiet h c
    end.

(** First run: the file is absent, it is pushed and verified.  With a
    transfer that corrupts it, the method goes to [fail_json] with both
    checksums in the message.  Run again after a good transfer, nothing is
    moved. *)
Lemma verified_put_decision_witness :
  fst (verified_put (copying digest) SCP "pkg.tgz" "/var/tmp/pkg.tgz" connected)
  = Ret (pushed_ok, true)
  /\ PyStr.str_in other_digest (transfer_failed_msg digest other_digest) = true
  /\ fst (verified_put (copying digest) FTP "pkg.tgz" "/var/tmp/pkg.tgz"
            (log_call (FtpPut "pkg.tgz" "/var/tmp/pkg.tgz") connected))
     = Ret (already_present, false).
Proof.
  split; [| split].
  - destruct (@verified_put_decision (copying digest) SCP
                "pkg.tgz" "/var/tmp/pkg.tgz" connected
                digest _ "no_file" _ eq_refl eq_refl) as [_ H].
    destruct (H (or_introl eq_refl)) as [_ H2].
    destruct (H2 _ digest _ eq_refl eq_refl) as (_ & Hok & _).
    exact (f_equal fst (Hok eq_refl)).
  - destruct (@verified_put_decision (copying other_digest) SCP
                "pkg.tgz" "/var/tmp/pkg.tgz" connected
                digest _ "no_file" _ eq_refl eq_refl) as [_ H].
    destruct (H (or_introl eq_refl)) as [_ H2].
    destruct (H2 _ other_digest _ eq_refl eq_refl) as (_ & _ & Hbad).
    destruct Hbad as (_ & _ & Hin); [discriminate | exact Hin].
  - destruct (@verified_put_decision (copying digest) FTP
                "pkg.tgz" "/var/tmp/pkg.tgz"
                (log_call (FtpPut "pkg.tgz" "/var/tmp/pkg.tgz") connected)
                digest _ digest _ eq_refl eq_refl) as [H _].
    destruct H as [Hskip _]; [reflexivity | discriminate |].
    exact (f_equal fst Hskip).
Defined.

Lemma transfer_flag_witness :
  exists evs,
    trace (snd (verified (copying digest) Put SCP "pkg.tgz" "/var/tmp/pkg.tgz"
                  connected))
    = (trace connected ++ evs)%list
    /\ In (ScpPut "pkg.tgz" "/var/tmp/pkg.tgz") evs.
Proof.
  destruct (@transfer_flag (copying digest) Put SCP "pkg.tgz" "/var/tmp/pkg.tgz"
              connected pushed_ok true
              (snd (verified (copying digest) Put SCP "pkg.tgz"
                      "/var/tmp/pkg.tgz" connected))
              eq_refl) as (evs & Ht & _ & Hflag & _).
  exists evs. split; [exact Ht |].
  destruct (Hflag eq_refl) as [_ Hin]. exact Hin.
Defined.

(** ** C5 *)

Definition batch_params (formats : option (list string)) : Params :=
  mkParams 30 None None
           (Some ["get-software-information"; "get_interface_information";
                  "get-chassis-inventory"])
           formats None None None None None None true "router1".

Lemma quiet_exits : parent_exits quiet.
Proof. intros h kwargs. exists system_exit. reflexivity. Qed.


(** ** C3 *)

Definition is_rpc_call (c : Call) : bool :=
  match c with
  | Broker method _ => String.eqb method "get_rpc_resp"
  | _ => false
  end.

Definition rpc_timeout : Exc :=
  mkExc OtherException
        "RpcTimeoutError(host: router1, cmd: get-interface-information, timeout: 30)".

(** A broker whose RPCs time out, all of them or all but the first
    [answered]. *)
Definition timing_out (answered : nat) : Env :=
  fun h c =>
    if is_rpc_call c then
      if (length (filter is_rpc_call h) <? answered)%nat
      then Returns (VElement "software-information" []
                             (VStr "Junos: 21.4R1") [])
      else Throws rpc_timeout
    else quiet h c.

Definition two_rpcs : Params :=
  mkParams 30 None None
           (Some ["get-software-information"; "get-interface-information"])
           None None None None None None None true "router1".

Definition failed_flags (o : Outcome (list Result)) : list bool :=
  match o with
  | Ret results => map r_failed results
  | Raise _ => []
  end.

(** C3, where the code departs from it: on a delegated connection, an RPC
    that fails with an error whose text names neither "RpcError" nor
    "ConnectError".  Failing first, it ends the whole batch with an
    [UnboundLocalError]: one call was made, the second RPC never ran and
    nothing was reported.  Failing second, it is recorded as not failed, on
    the reply of the first RPC; the same failure on a local connection, an
    [RpcError] there, is recorded as failed. *)
Theorem delegated_rpc_failure_not_recorded :
  (exists rpc,
      main (timing_out 0) plain_library (with_params two_rpcs delegated)
      = (Raise (mkExc UnboundLocalError
                  "local variable 'resp' referenced before assignment"),
         log_call (Broker "get_rpc_resp" [rpc; VNone; VStr "xml"])
                  (with_params two_rpcs delegated)))
  /\ failed_flags
       (fst (dispatch (timing_out 1) plain_library VNone
               [("get-software-information", "xml", VNone, VNone);
                ("get-interface-information", "xml", VNone, VNone)]
               None [] (with_params two_rpcs delegated)))
     = [false; false]
  /\ failed_flags
       (fst (dispatch (fun h c =>
                         match c with
                         | RpcExecute _ _ =>
                             Throws (mkExc RpcError "RpcTimeoutError")
                         | _ => quiet h c
                         end)
               plain_library VNone
               [("get-software-information", "xml", VNone, VNone);
                ("get-interface-information", "xml", VNone, VNone)]
               None [] (with_params two_rpcs connected)))
     = [true; true].
Proof.
  split; [| split].
  - eexists. vm_compute. reflexivity.
  - vm_compute. reflexivity.
  - vm_compute. reflexivity.
Qed.

(** * Further runs *)

Definition permission_denied : Exc := mkExc IOError "Permission denied".

(** Collaborators that refuse whatever is asked of them. *)
Definition refusing : Env :=
  fun _ c =>
    match c with
    | AnsibleFailJson _ | AnsibleExitJson _ => Throws system_exit
    | _ => Throws permission_denied
    end.

(** Collaborators whose transfers succeed. *)
Definition carrying : Env :=
  fun h c => if is_transfer c then Returns (VBool true) else quiet h c.

(** The same refused transfer on a local and on a delegated connection. *)
Lemma unverified_on_error_witness :
  unverified refusing Put SCP "/tmp/junos.tgz" "/var/tmp/junos.tgz" connected
  = (Ret ("Error: Permission denied", false),
     log_call (ScpPut "/tmp/junos.tgz" "/var/tmp/junos.tgz") connected)
  /\ unverified refusing Put SCP "/tmp/junos.tgz" "/var/tmp/junos.tgz" delegated
     = (Raise permission_denied,
        log_call (Broker "scp_file_copy_put"
                    [VStr "/tmp/junos.tgz"; VStr "/var/tmp/junos.tgz"])
                 delegated).
Proof.
  split.
  - exact (@unverified_on_error refusing Put SCP "/tmp/junos.tgz"
             "/var/tmp/junos.tgz" connected permission_denied eq_refl eq_refl).
  - exact (@unverified_on_error refusing Put SCP "/tmp/junos.tgz"
             "/var/tmp/junos.tgz" delegated permission_denied eq_refl eq_refl).
Defined.

(** A file fetched over FTP: the flag is set and the transfer returned. *)
Lemma unverified_flag_witness :
  unverified carrying Get FTP "/var/log/messages" "/tmp/messages" connected
  = (Ret (pushed_ok, true),
     log_call (FtpGet "/var/log/messages" "/tmp/messages") connected)
  /\ (true = true <-> pushed_ok = pushed_ok)
  /\ (true = true ->
      exists v,
        carrying (trace connected)
                 (moved Get FTP "/var/log/messages" "/tmp/messages" connected)
        = Returns v
        /\ accepted FTP v = true).
Proof.
  split; [reflexivity |].
  exact (@unverified_flag carrying Get FTP "/var/log/messages" "/tmp/messages"
           connected pushed_ok true
           (log_call (FtpGet "/var/log/messages" "/tmp/messages") connected)
           eq_refl).
Defined.

(** A device whose [close] runs into the timeout. *)
Definition close_times_out : Env :=
  fun h c =>
    match c with
    | DeviceClose => Throws (mkExc TimeoutExpiredError "timed out")
    | _ => quiet h c
    end.

Lemma exit_json_reports_witness :
  exists before m1,
    exit_json close_times_out [("changed", VBool false)] connected
    = (Raise system_exit, m1)
    /\ trace m1
       = [DeviceClose; AnsibleExitJson [("changed", VBool false)]]
    /\ before = [DeviceClose]
    /\ dev m1 = None.
Proof.
  destruct (@exit_json_reports close_times_out [("changed", VBool false)]
              connected) as (before & m1 & H1 & H2 & H3 & H4).
  - intros e H. injection H as <-. reflexivity.
  - exists before, m1. subst before.
    split; [exact H1 |]. split; [exact H2 |]. split; [reflexivity |].
    exact (H4 eq_refl).
Defined.

(** [fail_json] with a lock that cannot be released: the nested report is
    the last call, and by then the device is closed. *)
Lemma fail_json_closes_before_reporting_witness :
  trace (snd (fail_json unlock_fails "The commit failed."
                (in_session "exclusive")))
  = [ConfigUnlock; DeviceClose;
     AnsibleFailJson
       (msg_kwargs "Unable to close the configuration: UnlockError")]
  /\ dev (snd (fail_json unlock_fails "The commit failed."
                 (in_session "exclusive"))) = None
  /\ (local (in_session "exclusive") = true ->
      config (snd (fail_json unlock_fails "The commit failed."
                     (in_session "exclusive"))) = None).
Proof.
  split; [vm_compute; reflexivity |].
  apply (@fail_json_closes_before_reporting unlock_fails "The commit failed."
           (in_session "exclusive") [ConfigUnlock; DeviceClose]
           (msg_kwargs "Unable to close the configuration: UnlockError")).
  vm_compute. reflexivity.
Defined.

(** A rollback and a commit on a module object with nothing open. *)
Lemma no_transaction_without_session_witness :
  (forall id,
      exists evs,
        trace (snd (rollback_configuration quiet id disconnected))
        = (trace disconnected ++ evs)%list
        /\ Forall failure_call evs)
  /\ (forall iw comment confirmed timeout full sync force_sync,
         exists evs,
           trace (snd (commit_configuration quiet iw comment confirmed timeout
                         full sync force_sync disconnected))
           = (trace disconnected ++ evs)%list
           /\ Forall failure_call evs)
  /\ (dev disconnected = None ->
      forall iw comment confirmed timeout full sync force_sync,
      exists e,
        commit_configuration quiet iw comment confirmed timeout
                             full sync force_sync disconnected
        = (Raise e, disconnected)
        /\ exc_class e = AttributeError).
Proof.
  exact (@no_transaction_without_session quiet disconnected
           (conj eq_refl eq_refl)).
Defined.

(** A device that answers the first kind of RPC and refuses the other. *)
Definition software_information : Value :=
  VElement "software-information" [] (VStr "Junos: 21.4R1") [].

Definition answering : Env :=
  fun h c =>
    match c with
    | RpcExecute (VElement "get-software-information" _ _ _) _ =>
        Returns software_information
    | RpcExecute _ _ => Throws (mkExc RpcError "RpcError(severity: error)")
    | _ => quiet h c
    end.

Definition two_items : list (string * string * Value * Value) :=
  [("get_software_information", "text", VNone, VNone);
   ("get_interface_information", "xml", VNone, VNone)].

(** Two RPCs, the second refused: two results in the order of the request,
    the first not failed, the second failed. *)
Lemma dispatch_results_witness :
  exists results m',
    dispatch answering plain_library VNone two_items None [] connected
    = (Ret results, m')
    /\ map r_rpc results
       = ["get-software-information"; "get-interface-information"]
    /\ map r_failed results = [false; true]
    /\ Forall2 answers two_items results
    /\ length results = length two_items.
Proof.
  destruct (dispatch answering plain_library VNone two_items None [] connected)
    as [[results|e] m'] eqn:E; [| vm_compute in E; discriminate E].
  exists results, m'. split; [reflexivity |].
  split; [vm_compute in E; injection E as <- _; reflexivity |].
  split; [vm_compute in E; injection E as <- _; reflexivity |].
  exact (@dispatch_results answering plain_library VNone two_items connected
           results m' E).
Defined.

Definition saving_params : Params :=
  mkParams 30 None None None None None None None (Some "/tmp/output.txt")
           None None true "router1".

Definition once_saved : Module :=
  snd (save_text_output quiet plain_library "show version" "text"
         (VStr "Junos: 21.4R1") (with_params saving_params connected)).

(** Two outputs of one run saved to [dest]: the first truncates the file,
    the second is appended. *)
Lemma save_text_output_appends_witness :
  (destfile (with_params saving_params connected) = None ->
   exists rest,
     trace once_saved
     = (trace (with_params saving_params connected)
        ++ SaveFile "/tmp/output.txt" "wb" (VStr "Junos: 21.4R1") :: rest)%list
     /\ Forall failure_call rest)
  /\ exists rest',
       trace (snd (save_text_output quiet plain_library "show interfaces"
                     "text" (VStr "ge-0/0/0 up") once_saved))
       = (trace once_saved
          ++ SaveFile "/tmp/output.txt" "ab" (VStr "ge-0/0/0 up") :: rest')%list
       /\ Forall failure_call rest'.
Proof.
  exact (@save_text_output_appends quiet plain_library "show version" "text"
           (VStr "Junos: 21.4R1") "show interfaces" "text" (VStr "ge-0/0/0 up")
           (with_params saving_params connected) "/tmp/output.txt"
           eq_refl eq_refl eq_refl).
Defined.

Definition three_rpcs : list string :=
  ["get-software-information"; "get_interface_information";
   "get-chassis-inventory"].

(** Three RPCs with one format: the checks return three of each. *)
Lemma validate_lengths_witness :
  exists iw r fs ks ats m',
    validate quiet plain_library
             (with_params (batch_params (Some ["text"])) connected)
    = (Ret (iw, (r, fs, ks, ats)), m')
    /\ r = Some three_rpcs
    /\ length ks = length three_rpcs /\ length ats = length three_rpcs
    /\ (three_rpcs <> [] ->
        length fs = length three_rpcs
        /\ length (zip4 three_rpcs fs ks ats) = length three_rpcs).
Proof.
  destruct (validate quiet plain_library
              (with_params (batch_params (Some ["text"])) connected))
    as [[[iw [[[r fs] ks] ats]]|e] m'] eqn:E; [| vm_compute in E; discriminate E].
  exists iw, r, fs, ks, ats, m'. split; [reflexivity |].
  exact (@validate_lengths quiet plain_library quiet_exits three_rpcs
           (with_params (batch_params (Some ["text"])) connected)
           iw r fs ks ats m' eq_refl E).
Defined.

(** A device that cannot be reached, and whose connection object cannot be
    closed either. *)
Definition connect_timeout : Exc :=
  mkExc ConnectError "ConnectTimeoutError(router1)".

Definition unreachable : Env :=
  fun h c =>
    match c with
    | DeviceOpen => Throws connect_timeout
    | DeviceClose => Throws (mkExc ConnectError "ConnectClosedError(router1)")
    | _ => quiet h c
    end.

Lemma open_failure_closes_witness :
  trace (snd (open unreachable disconnected))
  = [DeviceOpen; DeviceClose;
     AnsibleFailJson
       (msg_kwargs
          "Unable to make a PyEZ connection: ConnectTimeoutError(router1)")]
  /\ dev (snd (open unreachable disconnected)) = None
  /\ PyStr.str_in (exc_str connect_timeout) (unable_to_connect connect_timeout)
     = true.
Proof.
  apply (@open_failure_closes unreachable disconnected connect_timeout
           eq_refl eq_refl eq_refl eq_refl).
  intros e' H. injection H as <-. reflexivity.
Defined.


(** The name of a package for a PowerPC routing engine. *)
Lemma parse_version_shape_witness :
  parse_version_from_filename "jinstall-ppc-12.3R9.4-domestic-signed.tgz"
  = Some "12.3R9.4"
  /\ (exists q, In q JUNOS_PACKAGE_PREFIXES
                /\ prefix q "jinstall-ppc-12.3R9.4-domestic-signed.tgz" = true)
  /\ PyStr.str_in "-12.3R9.4" "jinstall-ppc-12.3R9.4-domestic-signed.tgz" = true
  /\ version_text "12.3R9.4".
Proof.
  split; [reflexivity |].
  exact (@parse_version_shape "jinstall-ppc-12.3R9.4-domestic-signed.tgz"
           "12.3R9.4" eq_refl).
Defined.

(** The name of a package for a 64-bit MX. *)
Lemma parse_version_recovers_witness :
  parse_version_from_filename "junos-install-mx-x86-64-17.3R1.10.tgz"
  = Some "17.3R1.10".
Proof.
  apply (@parse_version_recovers "junos-install" "junos-install-mx-x86-64"
           "17.3R1.10" ".tgz").
  - right. right. left. reflexivity.
  - reflexivity.
  - reflexivity.
  - exists "1"%char, "7"%char, "3R1.1", "0"%char. repeat split.
  - reflexivity.
Defined.

Definition ignoring (l : list Value) : Params :=
  mkParams 30 None (Some l) None None None None None None None None true
           "router1".

Definition warned_params : Params :=
  ignoring [VStr "statement not found"; VStr "mgd: commit complete"].

(** Two warnings to ignore are returned as they were given; an empty list,
    a number, and a list with a number in it are refused. *)
Lemma parse_ignore_warning_option_value_witness :
  parse_ignore_warning_option quiet plain_library
                              (with_params warned_params connected)
  = (Ret (VList [VStr "statement not found"; VStr "mgd: commit complete"]),
     with_params warned_params connected)
  /\ ignore_warning_value
       (VList [VStr "statement not found"; VStr "mgd: commit complete"])
  /\ parse_ignore_warning_option quiet plain_library
                                 (with_params (ignoring [VStr "warning"])
                                              connected)
     = (Ret (VStr "warning"), with_params (ignoring [VStr "warning"]) connected)
  /\ raises (parse_ignore_warning_option quiet plain_library)
            (with_params (ignoring []) connected)
  /\ raises (parse_ignore_warning_option quiet plain_library)
            (with_params (ignoring [VInt 3]) connected)
  /\ raises (parse_ignore_warning_option quiet plain_library)
            (with_params (ignoring [VStr "statement not found"; VInt 3])
                         connected)
  /\ trace (snd (parse_ignore_warning_option quiet plain_library
                   (with_params (ignoring [VStr "statement not found"; VInt 3])
                                connected)))
     = [DeviceClose;
        AnsibleFailJson
          (msg_kwargs
             (invalid_ignore_warning_element
                plain_library [VStr "statement not found"; VInt 3] (VInt 3)))].
Proof.
  destruct (@parse_ignore_warning_option_value quiet plain_library quiet_exits
              (with_params warned_params connected))
    as (_ & _ & _ & Hlist & _ & Hvalue).
  split; [exact (Hlist _ eq_refl (le_n 2) eq_refl) |].
  split; [exact (proj1 (Hvalue _ _ (Hlist _ eq_refl (le_n 2) eq_refl))) |].
  destruct (@parse_ignore_warning_option_value quiet plain_library quiet_exits
              (with_params (ignoring [VStr "warning"]) connected))
    as (_ & _ & Hstr & _).
  split; [exact (Hstr "warning" eq_refl eq_refl) |].
  destruct (@parse_ignore_warning_option_value quiet plain_library quiet_exits
              (with_params (ignoring []) connected))
    as (_ & _ & _ & _ & Hempty & _).
  split; [exact (proj1 (Hempty [] eq_refl (or_introl eq_refl))) |].
  destruct (@parse_ignore_warning_option_value quiet plain_library quiet_exits
              (with_params (ignoring [VInt 3]) connected))
    as (_ & _ & _ & _ & Hone & _).
  split.
  { refine (proj1 (Hone [VInt 3] eq_refl (or_intror (or_introl _)))).
    exists (VInt 3). repeat split. }
  destruct (@parse_ignore_warning_option_value quiet plain_library quiet_exits
              (with_params (ignoring [VStr "statement not found"; VInt 3])
                           connected))
    as (_ & _ & _ & _ & Hmixed & _).
  split; [| reflexivity].
  refine (proj1 (Hmixed _ eq_refl (or_intror (or_intror _)))).
  split; [exact (le_n 2) | reflexivity].
Defined.

(** A library whose evaluation of the option gives one dict. *)
Definition dict_library : Library :=
  mkLibrary (fun _ => None)
            (fun s => VList [VDict [(VStr "interface_name", VStr s)]])
            (fun _ => inr (mkExc TypeError "dictionary requested"))
            (fun _ => "<rpc/>") (fun v => v)
            (fun v => VList [v]) (fun _ => "text") (fun path => path).

Lemma parse_arg_to_list_of_dicts_value_witness :
  parse_arg_to_list_of_dicts quiet dict_library "kwargs" (Some "ge-0/0/0") true
                             connected
  = (Ret (Some [VDict [(VStr "interface_name", VStr "ge-0/0/0")]]), connected)
  /\ Forall str_keyed [VDict [(VStr "interface_name", VStr "ge-0/0/0")]].
Proof.
  split; [reflexivity |].
  exact (@parse_arg_to_list_of_dicts_value quiet dict_library quiet_exits
           "kwargs" (Some "ge-0/0/0") true connected
           [VDict [(VStr "interface_name", VStr "ge-0/0/0")]] connected eq_refl).
Defined.

(** An RPC the device refuses, on a local connection. *)
Lemma local_failure_recorded_witness :
  exists result,
    dispatch_one answering plain_library VNone
                 ("get_interface_information", "xml", VNone, VNone) None
                 connected
    = (Ret (None, result),
       log_call (RpcExecute
                   (VElement "get-interface-information"
                             [("format", VStr "xml")] VNone [])
                   true)
                connected)
    /\ r_failed result = true.
Proof.
  exact (@local_failure_recorded answering plain_library VNone
           "get_interface_information" "xml" VNone VNone None connected
           (mkDevice 30)
           (VElement "get-interface-information" [("format", VStr "xml")]
                     VNone [])
           (mkExc RpcError "RpcError(severity: error)")
           eq_refl eq_refl eq_refl eq_refl eq_refl eq_refl).
Defined.
